(** * RDW vehicle data portal: retrieval and translation pipeline

    A shallow embedding of [rdw_client.py] (filter builder, paginated
    fetcher, record translator, spreadsheet sink) and of the CSV sink of
    [main.py], followed by the properties stated about them. *)

From Stdlib Require Import ZArith List Ascii String Bool Lia Permutation.
From stdpp Require Import base list strings pretty sorting gmap sets.

Local Open Scope string_scope.
Local Open Scope Z_scope.
Local Open Scope list_scope.

(** ** Python strings

    A Python [str] is modelled as a Rocq [string] whose characters are the
    code points below 256.  On that range the character classes used by
    [str.strip] and [str.isdigit] are the finite sets written out below. *)
Module PyStr.

Definition code (c : ascii) : N := N_of_ascii c.

(** [str.isspace] on one character: TAB..CR, FS..US, SPACE, NEL, NBSP. *)
Definition isspace_char (c : ascii) : bool :=
  let n := code c in
  ((9 <=? n) && (n <=? 13) || (28 <=? n) && (n <=? 32)
   || (n =? 133) || (n =? 160))%N.

(** [str.isdigit] on one character: 0..9 and the superscripts 1, 2, 3. *)
Definition isdigit_char (c : ascii) : bool :=
  let n := code c in
  ((48 <=? n) && (n <=? 57) || (n =? 178) || (n =? 179) || (n =? 185))%N.

Fixpoint all_chars (p : ascii -> bool) (s : string) : bool :=
  match s with
  | EmptyString => true
  | String c s' => p c && all_chars p s'
  end.

(** [s.isdigit()]: every character is a digit and there is at least one. *)
Definition isdigit (s : string) : bool :=
  match s with
  | EmptyString => false
  | _ => all_chars isdigit_char s
  end.

(** [len(s)] *)
Definition len (s : string) : Z := Z.of_nat (String.length s).

Fixpoint lstrip (s : string) : string :=
  match s with
  | EmptyString => EmptyString
  | String c s' => if isspace_char c then lstrip s' else s
  end.

Fixpoint rstrip (s : string) : string :=
  match s with
  | EmptyString => EmptyString
  | String c s' =>
      match rstrip s' with
      | EmptyString => if isspace_char c then EmptyString else String c EmptyString
      | r => String c r
      end
  end.

(** [s.strip()] *)
Definition strip (s : string) : string := rstrip (lstrip s).

(** [s[i:j]] for [0 <= i <= j] *)
Definition slice (i j : nat) (s : string) : string := substring i (j - i) s.

Fixpoint replace_go (old new : string) (skip : nat) (s : string) : string :=
  match s with
  | EmptyString => EmptyString
  | String c s' =>
      match skip with
      | S k => replace_go old new k s'
      | O =>
          if String.prefix old s
          then new +:+ replace_go old new (String.length old - 1) s'
          else String c (replace_go old new O s')
      end
  end.

Fixpoint intersperse (new : string) (s : string) : string :=
  match s with
  | EmptyString => new
  | String c s' => new +:+ String c (intersperse new s')
  end.

(** [s.replace(old, new)]: leftmost non-overlapping occurrences. *)
Definition replace (old new s : string) : string :=
  match old with
  | EmptyString => intersperse new s
  | _ => replace_go old new O s
  end.

(** [sep.join(parts)] *)
Definition join (sep : string) (parts : list string) : string :=
  String.concat sep parts.

(** [needle in s] *)
Fixpoint contains (needle s : string) : bool :=
  String.prefix needle s ||
  match s with
  | EmptyString => false
  | String _ s' => contains needle s'
  end.

(** [s.endswith(suffix)] *)
Fixpoint endswith (suffix s : string) : bool :=
  String.eqb s suffix ||
  match s with
  | EmptyString => false
  | String _ s' => endswith suffix s'
  end.

End PyStr.

(** ** Python values carried by a record

    The remote API delivers JSON: strings, numbers, booleans and null.
    A float is represented by its [str()] text, which is all the code ever
    observes of it. *)
Inductive pyvalue : Type :=
| PyNone
| PyStr (s : string)
| PyInt (z : Z)
| PyBool (b : bool)
| PyFloat (repr : string).

(** [str(value)] *)
Definition py_str (v : pyvalue) : string :=
  match v with
  | PyNone => "None"
  | PyStr s => s
  | PyInt z => pretty z
  | PyBool true => "True"
  | PyBool false => "False"
  | PyFloat r => r
  end.

(** ** Python dictionaries

    A [dict] keeps its keys unique and in insertion order; assigning to a
    key that is present overwrites the value in place. *)
Section Dict.
Context {V : Type}.

Definition dict : Type := list (string * V).

Fixpoint dict_get (k : string) (d : dict) : option V :=
  match d with
  | [] => None
  | (k', v) :: d' => if String.eqb k' k then Some v else dict_get k d'
  end.

(** [d[k] = v] *)
Fixpoint dict_set (k : string) (v : V) (d : dict) : dict :=
  match d with
  | [] => [(k, v)]
  | (k', v') :: d' =>
      if String.eqb k' k then (k', v) :: d' else (k', v') :: dict_set k v d'
  end.

Definition dict_keys (d : dict) : list string := map fst d.
Definition dict_values (d : dict) : list V := map snd d.

(** [k in d] *)
Definition dict_has (k : string) (d : dict) : bool :=
  match dict_get k d with Some _ => true | None => false end.

(** [d.get(k, dflt)] *)
Definition dict_get_default (k : string) (dflt : V) (d : dict) : V :=
  match dict_get k d with Some v => v | None => dflt end.

(** [d.update(other)] *)
Definition dict_update (d other : dict) : dict :=
  fold_left (fun acc kv => dict_set (fst kv) (snd kv) acc) other d.

(** A well-formed dictionary has no repeated key. *)
Definition dict_wf (d : dict) : Prop := NoDup (dict_keys d).

End Dict.
Arguments dict V : clear implicits.

(** ** Static tables of [rdw_client.py] *)

Definition DEFAULT_PAGE_SIZE : Z := 10000.
Definition EXCEL_MAX_ROWS : Z := 1048576.
Definition BASE_URL : string := "https://opendata.rdw.nl/resource/m9d7-ebf2.json".

Definition COLUMN_TRANSLATIONS : dict string :=
  [ ("kenteken", "license_plate");
    ("voertuigsoort", "vehicle_type");
    ("merk", "make");
    ("handelsbenaming", "commercial_name");
    ("vervaldatum_apk", "inspection_expiry_date");
    ("datum_tenaamstelling", "registration_date");
    ("bruto_bpm", "gross_bpm");
    ("inrichting", "body_style");
    ("aantal_zitplaatsen", "seat_count");
    ("eerste_kleur", "primary_color");
    ("tweede_kleur", "secondary_color");
    ("aantal_cilinders", "cylinder_count");
    ("cilinderinhoud", "engine_displacement_cc");
    ("massa_ledig_voertuig", "curb_weight_kg");
    ("toegestane_maximum_massa_voertuig", "max_authorized_mass_kg");
    ("massa_rijklaar", "ready_to_drive_mass_kg");
    ("maximum_massa_trekken_ongeremd", "max_unbraked_tow_mass_kg");
    ("maximum_trekken_massa_geremd", "max_braked_tow_mass_kg");
    ("datum_eerste_toelating", "first_admission_date");
    ("datum_eerste_tenaamstelling_in_nederland", "first_registration_nl_date");
    ("wacht_op_keuren", "awaiting_inspection");
    ("catalogusprijs", "list_price_eur");
    ("wam_verzekerd", "liability_insured");
    ("maximale_constructiesnelheid", "design_speed_kmh");
    ("laadvermogen", "payload_kg");
    ("oplegger_geremd", "semi_trailer_braked_mass_kg");
    ("aanhangwagen_autonoom_geremd", "autonomous_trailer_braked_mass_kg");
    ("aanhangwagen_middenas_geremd", "central_axle_trailer_braked_mass_kg");
    ("aantal_staanplaatsen", "standing_places");
    ("aantal_deuren", "door_count");
    ("aantal_wielen", "wheel_count");
    ("afstand_hart_koppeling_tot_achterzijde_voertuig", "distance_coupling_to_rear_mm");
    ("afstand_voorzijde_voertuig_tot_hart_koppeling", "distance_front_to_coupling_mm");
    ("afwijkende_maximum_snelheid", "alternate_max_speed_kmh");
    ("lengte", "length_cm");
    ("breedte", "width_cm");
    ("europese_voertuigcategorie", "eu_vehicle_category");
    ("europese_voertuigcategorie_toevoeging", "eu_vehicle_category_addition");
    ("europese_uitvoeringcategorie_toevoeging", "eu_variant_category_addition");
    ("plaats_chassisnummer", "vin_location");
    ("technische_max_massa_voertuig", "technical_max_mass_kg");
    ("type", "type_code");
    ("type_gasinstallatie", "gas_installation_type");
    ("typegoedkeuringsnummer", "type_approval_number");
    ("variant", "variant");
    ("uitvoering", "trim");
    ("volgnummer_wijziging_eu_typegoedkeuring", "eu_type_approval_revision");
    ("vermogen_massarijklaar", "power_mass_ratio_kw_per_kg");
    ("wielbasis", "wheelbase_cm");
    ("export_indicator", "export_indicator");
    ("openstaande_terugroepactie_indicator", "open_recall_indicator");
    ("vervaldatum_tachograaf", "tachograph_expiry_date");
    ("taxi_indicator", "taxi_indicator");
    ("maximum_massa_samenstelling", "max_combination_mass_kg");
    ("aantal_rolstoelplaatsen", "wheelchair_places");
    ("maximum_ondersteunende_snelheid", "max_assisted_speed_kmh");
    ("jaar_laatste_registratie_tellerstand", "last_odometer_year");
    ("tellerstandoordeel", "odometer_judgement");
    ("code_toelichting_tellerstandoordeel", "odometer_judgement_code");
    ("tenaamstellen_mogelijk", "registration_allowed");
    ("vervaldatum_apk_dt", "inspection_expiry_datetime");
    ("datum_tenaamstelling_dt", "registration_datetime");
    ("datum_eerste_toelating_dt", "first_admission_datetime");
    ("datum_eerste_tenaamstelling_in_nederland_dt", "first_registration_nl_datetime");
    ("vervaldatum_tachograaf_dt", "tachograph_expiry_datetime");
    ("maximum_last_onder_de_vooras_sen_tezamen_koppeling", "max_front_axle_load_with_coupling_kg");
    ("type_remsysteem_voertuig_code", "brake_system_code");
    ("rupsonderstelconfiguratiecode", "tracked_chassis_configuration_code");
    ("wielbasis_voertuig_minimum", "wheelbase_min_cm");
    ("wielbasis_voertuig_maximum", "wheelbase_max_cm");
    ("lengte_voertuig_minimum", "length_min_cm");
    ("lengte_voertuig_maximum", "length_max_cm");
    ("breedte_voertuig_minimum", "width_min_cm");
    ("breedte_voertuig_maximum", "width_max_cm");
    ("hoogte_voertuig", "height_cm");
    ("hoogte_voertuig_minimum", "height_min_cm");
    ("hoogte_voertuig_maximum", "height_max_cm");
    ("massa_bedrijfsklaar_minimaal", "operational_mass_min_kg");
    ("massa_bedrijfsklaar_maximaal", "operational_mass_max_kg");
    ("technisch_toelaatbaar_massa_koppelpunt", "tech_permissible_coupling_mass_kg");
    ("maximum_massa_technisch_maximaal", "technical_mass_max_kg");
    ("maximum_massa_technisch_minimaal", "technical_mass_min_kg");
    ("subcategorie_nederland", "dutch_subcategory");
    ("verticale_belasting_koppelpunt_getrokken_voertuig", "vertical_load_tow_point_kg");
    ("zuinigheidsclassificatie", "efficiency_class");
    ("registratie_datum_goedkeuring_afschrijvingsmoment_bpm", "bpm_depreciation_approval_date");
    ("registratie_datum_goedkeuring_afschrijvingsmoment_bpm_dt", "bpm_depreciation_approval_datetime");
    ("gem_lading_wrde", "avg_load_value");
    ("aerodyn_voorz", "aerodynamic_features");
    ("massa_alt_aandr", "alternative_drivetrain_mass_kg");
    ("verl_cab_ind", "extended_cabin_indicator");
    ("aantal_passagiers_zitplaatsen_wettelijk", "legal_passenger_seats");
    ("aanwijzingsnummer", "designation_number");
    ("api_gekentekende_voertuigen_assen", "api_axles_endpoint");
    ("api_gekentekende_voertuigen_brandstof", "api_fuel_endpoint");
    ("api_gekentekende_voertuigen_carrosserie", "api_bodywork_endpoint");
    ("api_gekentekende_voertuigen_carrosserie_specifiek", "api_bodywork_specific_endpoint");
    ("api_gekentekende_voertuigen_voertuigklasse", "api_vehicle_class_endpoint") ].

Definition CATEGORY_TRANSLATIONS : dict string :=
  [ ("Aanhangwagen", "Trailer");
    ("Autonome aanhangwagen", "Autonomous trailer");
    ("Bedrijfsauto", "Commercial vehicle");
    ("Bromfiets", "Moped");
    ("Bus", "Bus");
    ("Driewielig motorrijtuig", "Three-wheeled motor vehicle");
    ("Land- of bosb aanhw of getr uitr stuk", "Agricultural or forestry trailer or towed equipment");
    ("Land- of bosbouwtrekker", "Agricultural or forestry tractor");
    ("Middenasaanhangwagen", "Central axle trailer");
    ("Mobiele machine", "Mobile machine");
    ("Motorfiets", "Motorcycle");
    ("Motorfiets met zijspan", "Motorcycle with sidecar");
    ("Motorrijtuig met beperkte snelheid", "Limited speed motor vehicle");
    ("Oplegger", "Semi-trailer");
    ("Personenauto", "Passenger car") ].

Definition value_translations : dict string :=
  [ ("Ja", "Yes");
    ("Nee", "No");
    ("ja", "Yes");
    ("nee", "No");
    ("JA", "Yes");
    ("NEE", "No");
    ("Niet geregistreerd", "Not registered");
    ("Niet van toepassing", "Not applicable");
    ("Onbekend", "Unknown");
    ("Leeg", "Empty");
    ("Niet beschikbaar", "Not available");
    ("Niet opgegeven", "Not specified");
    ("Niet bekend", "Not known");
    ("Niet ingevuld", "Not filled in");
    ("Niet vermeld", "Not mentioned");
    ("Niet opgenomen", "Not included");
    ("Aanhangwagen", "Trailer");
    ("Autonome aanhangwagen", "Autonomous trailer");
    ("Bedrijfsauto", "Commercial vehicle");
    ("Bromfiets", "Moped");
    ("Bus", "Bus");
    ("Driewielig motorrijtuig", "Three-wheeled motor vehicle");
    ("Land- of bosb aanhw of getr uitr stuk", "Agricultural or forestry trailer or towed equipment");
    ("Land- of bosbouwtrekker", "Agricultural or forestry tractor");
    ("Middenasaanhangwagen", "Central axle trailer");
    ("Mobiele machine", "Mobile machine");
    ("Motorfiets", "Motorcycle");
    ("Motorfiets met zijspan", "Motorcycle with sidecar");
    ("Motorrijtuig met beperkte snelheid", "Limited speed motor vehicle");
    ("Oplegger", "Semi-trailer");
    ("Personenauto", "Passenger car") ].

(** [sorted(xs)] on strings: ascending by code point, stable. *)
Definition sorted (xs : list string) : list string := merge_sort String.le xs.

(** [CSV_FIELDNAMES = sorted(COLUMN_TRANSLATIONS.values())] *)
Definition CSV_FIELDNAMES : list string :=
  sorted (dict_values COLUMN_TRANSLATIONS).

(** ** Record translator *)

(** The body of [translate_dutch_value], with the local lookup table made a
    parameter so that the precedence of the date rule can be stated for
    every table. *)
Definition translate_dutch_value_in (table : dict string) (value : pyvalue)
  : pyvalue :=
  match value with
  | PyNone => value
  | _ =>
      let str_value := PyStr.strip (py_str value) in
      if (PyStr.len str_value =? 8) && PyStr.isdigit str_value then
        let year := PyStr.slice 0 4 str_value in
        let month := PyStr.slice 4 6 str_value in
        let day := PyStr.slice 6 8 str_value in
        PyStr (year +:+ "-" +:+ month +:+ "-" +:+ day)
      else
        match dict_get str_value table with
        | Some english => PyStr english
        | None => value
        end
  end.

Definition translate_dutch_value (value : pyvalue) : pyvalue :=
  translate_dutch_value_in value_translations value.

(** [COLUMN_TRANSLATIONS.get(k, k)] *)
Definition english_key (k : string) : string :=
  dict_get_default k k COLUMN_TRANSLATIONS.

Definition translate_record (record : dict pyvalue) : dict pyvalue :=
  fold_left
    (fun translated kv =>
       dict_set (english_key (fst kv)) (translate_dutch_value (snd kv)) translated)
    record [].

(** The value rule as the specification words it: the date test is made on
    the stringified value, and only the dictionary lookup uses the trimmed
    form. *)
Definition translate_value_reference (table : dict string) (value : pyvalue)
  : pyvalue :=
  match value with
  | PyNone => PyNone
  | _ =>
      let s := py_str value in
      if (PyStr.len s =? 8) && PyStr.isdigit s then
        PyStr (PyStr.slice 0 4 s +:+ "-" +:+ PyStr.slice 4 6 s +:+ "-"
               +:+ PyStr.slice 6 8 s)
      else
        match dict_get (PyStr.strip s) table with
        | Some english => PyStr english
        | None => value
        end
  end.

(** ** Filter builder *)
Section FilterBuilder.

(** [str.upper] follows the full Unicode case mapping, which leaves the
    modelled range of code points; the builder is stated for any such
    function. *)
Variable upper : string -> string.

(** Truth value of an [Optional[str]] argument. *)
Definition given (o : option string) : option string :=
  match o with
  | Some s => if String.eqb s "" then None else Some s
  | None => None
  end.

Definition date_conditions_of (date_from date_to : option string)
  : list string :=
  let date_conditions : list string := [] in
  let date_conditions :=
    match given date_from with
    | Some d =>
        let date_from_formatted := PyStr.replace "-" "" d in
        (date_conditions
           ++ ["datum_tenaamstelling >= '" +:+ date_from_formatted +:+ "'"])%list
    | None => date_conditions
    end in
  match given date_to with
  | Some d =>
      let date_to_formatted := PyStr.replace "-" "" d in
      (date_conditions
         ++ ["datum_tenaamstelling <= '" +:+ date_to_formatted +:+ "'"])%list
  | None => date_conditions
  end.

Definition build_filters
  (category license_plate brand model date_from date_to : option string)
  (order_by_recent : bool) : dict string :=
  let filters : dict string := [] in
  let filters :=
    match given category with
    | Some c => dict_set "voertuigsoort" c filters
    | None => filters
    end in
  let filters :=
    match given license_plate with
    | Some p =>
        let normalized := upper (PyStr.replace " " "" (PyStr.replace "-" "" p)) in
        dict_set "kenteken" normalized filters
    | None => filters
    end in
  let filters :=
    match given brand with
    | Some b => dict_set "merk" (upper b) filters
    | None => filters
    end in
  let filters :=
    match given model with
    | Some m => dict_set "handelsbenaming" (upper m) filters
    | None => filters
    end in
  let filters :=
    match given date_from, given date_to with
    | None, None => filters
    | _, _ =>
        match date_conditions_of date_from date_to with
        | [] => filters
        | date_conditions =>
            dict_set "$where" (PyStr.join " AND " date_conditions) filters
        end
    end in
  if order_by_recent then
    let filters :=
      match dict_get "$where" filters with
      | Some w =>
          dict_set "$where" (w +:+ " AND datum_tenaamstelling IS NOT NULL") filters
      | None =>
          dict_set "$where" "datum_tenaamstelling IS NOT NULL" filters
      end in
    dict_set "$order" "datum_tenaamstelling DESC" filters
  else filters.

End FilterBuilder.

(** The [$where] predicate coming out of the date logic alone. *)
Definition date_predicate (date_from date_to : option string) : option string :=
  match date_conditions_of date_from date_to with
  | [] => None
  | date_conditions => Some (PyStr.join " AND " date_conditions)
  end.

(** ASCII upper-casing, which is what [str.upper] does on ASCII text. *)
Definition ascii_upper_char (c : ascii) : ascii :=
  let n := N_of_ascii c in
  if ((97 <=? n) && (n <=? 122))%N then ascii_of_N (n - 32) else c.

Fixpoint ascii_upper (s : string) : string :=
  match s with
  | EmptyString => EmptyString
  | String c s' => String (ascii_upper_char c) (ascii_upper s')
  end.

(** ** Paginated fetcher *)

Definition row : Type := dict pyvalue.

Record request : Type := {
  req_url : string;
  req_params : dict pyvalue;
  req_headers : dict string;
  req_timeout : pyvalue
}.

(** What [session.get] gives back: a connection failure, or a reply with a
    status code and the rows of its JSON body. *)
Inductive response : Type :=
| ConnectionFailed
| Replied (status : Z) (rows : list row).

Inductive fetch_error : Type :=
| RequestException
| HTTPError (status : Z).

(** What a consumer that drains the generator observes, in order. *)
Inductive event : Type :=
| EvRequest (r : request)
| EvYield (r : row).

(** How the generator ends: it returns, it raises, or the model's loop
    budget was too small to see the end. *)
Inductive ending : Type :=
| Finished
| Raised (e : fetch_error)
| OutOfFuel.

Definition requests_of (trace : list event) : list request :=
  omap (fun e => match e with EvRequest r => Some r | EvYield _ => None end) trace.

Definition yielded_of (trace : list event) : list row :=
  omap (fun e => match e with EvYield r => Some r | EvRequest _ => None end) trace.

(** [len(xs)] as a Python integer. *)
Definition list_len {A : Type} (xs : list A) : Z :=
  fold_left (fun n _ => n + 1) xs 0.

(** [limit is not None and fetched >= limit] *)
Definition limit_reached (limit : option Z) (fetched : Z) : bool :=
  match limit with
  | Some l => l <=? fetched
  | None => false
  end.

(** The [for row in rows] loop: the rows yielded, the counter afterwards,
    and whether the loop left through [return]. *)
Fixpoint yield_rows (limit : option Z) (rows : list row) (fetched : Z)
  : list row * Z * bool :=
  match rows with
  | [] => ([], fetched, false)
  | r :: rest =>
      let fetched := fetched + 1 in
      if limit_reached limit fetched then ([r], fetched, true)
      else
        let '(ys, fetched', returned) := yield_rows limit rest fetched in
        (r :: ys, fetched', returned)
  end.

Section Fetcher.

(** The remote endpoint: any state machine answering requests. *)
Context {S : Type}.
Variable respond : S -> request -> response * S.

Variable limit : option Z.
Variable page_size : Z.
Variable filters : dict string.
Variable app_token : option string.
Variable timeout : pyvalue.

Definition fetch_headers : dict string :=
  let headers := [("Accept", "application/json")] in
  match given app_token with
  | Some t => dict_set "X-App-Token" t headers
  | None => headers
  end.

Definition fetch_request (offset : Z) : request :=
  let params := [("$limit", PyInt page_size); ("$offset", PyInt offset)] in
  let params := dict_update params (map (fun kv => (fst kv, PyStr (snd kv))) filters) in
  {| req_url := BASE_URL; req_params := params;
     req_headers := fetch_headers; req_timeout := timeout |}.

(** The [while True] loop, one iteration per unit of fuel. *)
Fixpoint fetch_loop (fuel : nat) (st : S) (fetched offset : Z)
  : list event * ending * S :=
  match fuel with
  | O => ([], OutOfFuel, st)
  | Datatypes.S fuel' =>
      let req := fetch_request offset in
      let '(resp, st) := respond st req in
      match resp with
      | ConnectionFailed => ([EvRequest req], Raised RequestException, st)
      | Replied status rows =>
          if (400 <=? status) && (status <? 600)
          then ([EvRequest req], Raised (HTTPError status), st)
          else
            match rows with
            | [] => ([EvRequest req], Finished, st)
            | _ =>
                let '(ys, fetched, returned) := yield_rows limit rows fetched in
                let here := EvRequest req :: map EvYield ys in
                if returned then (here, Finished, st)
                else if limit_reached limit fetched then (here, Finished, st)
                else if list_len rows <? page_size then (here, Finished, st)
                else
                  let '(later, e, st) :=
                    fetch_loop fuel' st fetched (offset + page_size) in
                  ((here ++ later)%list, e, st)
            end
      end
  end.

Definition fetch_rdw_data (fuel : nat) (st : S) : list event * ending * S :=
  fetch_loop fuel st 0 0.

End Fetcher.

(** A scripted endpoint: it answers the n-th request with the n-th page of
    its script, whatever is asked, and with an empty page afterwards. *)
Definition scripted (pages : list (list row)) (_ : request)
  : response * list (list row) :=
  match pages with
  | [] => (Replied 200 [], [])
  | p :: rest => (Replied 200 p, rest)
  end.

(** An endpoint serving a fixed dataset by [$limit] and [$offset]. *)
Definition dataset_server (data : list row) (_ : unit) (r : request)
  : response * unit :=
  match dict_get "$limit" (req_params r), dict_get "$offset" (req_params r) with
  | Some (PyInt l), Some (PyInt o) =>
      (Replied 200 (take (Z.to_nat l) (drop (Z.to_nat o) data)), tt)
  | _, _ => (Replied 400 [], tt)
  end.

(** The three components of a run. *)
Definition run_trace {S : Type} (run : list event * ending * S) : list event :=
  fst (fst run).
Definition run_ending {S : Type} (run : list event * ending * S) : ending :=
  snd (fst run).
Definition run_state {S : Type} (run : list event * ending * S) : S :=
  snd run.

(** The trace of a run that asks for the given pages one after the other,
    starting at [offset], and yields each of them whole. *)
Fixpoint paged_trace (mk : Z -> request) (page_size offset : Z)
  (pages : list (list row)) : list event :=
  match pages with
  | [] => []
  | p :: rest =>
      (EvRequest (mk offset) :: map EvYield p)
        ++ paged_trace mk page_size (offset + page_size) rest
  end.

(** The offsets [offset], [offset + page_size], ... of [n] requests. *)
Fixpoint offsets_from (page_size offset : Z) (n : nat) : list Z :=
  match n with
  | O => []
  | Datatypes.S n' => offset :: offsets_from page_size (offset + page_size) n'
  end.

(** ** Export sinks *)

(** [csv.DictWriter]: the field names and the lines written so far.  A line
    is the list of its cells before quoting. *)
Record DictWriter : Type := {
  fieldnames : list string;
  written : list (list pyvalue)
}.

Definition new_writer (names : list string) : DictWriter :=
  {| fieldnames := names; written := [] |}.

Definition writeheader (w : DictWriter) : DictWriter :=
  {| fieldnames := fieldnames w;
     written := written w ++ [map PyStr (fieldnames w)] |}.

(** [writerow(rowdict)]: one cell per field name, [""] for a missing key. *)
Definition writerow (rowdict : dict pyvalue) (w : DictWriter) : DictWriter :=
  {| fieldnames := fieldnames w;
     written :=
       written w
       ++ [map (fun key => dict_get_default key (PyStr "") rowdict) (fieldnames w)] |}.

(** The line written for one translated record: one cell per field name,
    in the order of the field names. *)
Definition csv_line (names : list string) (translated : dict pyvalue)
  : list pyvalue :=
  map (fun field => dict_get_default field (PyStr "") translated) names.

(** [{field: translated.get(field, "") for field in CSV_FIELDNAMES}] *)
Definition csv_rowdict (translated : dict pyvalue) : dict pyvalue :=
  fold_left
    (fun d field => dict_set field (dict_get_default field (PyStr "") translated) d)
    CSV_FIELDNAMES [].

(** The CSV path of [main]: the header, then one line per fetched record. *)
Definition main_csv (raw_records : list row) : list (list pyvalue) :=
  let csv_writer := writeheader (new_writer CSV_FIELDNAMES) in
  written
    (fold_left
       (fun w record =>
          let translated := translate_record record in
          writerow (csv_rowdict translated) w)
       raw_records csv_writer).

(** [pandas.DataFrame]: column labels and rows, a missing cell being [None]. *)
Record DataFrame : Type := {
  df_columns : list string;
  df_rows : list (list (option pyvalue))
}.

Definition add_column (cols : list string) (k : string) : list string :=
  if existsb (String.eqb k) cols then cols else cols ++ [k].

(** [pd.DataFrame.from_records(records)] on a list of dicts: the columns are
    the keys met, in order of first appearance. *)
Definition from_records (records : list (dict pyvalue)) : DataFrame :=
  let cols :=
    fold_left (fun cols r => fold_left add_column (dict_keys r) cols) records [] in
  {| df_columns := cols;
     df_rows := map (fun r => map (fun c => dict_get c r) cols) records |}.

Inductive excel_error {E : Type} : Type :=
| MissingPandas                (* "Install pandas and openpyxl to enable Excel export." *)
| CapacityError (n : Z)        (* "Excel cannot store {n:,} rows. Use CSV or filter the dataset." *)
| WriterError (e : E).         (* whatever [df.to_excel] raises *)
Arguments excel_error E : clear implicits.

Section Excel.

(** The file system and the errors of the spreadsheet library. *)
Context {FS E : Type}.

(** The [pd] module when it could be imported: [df.to_excel(path)]. *)
Record pandas : Type := {
  to_excel : DataFrame -> string -> FS -> option E * FS
}.

Definition export_to_excel (pd : option pandas)
  (records : list (dict pyvalue)) (path : string) (fs : FS)
  : option (excel_error E) * FS :=
  match pd with
  | None => (Some MissingPandas, fs)
  | Some lib =>
      if list_len records >? EXCEL_MAX_ROWS
      then (Some (CapacityError (list_len records)), fs)
      else
        let df := from_records records in
        let '(err, fs) := to_excel lib df path fs in
        (option_map WriterError err, fs)
  end.

End Excel.
Arguments pandas FS E : clear implicits.

(** A spreadsheet library that always succeeds and stores the frame under
    its path. *)
Definition recording_pandas : pandas (dict DataFrame) Empty_set :=
  {| to_excel := fun df path fs => (None, dict_set path df fs) |}.

(** The spreadsheet path of [main]: records are translated and buffered,
    and the export is skipped when the buffer is empty. *)
Definition main_excel {FS E} (pd : option (pandas FS E))
  (raw_records : list row) (excel_path : string) (fs : FS)
  : option (excel_error E) * FS :=
  let translated_for_excel := map translate_record raw_records in
  match translated_for_excel with
  | [] => (None, fs)
  | _ => export_to_excel pd translated_for_excel excel_path fs
  end.

(** [n] copies of one record, built without a unary counter. *)
Definition synthetic_records (r : dict pyvalue) (n : N) : list (dict pyvalue) :=
  N.iter n (cons r) [].

(** ** Sample data used in the examples *)

(** The date layout [YYYY-MM-DD] of an 8-character string. *)
Definition dashed (s : string) : string :=
  substring 0 4 s +:+ "-" +:+ substring 4 2 s +:+ "-" +:+ substring 6 2 s.

(** A record holding a Dutch key together with its canonical name. *)
Definition colliding_record : dict pyvalue :=
  [("kenteken", PyStr "AB12CD"); ("license_plate", PyStr "ZZ99ZZ")].

(** A record with two known keys and one unknown key. *)
Definition plain_record : dict pyvalue :=
  [("kenteken", PyStr "AB12CD"); ("merk", PyStr "VOLVO"); ("onbekend_veld", PyInt 1)].

(** A record holding only a licence plate. *)
Definition plate_row (plate : string) : row := [("kenteken", PyStr plate)].

(** A script of pages of sizes 2, 2, 1, followed by a page that a correct
    run never asks for. *)
Definition pages_2_2_1 : list (list row) :=
  [ [plate_row "R1"; plate_row "R2"]; [plate_row "R3"; plate_row "R4"];
    [plate_row "R5"]; [plate_row "R6"] ].

(** A script of three full pages of size 2. *)
Definition pages_2_2_2 : list (list row) :=
  [ [plate_row "R1"; plate_row "R2"]; [plate_row "R3"; plate_row "R4"];
    [plate_row "R5"; plate_row "R6"] ].

(** ** Further endpoints and callers *)

(** An endpoint that replays a list of replies, whatever is asked, and
    answers with an empty page afterwards. *)
Definition replaying (replies : list response) (_ : request)
  : response * list response :=
  match replies with
  | [] => (Replied 200 [], [])
  | r :: rest => (r, rest)
  end.

(** [response.raise_for_status()]: the error raised for a reply, if any. *)
Definition failure_of (r : response) : option fetch_error :=
  match r with
  | ConnectionFailed => Some RequestException
  | Replied status _ =>
      if (400 <=? status) && (status <? 600) then Some (HTTPError status) else None
  end.

(** ** Category names ([rdw_client.py] and its caller in [web_app.py]) *)

(** [[CATEGORY_TRANSLATIONS.get(cat, cat) for cat in categories]] *)
Definition translate_categories (categories : list string) : list string :=
  map (fun cat => dict_get_default cat cat CATEGORY_TRANSLATIONS) categories.

(** [CATEGORY_TRANSLATIONS.copy()] *)
Definition get_category_translation_map : dict string := CATEGORY_TRANSLATIONS.

(** The [for dutch, english in category_map.items()] loop of
    [query_records]: the first Dutch name whose English name is the one
    asked for. *)
Fixpoint first_dutch (category : string) (items : dict string) : option string :=
  match items with
  | [] => None
  | (dutch, english) :: rest =>
      if String.eqb english category then Some dutch else first_dutch category rest
  end.

(** The Dutch category [query_records] filters on for the category chosen
    in the form: none for an empty choice, the Dutch name found, and the
    choice itself when nothing is found. *)
Definition dutch_category_of (category : string) : option string :=
  if String.eqb category "" then None
  else
    match given (first_dutch category get_category_translation_map) with
    | Some dutch => Some dutch
    | None => Some category
    end.

(** ** Web front end ([web_app.py]) *)

Definition MAX_WEB_LIMIT : Z := 10000.

(** [resolve_app_token(cli_token)]; [env] is the value of the environment
    variable [RDW_APP_TOKEN], if it is set. *)
Definition resolve_app_token (env : option string) (cli_token : option string)
  : option string :=
  match given cli_token with
  | Some token => Some token
  | None => env
  end.

(** [text or None] *)
Definition or_none (text : string) : option string := given (Some text).

Section WebApp.

(** Python's [int(text)]: the integer the text denotes, or no result where
    [int] raises [ValueError]. *)
Variable py_int : string -> option Z.

Definition parse_limit (raw : option string) : Z :=
  let parsed :=
    match given raw with
    | Some text => py_int text
    | None => Some 50
    end in
  match parsed with
  | Some value => Z.max 1 (Z.min MAX_WEB_LIMIT value)
  | None => 50
  end.

End WebApp.

(** What [query_records] gives its caller: the translated records with
    their count, or the message of the [RuntimeError] it raises; the third
    case is a fetch that the model's loop budget did not see end. *)
Inductive query_result : Type :=
| QueryOk (records : list (dict pyvalue)) (total : Z)
| QueryFailed (message : string)
| QueryUnfinished.

Section QueryRecords.
Context {S : Type}.
Variable respond : S -> request -> response * S.
Variable upper : string -> string.
Variable env_token : option string.

Definition query_records (fuel : nat) (st : S)
  (category license_plate : string) (limit : Z) (timeout : pyvalue)
  (brand model date_from date_to : string) (order_by_recent : bool)
  : query_result * S :=
  let dutch_category := dutch_category_of category in
  let filters :=
    build_filters upper dutch_category (or_none license_plate) (or_none brand)
                  (or_none model) (or_none date_from) (or_none date_to)
                  order_by_recent in
  let app_token := resolve_app_token env_token None in
  let run :=
    fetch_rdw_data respond (Some limit) DEFAULT_PAGE_SIZE filters app_token
                   timeout fuel st in
  let '(translated, total) :=
    fold_left
      (fun acc record => (fst acc ++ [translate_record record], snd acc + 1))
      (yielded_of (run_trace run)) ([], 0) in
  (match run_ending run with
   | Finished => QueryOk translated total
   | Raised (HTTPError status) =>
       QueryFailed
         ("RDW API access error."
          +:+ (if status =? 403
               then " Please use a Socrata app token. Set it like this: export RDW_APP_TOKEN='your_token_here'"
               else ""))
   | Raised RequestException => QueryFailed "RDW API request failed."
   | OutOfFuel => QueryUnfinished
   end,
   run_state run).

End QueryRecords.

(** [output.seek(0); output.truncate(0)] on the writer's buffer. *)
Definition truncate (w : DictWriter) : DictWriter :=
  {| fieldnames := fieldnames w; written := [] |}.

(** [generate()] of [download_csv]: what each [yield] hands out, as the
    lines written since the buffer was last emptied. *)
Definition download_csv_chunks (records : list (dict pyvalue))
  : list (list (list pyvalue)) :=
  let writer := writeheader (new_writer CSV_FIELDNAMES) in
  let header_chunk := written writer in
  let writer := truncate writer in
  header_chunk
    :: snd (fold_left
              (fun acc row =>
                 let writer := writerow (csv_rowdict row) (fst acc) in
                 (truncate writer, snd acc ++ [written writer]))
              records (writer, [])).

(** ** Command line ([main.py]) *)

Record cli_args : Type := {
  arg_category : option string;
  arg_license_plate : option string;
  arg_limit : option Z;
  arg_page_size : Z;
  arg_excel_path : option string;
  arg_csv_path : option string;
  arg_show_columns : bool;
  arg_app_token : option string;
  arg_timeout : pyvalue;
  arg_preview : Z
}.

(** The variables of the [for record in raw_records] loop of [main]. *)
Record main_state : Type := {
  total : Z;
  preview_count : Z;
  printed : list (dict pyvalue);
  translated_for_excel : list (dict pyvalue);
  csv_writer : option DictWriter
}.

Definition main_step (args : cli_args) (s : main_state) (record : row)
  : main_state :=
  let translated := translate_record record in
  let total := total s + 1 in
  let previewing :=
    negb (arg_preview args =? 0) && (preview_count s <? arg_preview args) in
  {| total := total;
     preview_count := if previewing then preview_count s + 1 else preview_count s;
     printed := if previewing then printed s ++ [translated] else printed s;
     translated_for_excel :=
       match given (arg_excel_path args) with
       | Some _ => translated_for_excel s ++ [translated]
       | None => translated_for_excel s
       end;
     csv_writer := option_map (writerow (csv_rowdict translated)) (csv_writer s) |}.

(** What a run of [main] leaves behind: the exit code (none when the
    model's loop budget did not see the fetch end), the requests sent, the
    records printed as preview, the lines of the CSV file if one was
    opened, the spreadsheet files, and the two counters. *)
Record main_outcome {FS : Type} : Type := {
  exit_code : option Z;
  out_requests : list request;
  out_printed : list (dict pyvalue);
  out_csv : option (list (list pyvalue));
  out_fs : FS;
  out_total : Z;
  out_preview_count : Z
}.
Arguments main_outcome FS : clear implicits.

Section Main.
Context {S FS E : Type}.
Variable respond : S -> request -> response * S.
Variable upper : string -> string.
Variable env_token : option string.
Variable pd : option (pandas FS E).

Definition main (fuel : nat) (args : cli_args) (st : S) (fs : FS)
  : main_outcome FS :=
  let nothing code :=
    {| exit_code := Some code; out_requests := []; out_printed := [];
       out_csv := None; out_fs := fs; out_total := 0; out_preview_count := 0 |} in
  if arg_show_columns args then nothing 0
  else
    match given (arg_excel_path args), given (arg_csv_path args),
          arg_preview args =? 0 with
    | None, None, true => nothing 2
    | _, _, _ =>
        let filters :=
          build_filters upper (arg_category args) (arg_license_plate args)
                        None None None None false in
        let app_token := resolve_app_token env_token (arg_app_token args) in
        let opened :=
          match given (arg_csv_path args) with
          | Some _ => Some (writeheader (new_writer CSV_FIELDNAMES))
          | None => None
          end in
        let run :=
          fetch_rdw_data respond (arg_limit args) (arg_page_size args) filters
                         app_token (arg_timeout args) fuel st in
        let s :=
          fold_left (main_step args) (yielded_of (run_trace run))
            {| total := 0; preview_count := 0; printed := [];
               translated_for_excel := []; csv_writer := opened |} in
        let outcome code fs' :=
          {| exit_code := code; out_requests := requests_of (run_trace run);
             out_printed := printed s;
             out_csv := option_map written (csv_writer s);
             out_fs := fs'; out_total := total s;
             out_preview_count := preview_count s |} in
        match run_ending run with
        | Raised _ => outcome (Some 1) fs
        | OutOfFuel => outcome None fs
        | Finished =>
            match given (arg_excel_path args), translated_for_excel s with
            | Some path, _ :: _ =>
                match export_to_excel pd (translated_for_excel s) path fs with
                | (Some _, fs') => outcome (Some 1) fs'
                | (None, fs') => outcome (Some 0) fs'
                end
            | _, _ => outcome (Some 0) fs
            end
        end
    end.

End Main.

(** ** Brand list

    [get_available_brands] sends one request of its own and keeps the
    trimmed, non-blank brand names of the reply, sorted. *)

(** [bool(value)] *)
Definition py_truthy (v : pyvalue) : bool :=
  match v with
  | PyNone => false
  | PyStr s => negb (String.eqb s "")
  | PyInt z => negb (z =? 0)
  | PyBool b => b
  | PyFloat repr => negb (String.eqb repr "0.0" || String.eqb repr "-0.0")
  end.

Definition brands_request (app_token : option string) (timeout : pyvalue)
  : request :=
  {| req_url := "https://opendata.rdw.nl/resource/m9d7-ebf2.json";
     req_params :=
       [("$select", PyStr "merk"); ("$group", PyStr "merk");
        ("$order", PyStr "merk"); ("$limit", PyInt 50000);
        ("$$app_token",
         match app_token with Some t => PyStr t | None => PyNone end)];
     req_headers := [];
     req_timeout := timeout |}.

(** The [for item in data] loop; [None] is the [AttributeError] of
    [.strip()] on a value that is not a string, which the function does
    not catch. *)
Fixpoint collect_brands (data : list row) (brands : list string)
  : option (list string) :=
  match data with
  | [] => Some brands
  | item :: rest =>
      match dict_get "merk" item with
      | None => collect_brands rest brands
      | Some v =>
          if py_truthy v then
            match v with
            | PyStr s =>
                if String.eqb (PyStr.strip s) ""
                then collect_brands rest brands
                else collect_brands rest (brands ++ [PyStr.strip s])
            | _ => None
            end
          else collect_brands rest brands
      end
  end.

Inductive brands_result : Type :=
| BrandsOk (brands : list string)
| BrandsAttributeError.

Definition get_available_brands {S : Type}
  (respond : S -> request -> response * S)
  (app_token : option string) (timeout : pyvalue) (st : S)
  : brands_result * S :=
  let '(resp, st) := respond st (brands_request app_token timeout) in
  match resp with
  | ConnectionFailed => (BrandsOk [], st)
  | Replied status data =>
      if (400 <=? status) && (status <? 600) then (BrandsOk [], st)
      else
        match collect_brands data [] with
        | Some brands => (BrandsOk (sorted brands), st)
        | None => (BrandsAttributeError, st)
        end
  end.

(** Command lines used in the examples: a CSV file, a spreadsheet and a
    preview of one record, pages of two rows; and one with no output. *)
Definition sample_args : cli_args :=
  {| arg_category := None; arg_license_plate := None; arg_limit := None;
     arg_page_size := 2; arg_excel_path := Some "out.xlsx";
     arg_csv_path := Some "out.csv"; arg_show_columns := false;
     arg_app_token := None; arg_timeout := PyFloat "30.0"; arg_preview := 1 |}.

Definition no_output_args : cli_args :=
  {| arg_category := None; arg_license_plate := None; arg_limit := None;
     arg_page_size := 2; arg_excel_path := None; arg_csv_path := Some "";
     arg_show_columns := false; arg_app_token := None;
     arg_timeout := PyFloat "30.0"; arg_preview := 0 |}.

(** * Properties *)

(** ** The model on small inputs *)

Example strip_example : PyStr.strip "  Ja  " = "Ja".
Proof. reflexivity. Qed.
Example replace_example : PyStr.replace "-" "" "2020-01-01" = "20200101".
Proof. reflexivity. Qed.
Example py_str_example : py_str (PyInt 20200101) = "20200101".
Proof. vm_compute. reflexivity. Qed.
Example endswith_example : PyStr.endswith "NULL" "IS NOT NULL" = true.
Proof. reflexivity. Qed.
Example sorted_example : sorted ["b"; "a"; "c"; "ab"] = ["a"; "ab"; "b"; "c"].
Proof. vm_compute. reflexivity. Qed.
Example build_filters_example :
  build_filters ascii_upper (Some "Personenauto") (Some "ab-12 cd") None (Some "")
                (Some "2020-01-01") (Some "2021-12-31") true
  = [("voertuigsoort", "Personenauto"); ("kenteken", "AB12CD");
     ("$where", "datum_tenaamstelling >= '20200101' AND datum_tenaamstelling <= '20211231' AND datum_tenaamstelling IS NOT NULL");
     ("$order", "datum_tenaamstelling DESC")].
Proof. vm_compute. reflexivity. Qed.
Example translate_record_example :
  translate_record [("kenteken", PyStr "AB12CD"); ("wam_verzekerd", PyStr "Ja");
                    ("datum_tenaamstelling", PyStr "20200101"); ("extra", PyInt 7)]
  = [("license_plate", PyStr "AB12CD"); ("liability_insured", PyStr "Yes");
     ("registration_date", PyStr "2020-01-01"); ("extra", PyInt 7)].
Proof. vm_compute. reflexivity. Qed.

(** ** Dictionaries *)
Section DictFacts.
Context {V : Type}.
Implicit Types (d : dict V) (k : string) (v : V).

Lemma dict_get_set_eq k v d : dict_get k (dict_set k v d) = Some v.
Proof.
  induction d as [|[k' v'] d IH]; simpl.
  - by rewrite String.eqb_refl.
  - destruct (String.eqb_spec k' k) as [->|Hne]; simpl.
    + by rewrite String.eqb_refl.
    + by destruct (String.eqb_spec k' k).
Qed.

Lemma dict_get_set_ne k k' v d :
  k ≠ k' → dict_get k' (dict_set k v d) = dict_get k' d.
Proof.
  intros Hne. induction d as [|[k0 v0] d IH]; simpl.
  - by destruct (String.eqb_spec k k').
  - destruct (String.eqb_spec k0 k) as [->|Hk0]; simpl.
    + by destruct (String.eqb_spec k k').
    + by rewrite IH.
Qed.

Lemma dict_keys_set k v d :
  dict_keys (dict_set k v d) = add_column (dict_keys d) k.
Proof.
  unfold add_column. induction d as [|[k' v'] d IH]; simpl; [done|].
  rewrite (String.eqb_sym k k').
  destruct (String.eqb_spec k' k) as [->|Hne]; simpl; [done|].
  rewrite IH. by destruct (existsb (String.eqb k) (dict_keys d)).
Qed.

Lemma dict_get_Some_elem k v d : dict_get k d = Some v → (k, v) ∈ d.
Proof.
  induction d as [|[k' v'] d IH]; simpl; [done|].
  destruct (String.eqb_spec k' k) as [->|Hne].
  - intros [= ->]. apply list_elem_of_here.
  - intros H. apply list_elem_of_further. by apply IH.
Qed.

Lemma dict_get_None_keys k d : dict_get k d = None ↔ k ∉ dict_keys d.
Proof.
  induction d as [|[k' v'] d IH]; simpl.
  - split; [intros _; apply not_elem_of_nil | done].
  - rewrite not_elem_of_cons.
    destruct (String.eqb_spec k' k) as [->|Hne].
    + split; [done|]. by intros [? _].
    + rewrite IH. split; [by intros ?; split|by intros [_ ?]].
Qed.

End DictFacts.

(** ** Keys met in order of first appearance *)

Lemma existsb_eqb_elem (k : string) (cols : list string) :
  existsb (String.eqb k) cols = true ↔ k ∈ cols.
Proof.
  rewrite existsb_exists. split.
  - intros (x & Hin & Heq). apply String.eqb_eq in Heq as ->.
    by apply list_elem_of_In.
  - intros Hin. exists k. split; [by apply list_elem_of_In|apply String.eqb_refl].
Qed.

Lemma add_column_cases (cols : list string) (k : string) :
  (k ∈ cols ∧ add_column cols k = cols)
  ∨ ((k ∉ cols) ∧ add_column cols k = (cols ++ [k])).
Proof.
  unfold add_column. destruct (existsb (String.eqb k) cols) eqn:E.
  - left. split; [by apply existsb_eqb_elem|done].
  - right. split; [|done]. intros Hin%existsb_eqb_elem. congruence.
Qed.

Lemma fold_add_column_elem (ks cols : list string) (x : string) :
  x ∈ fold_left add_column ks cols ↔ x ∈ cols ∨ x ∈ ks.
Proof.
  revert cols. induction ks as [|k ks IH]; intros cols; simpl.
  - rewrite elem_of_nil. tauto.
  - rewrite IH, elem_of_cons.
    destruct (add_column_cases cols k) as [[Hin ->]|[Hnin ->]].
    + split; [tauto|]. intros [?|[->|?]]; tauto.
    + rewrite elem_of_app, list_elem_of_singleton. tauto.
Qed.

Lemma fold_add_column_NoDup (ks cols : list string) :
  NoDup cols → NoDup (fold_left add_column ks cols).
Proof.
  revert cols. induction ks as [|k ks IH]; intros cols Hnd; simpl; [done|].
  apply IH. destruct (add_column_cases cols k) as [[Hin ->]|[Hnin ->]]; [done|].
  apply NoDup_app. split_and!; [done| |apply NoDup_singleton].
  intros x Hx ->%list_elem_of_singleton. done.
Qed.

Lemma fold_add_column_length (ks cols : list string) :
  NoDup cols →
  (length (fold_left add_column ks cols) ≤ length cols + length ks)%nat
  ∧ (length (fold_left add_column ks cols) = (length cols + length ks)%nat
     ↔ NoDup (cols ++ ks)).
Proof.
  revert cols. induction ks as [|k ks IH]; intros cols Hnd; simpl.
  - rewrite app_nil_r. split; [lia|]. split; [done|lia].
  - destruct (add_column_cases cols k) as [[Hin ->]|[Hnin ->]].
    + destruct (IH cols Hnd) as [Hle _]. split; [lia|]. split; [lia|].
      intros Hnd'. apply NoDup_app in Hnd' as (_ & Hdisj & _).
      exfalso. apply (Hdisj k Hin). apply list_elem_of_here.
    + assert (NoDup (cols ++ [k])) as Hnd'.
      { apply NoDup_app. split_and!; [done| |apply NoDup_singleton].
        intros x Hx ->%list_elem_of_singleton. done. }
      destruct (IH _ Hnd') as [Hle Hiff].
      rewrite length_app in Hle, Hiff. simpl in Hle, Hiff.
      rewrite <- app_assoc in Hiff. simpl in Hiff.
      split; [lia|]. rewrite <- Hiff. lia.
Qed.

(** ** The static tables are well-formed dictionaries *)

Lemma COLUMN_TRANSLATIONS_wf : dict_wf COLUMN_TRANSLATIONS.
Proof. unfold dict_wf. apply (bool_decide_unpack _). vm_compute. exact I. Qed.

Lemma COLUMN_TRANSLATIONS_values_NoDup : NoDup (dict_values COLUMN_TRANSLATIONS).
Proof. unfold dict_wf. apply (bool_decide_unpack _). vm_compute. exact I. Qed.

Lemma value_translations_wf : dict_wf value_translations.
Proof. unfold dict_wf. apply (bool_decide_unpack _). vm_compute. exact I. Qed.

Lemma NoDup_values_inj {V : Type} (d : dict V) (k k' : string) (v : V) :
  NoDup (dict_values d) → (k, v) ∈ d → (k', v) ∈ d → k = k'.
Proof.
  unfold dict_values. induction d as [|[k0 v0] d IH]; simpl.
  - intros _ H. by apply elem_of_nil in H.
  - intros Hnd H1 H2. apply NoDup_cons in Hnd as [Hnin Hnd].
    assert (∀ x, (x, v0) ∈ d → False) as Hfresh.
    { intros x Hx. apply Hnin. apply list_elem_of_In. apply in_map_iff.
      exists (x, v0). split; [done|by apply list_elem_of_In]. }
    apply elem_of_cons in H1 as [E1|H1]; apply elem_of_cons in H2 as [E2|H2].
    + congruence.
    + inversion E1; subst. destruct (Hfresh _ H2).
    + inversion E2; subst. destruct (Hfresh _ H1).
    + by apply IH.
Qed.

(** Two different keys are renamed to the same name only when one of them
    is the canonical name of the other. *)
Lemma english_key_collision (k k' : string) :
  k ≠ k' → english_key k = english_key k' →
  dict_get k COLUMN_TRANSLATIONS = Some k'
  ∨ dict_get k' COLUMN_TRANSLATIONS = Some k.
Proof.
  unfold english_key, dict_get_default. intros Hne.
  destruct (dict_get k COLUMN_TRANSLATIONS) as [e|] eqn:E1;
    destruct (dict_get k' COLUMN_TRANSLATIONS) as [e'|] eqn:E2; intros Heq; subst.
  - exfalso. apply Hne.
    eapply NoDup_values_inj;
      eauto using COLUMN_TRANSLATIONS_values_NoDup, dict_get_Some_elem.
  - by left.
  - by right.
  - done.
Qed.

(** Renaming keeps the keys apart when no key is the canonical name of
    another one. *)
Lemma english_key_NoDup (ks : list string) :
  NoDup ks →
  (∀ k e, k ∈ ks → dict_get k COLUMN_TRANSLATIONS = Some e → e ≠ k → e ∉ ks) →
  NoDup (map english_key ks).
Proof.
  induction ks as [|k ks IH]; simpl; intros Hnd Hsep; [constructor|].
  apply NoDup_cons in Hnd as [Hk Hks]. apply NoDup_cons. split.
  - intros Hin. apply list_elem_of_In, in_map_iff in Hin as (k' & Heq & Hk').
    apply list_elem_of_In in Hk'.
    assert (k ≠ k') as Hne by (by intros ->).
    destruct (english_key_collision k k' Hne (eq_sym Heq)) as [H|H].
    + apply (Hsep k k'); [apply list_elem_of_here|done|by apply not_eq_sym|].
      by apply list_elem_of_further.
    + apply (Hsep k' k); [by apply list_elem_of_further|done|done|].
      apply list_elem_of_here.
  - apply IH; [done|]. intros k0 e Hk0 Hget Hne Hin.
    apply (Hsep k0 e); [by apply list_elem_of_further|done|done|].
    by apply list_elem_of_further.
Qed.

(** ** Record translator *)

Lemma translate_record_keys_from (r acc : dict pyvalue) :
  dict_keys
    (fold_left
       (fun translated kv =>
          dict_set (english_key (fst kv)) (translate_dutch_value (snd kv)) translated)
       r acc)
  = fold_left add_column (map english_key (dict_keys r)) (dict_keys acc).
Proof.
  revert acc. induction r as [|[k v] r IH]; intros acc; simpl; [done|].
  by rewrite IH, dict_keys_set.
Qed.

Lemma translate_record_keys (r : dict pyvalue) :
  dict_keys (translate_record r)
  = fold_left add_column (map english_key (dict_keys r)) [].
Proof. apply translate_record_keys_from. Qed.

Lemma translate_record_wf (r : dict pyvalue) : dict_wf (translate_record r).
Proof.
  unfold dict_wf. rewrite translate_record_keys.
  apply fold_add_column_NoDup, NoDup_nil_2.
Qed.

Lemma dict_length_keys {V : Type} (d : dict V) : length (dict_keys d) = length d.
Proof. apply length_map. Qed.

(** C3: the key set of [translate_record r] is the image of the key set of
    [r] under [k ↦ COLUMN_TRANSLATIONS.get(k, k)]: a key of the table is
    renamed to its canonical English name, any other key is kept, every
    source key has its image in the result, and no key occurs twice. *)
Theorem translate_record_key_set (r : dict pyvalue) :
  (list_to_set (dict_keys (translate_record r)) : gset string)
  = set_map english_key (list_to_set (dict_keys r) : gset string)
  ∧ NoDup (dict_keys (translate_record r))
  ∧ (∀ k e, dict_get k COLUMN_TRANSLATIONS = Some e → english_key k = e)
  ∧ (∀ k, dict_get k COLUMN_TRANSLATIONS = None → english_key k = k).
Proof.
  split_and!.
  - apply set_eq. intros x.
    rewrite elem_of_list_to_set, elem_of_map, translate_record_keys.
    rewrite fold_add_column_elem, elem_of_nil.
    split.
    + intros [[]|Hx]. apply list_elem_of_In, in_map_iff in Hx as (k & <- & Hk).
      exists k. split; [done|]. apply elem_of_list_to_set. by apply list_elem_of_In.
    + intros (k & -> & Hk). right. apply elem_of_list_to_set in Hk.
      apply list_elem_of_In, in_map. by apply list_elem_of_In.
  - apply translate_record_wf.
  - intros k e H. unfold english_key, dict_get_default. by rewrite H.
  - intros k H. unfold english_key, dict_get_default. by rewrite H.
Qed.

Lemma translate_record_key_set_witness :
  english_key "kenteken" = "license_plate" ∧ english_key "onbekend_veld" = "onbekend_veld".
Proof.
  pose proof (translate_record_key_set []) as (_ & _ & Hknown & Hunknown).
  split; [apply Hknown|apply Hunknown]; reflexivity.
Defined.

(** C6, as stated, fails: a record holding the Dutch key [kenteken] and
    the key [license_plate] has two entries, its translation has one. *)
Lemma translate_record_cardinality_counterexample :
  dict_wf colliding_record
  ∧ translate_record colliding_record = [("license_plate", PyStr "ZZ99ZZ")]
  ∧ length (translate_record colliding_record) ≠ length colliding_record.
Proof.
  split_and!.
  - unfold dict_wf. apply (bool_decide_unpack _). vm_compute. exact I.
  - reflexivity.
  - vm_compute. discriminate.
Qed.

Lemma COLUMN_TRANSLATIONS_values_fixed :
  Forall (fun kv => english_key (snd kv) = snd kv) COLUMN_TRANSLATIONS.
Proof. apply (bool_decide_unpack _). vm_compute. exact I. Qed.

(** Entries whose renamed key differs from [key] leave the entry under
    [key] as it is. *)
Lemma translate_record_other_keys (r : dict pyvalue) (acc : dict pyvalue)
  (key : string) :
  (∀ k', k' ∈ dict_keys r → english_key k' ≠ key) →
  dict_get key
    (fold_left
       (fun translated kv =>
          dict_set (english_key (fst kv)) (translate_dutch_value (snd kv))
                   translated) r acc)
  = dict_get key acc.
Proof.
  revert acc. induction r as [|[k v] r IH]; intros acc Hother; [done|].
  cbn [fold_left fst snd]. rewrite IH.
  - apply dict_get_set_ne. apply Hother. apply list_elem_of_here.
  - intros k' Hk'. apply Hother. by apply list_elem_of_further.
Qed.

(** The last entry renamed to a key decides the value under that key. *)
Lemma translate_record_last_wins (r1 r2 : dict pyvalue) (k : string) (v : pyvalue) :
  (∀ k', k' ∈ dict_keys r2 → english_key k' ≠ english_key k) →
  dict_get (english_key k) (translate_record (r1 ++ (k, v) :: r2))
  = Some (translate_dutch_value v).
Proof.
  intros Hlater. unfold translate_record.
  rewrite fold_left_app. cbn [fold_left fst snd].
  rewrite translate_record_other_keys by done. apply dict_get_set_eq.
Qed.

(** The canonical name of a key of the table is renamed to itself. *)
Lemma english_key_canonical (k e : string) :
  dict_get k COLUMN_TRANSLATIONS = Some e → english_key e = e.
Proof.
  intros Hget. apply dict_get_Some_elem in Hget.
  pose proof COLUMN_TRANSLATIONS_values_fixed as H.
  rewrite Forall_forall in H. apply (H _ Hget).
Qed.

(** No three different keys are renamed to the same key. *)
Lemma english_key_no_triple (ka kb kc : string) :
  ka ≠ kb → ka ≠ kc → kb ≠ kc →
  english_key ka = english_key kb → english_key kb = english_key kc → False.
Proof.
  intros Hab Hac Hbc Eab Ebc.
  assert (∀ k e, dict_get k COLUMN_TRANSLATIONS = Some e → english_key k = e)
    as Hknown.
  { intros k e H. unfold english_key, dict_get_default. by rewrite H. }
  destruct (english_key_collision ka kb Hab Eab) as [Ha|Hb];
    destruct (english_key_collision kb kc Hbc Ebc) as [Hb'|Hc].
  - pose proof (Hknown _ _ Ha). pose proof (Hknown _ _ Hb'). congruence.
  - apply Hac. eapply NoDup_values_inj;
      eauto using COLUMN_TRANSLATIONS_values_NoDup, dict_get_Some_elem.
  - congruence.
  - pose proof (Hknown _ _ Hb). pose proof (Hknown _ _ Hc). congruence.
Qed.

(** A list holding two different elements with the same image has an
    image with a repetition. *)
Lemma NoDup_map_inj_on {A B : Type} (f : A → B) (l : list A) (x y : A) :
  NoDup (map f l) → x ∈ l → y ∈ l → f x = f y → x = y.
Proof.
  induction l as [|a l IH]; cbn [map]; intros Hnd Hx Hy Heq.
  - by apply elem_of_nil in Hx.
  - apply NoDup_cons in Hnd as [Ha Hnd].
    assert (∀ z, z ∈ l → f z ≠ f a) as Hfresh.
    { intros z Hz Hfz. apply Ha. rewrite <- Hfz.
      apply list_elem_of_In, in_map. by apply list_elem_of_In. }
    apply elem_of_cons in Hx as [->|Hx]; apply elem_of_cons in Hy as [->|Hy].
    + done.
    + destruct (Hfresh y Hy). done.
    + destruct (Hfresh x Hx). done.
    + by apply IH.
Qed.

(** C6, amended: [translate_record r] never has more entries than [r]; it
    has exactly as many if and only if the renamed keys of [r] are pairwise
    different, which is the case whenever [r] is a dictionary none of whose
    keys is the canonical English name of another of its keys.  The entry
    under a renamed key holds the translated value of the last entry of [r]
    renamed to it.  When [r] holds a Dutch key of the table and also its
    canonical English name, the translation is shorter than [r], holds the
    English name and not the Dutch key, and of two entries of a dictionary
    renamed to the same key the value of the later one is kept. *)
Theorem translate_record_cardinality (r : dict pyvalue) :
  (length (translate_record r) ≤ length r)%nat
  ∧ (length (translate_record r) = length r
     ↔ NoDup (map english_key (dict_keys r)))
  ∧ (dict_wf r →
     (∀ k e, k ∈ dict_keys r → dict_get k COLUMN_TRANSLATIONS = Some e →
             e ≠ k → e ∉ dict_keys r) →
     length (translate_record r) = length r)
  ∧ (∀ r1 k v r2, r = r1 ++ (k, v) :: r2 →
       (∀ k', k' ∈ dict_keys r2 → english_key k' ≠ english_key k) →
       dict_get (english_key k) (translate_record r)
       = Some (translate_dutch_value v))
  ∧ (∀ k e, dict_get k COLUMN_TRANSLATIONS = Some e → e ≠ k →
       k ∈ dict_keys r → e ∈ dict_keys r →
       (length (translate_record r) < length r)%nat
       ∧ e ∈ dict_keys (translate_record r)
       ∧ k ∉ dict_keys (translate_record r))
  ∧ (dict_wf r →
     ∀ r1 ka va rm kb vb r2,
       r = r1 ++ (ka, va) :: rm ++ (kb, vb) :: r2 →
       english_key ka = english_key kb →
       dict_get (english_key kb) (translate_record r)
       = Some (translate_dutch_value vb)).
Proof.
  pose proof (fold_add_column_length (map english_key (dict_keys r)) []
                NoDup_nil_2) as [Hle Hiff].
  rewrite <- translate_record_keys, dict_length_keys in Hle, Hiff.
  simpl in Hle, Hiff. rewrite length_map, dict_length_keys in Hle, Hiff.
  assert (∀ x, x ∈ dict_keys (translate_record r)
               ↔ ∃ k, k ∈ dict_keys r ∧ x = english_key k) as Hkeys.
  { intros x. rewrite translate_record_keys, fold_add_column_elem, elem_of_nil.
    split.
    - intros [[]|Hx]. apply list_elem_of_In, in_map_iff in Hx as (k & <- & Hk).
      exists k. split; [by apply list_elem_of_In|done].
    - intros (k & Hk & ->). right. apply list_elem_of_In, in_map.
      by apply list_elem_of_In. }
  assert (∀ k e, dict_get k COLUMN_TRANSLATIONS = Some e → english_key k = e)
    as Hknown.
  { intros k e H. unfold english_key, dict_get_default. by rewrite H. }
  split_and!; [done|done| | | |].
  - intros Hwf Hsep. apply Hiff. by apply english_key_NoDup.
  - intros r1 k v r2 -> Hlater. by apply translate_record_last_wins.
  - intros k e Hget Hne Hk He. split_and!.
    + assert (¬ NoDup (map english_key (dict_keys r))) as Hdup.
      { intros Hnd. apply Hne. symmetry.
        apply (NoDup_map_inj_on english_key (dict_keys r) k e Hnd Hk He).
        rewrite (Hknown _ _ Hget). symmetry. by apply (english_key_canonical k). }
      destruct (decide (length (translate_record r) = length r)) as [Heq|Hneq];
        [|lia].
      destruct Hdup. by apply Hiff.
    + apply Hkeys. exists k. split; [done|]. symmetry. by apply Hknown.
    + intros (x & Hx & Hkx)%Hkeys.
      unfold english_key, dict_get_default in Hkx.
      destruct (dict_get x COLUMN_TRANSLATIONS) as [e'|] eqn:Hgetx.
      * subst e'. apply Hne. rewrite <- (Hknown _ _ Hget).
        by apply (english_key_canonical x).
      * subst x. rewrite Hget in Hgetx. discriminate.
  - intros Hwf r1 ka va rm kb vb r2 -> Heq.
    replace (r1 ++ (ka, va) :: rm ++ (kb, vb) :: r2)
      with ((r1 ++ (ka, va) :: rm) ++ (kb, vb) :: r2)
      by (by rewrite <- app_assoc).
    apply translate_record_last_wins. intros k' Hk' Hcol.
    unfold dict_wf, dict_keys in Hwf. rewrite !map_app in Hwf.
    cbn [map fst] in Hwf. rewrite map_app in Hwf. cbn [map fst] in Hwf.
    apply NoDup_app in Hwf as (_ & _ & Hwf).
    apply NoDup_cons in Hwf as [Hka Hwf].
    apply NoDup_app in Hwf as (_ & _ & Hwf).
    apply NoDup_cons in Hwf as [Hkb _].
    apply (english_key_no_triple ka kb k'); [| | |done|done].
    + intros ->. apply Hka. apply elem_of_app. right. apply list_elem_of_here.
    + intros ->. apply Hka. apply elem_of_app. right.
      by apply list_elem_of_further.
    + by intros ->.
Qed.

Lemma translate_record_cardinality_witness :
  dict_wf plain_record
  ∧ length (translate_record plain_record) = length plain_record
  ∧ dict_get "license_plate" (translate_record colliding_record)
    = Some (PyStr "ZZ99ZZ")
  ∧ (length (translate_record colliding_record) < length colliding_record)%nat.
Proof.
  assert (dict_wf plain_record) as Hwf.
  { unfold dict_wf. apply (bool_decide_unpack _). vm_compute. exact I. }
  assert (dict_wf colliding_record) as Hwf'.
  { unfold dict_wf. apply (bool_decide_unpack _). vm_compute. exact I. }
  pose proof (translate_record_cardinality colliding_record)
    as (_ & _ & _ & _ & Hmerge & Hlater).
  split_and!.
  - exact Hwf.
  - apply (translate_record_cardinality plain_record); [exact Hwf|].
    intros k e Hk Hget Hne.
    apply list_elem_of_In in Hk. simpl in Hk.
    destruct Hk as [<-|[<-|[<-|[]]]]; vm_compute in Hget;
      try discriminate; injection Hget as <-;
      apply (bool_decide_unpack _); vm_compute; exact I.
  - apply (Hlater Hwf' [] "kenteken" (PyStr "AB12CD") [] "license_plate"
             (PyStr "ZZ99ZZ") []); reflexivity.
  - apply (Hmerge "kenteken" "license_plate");
      [reflexivity|discriminate| |];
      apply (bool_decide_unpack _); vm_compute; exact I.
Defined.

(** ** Value translation *)

Lemma isdigit_not_space (c : ascii) :
  PyStr.isdigit_char c = true → PyStr.isspace_char c = false.
Proof.
  destruct c as [[] [] [] [] [] [] [] []]; vm_compute; congruence.
Qed.

Lemma rstrip_no_space (s : string) :
  PyStr.all_chars (fun c => negb (PyStr.isspace_char c)) s = true →
  PyStr.rstrip s = s.
Proof.
  induction s as [|c s IH]; simpl; [done|].
  intros [Hc Hs]%andb_true_iff. rewrite (IH Hs).
  apply negb_true_iff in Hc. rewrite Hc. by destruct s.
Qed.

Lemma all_chars_impl (p q : ascii → bool) (s : string) :
  (∀ c, p c = true → q c = true) →
  PyStr.all_chars p s = true → PyStr.all_chars q s = true.
Proof.
  intros Hpq. induction s as [|c s IH]; simpl; [done|].
  intros [Hc Hs]%andb_true_iff. by rewrite (Hpq c Hc), (IH Hs).
Qed.

(** Trimming leaves a string of digits as it is. *)
Lemma strip_digits (s : string) : PyStr.isdigit s = true → PyStr.strip s = s.
Proof.
  unfold PyStr.isdigit, PyStr.strip. destruct s as [|c s]; [done|].
  intros Hd.
  assert (PyStr.all_chars (fun c => negb (PyStr.isspace_char c)) (String c s) = true)
    as Hns.
  { revert Hd. apply all_chars_impl. intros x Hx.
    by rewrite (isdigit_not_space x Hx). }
  assert (PyStr.lstrip (String c s) = String c s) as ->.
  { simpl in *. apply andb_true_iff in Hns as [Hc _].
    apply negb_true_iff in Hc. by rewrite Hc. }
  by apply rstrip_no_space.
Qed.

(** C4, as stated, fails: with a leading blank the stringified value has
    nine characters, so the rule as worded goes to the dictionary and gives
    the value back unchanged, while the code trims first and reformats. *)
Lemma translate_dutch_value_counterexample :
  translate_dutch_value (PyStr " 20200101") = PyStr "2020-01-01"
  ∧ translate_value_reference value_translations (PyStr " 20200101")
    = PyStr " 20200101"
  ∧ translate_dutch_value (PyStr " 20200101")
    ≠ translate_value_reference value_translations (PyStr " 20200101").
Proof. split_and!; [reflexivity|reflexivity|vm_compute; discriminate]. Qed.

(** C4, amended: [None] is returned unchanged; if the trimmed stringified
    value is exactly 8 characters, all digits, the result is the text
    [YYYY-MM-DD] cut at [0:4], [4:6], [6:8], whatever the dictionary holds
    (so also whenever the untrimmed stringified value is 8 digits);
    otherwise the trimmed text is looked up in the value table and, when
    absent, the original value is returned with its type.  The code agrees
    with the rule as worded on every value whose text has no surrounding
    blanks, and on the listed examples. *)
Theorem translate_dutch_value_rule (table : dict string) (v : pyvalue) :
  let s := PyStr.strip (py_str v) in
  translate_dutch_value_in table PyNone = PyNone
  ∧ (v ≠ PyNone → String.length s = 8%nat → PyStr.isdigit s = true →
     translate_dutch_value_in table v = PyStr (dashed s))
  ∧ (v ≠ PyNone → String.length (py_str v) = 8%nat →
     PyStr.isdigit (py_str v) = true →
     translate_dutch_value_in table v = PyStr (dashed (py_str v)))
  ∧ (v ≠ PyNone → ¬ (String.length s = 8%nat ∧ PyStr.isdigit s = true) →
     translate_dutch_value_in table v
     = match dict_get s table with Some english => PyStr english | None => v end)
  ∧ (s = py_str v →
     translate_dutch_value_in table v = translate_value_reference table v)
  ∧ translate_dutch_value = translate_dutch_value_in value_translations
  ∧ translate_dutch_value (PyStr "Ja") = PyStr "Yes"
  ∧ translate_dutch_value (PyStr "NEE") = PyStr "No"
  ∧ translate_dutch_value (PyStr "Onbekend") = PyStr "Unknown"
  ∧ translate_dutch_value (PyStr "Volvo") = PyStr "Volvo"
  ∧ translate_dutch_value (PyInt 1998) = PyInt 1998.
Proof.
  intros s.
  assert (∀ t, String.length t = 8%nat → PyStr.isdigit t = true →
               (PyStr.len t =? 8) && PyStr.isdigit t = true) as Hyes.
  { intros t Hlen Hd. unfold PyStr.len. rewrite Hlen, Hd. reflexivity. }
  assert (v ≠ PyNone → String.length s = 8%nat → PyStr.isdigit s = true →
          translate_dutch_value_in table v = PyStr (dashed s)) as Hdate.
  { intros Hv Hlen Hd. unfold translate_dutch_value_in. fold s.
    rewrite (Hyes s Hlen Hd). by destruct v. }
  split_and!; try reflexivity.
  - exact Hdate.
  - intros Hv Hlen Hd. subst s. rewrite (strip_digits _ Hd) in Hdate. auto.
  - intros Hv Hno. unfold translate_dutch_value_in. fold s.
    destruct ((PyStr.len s =? 8) && PyStr.isdigit s) eqn:E; [|by destruct v].
    exfalso. apply Hno. apply andb_true_iff in E as [Hlen Hd].
    split; [|done]. unfold PyStr.len in Hlen. lia.
  - intros Hs. unfold translate_dutch_value_in, translate_value_reference.
    fold s. rewrite Hs. by destruct v.
Qed.

Lemma translate_dutch_value_rule_witness :
  translate_dutch_value_in value_translations (PyStr "20200101") = PyStr "2020-01-01"
  ∧ translate_dutch_value_in value_translations (PyInt 20200101) = PyStr "2020-01-01"
  ∧ translate_dutch_value_in value_translations (PyStr " ja ") = PyStr "Yes"
  ∧ translate_dutch_value_in value_translations (PyStr "Volvo")
    = translate_value_reference value_translations (PyStr "Volvo").
Proof.
  pose proof (translate_dutch_value_rule value_translations (PyStr "20200101"))
    as (_ & Hdate & _).
  pose proof (translate_dutch_value_rule value_translations (PyInt 20200101))
    as (_ & _ & Hraw & _).
  pose proof (translate_dutch_value_rule value_translations (PyStr " ja "))
    as (_ & _ & _ & Hlookup & _).
  pose proof (translate_dutch_value_rule value_translations (PyStr "Volvo"))
    as (_ & _ & _ & _ & Hsame & _).
  split_and!.
  - apply Hdate; [discriminate|reflexivity|reflexivity].
  - apply Hraw; [discriminate|reflexivity|reflexivity].
  - apply Hlookup; [discriminate|]. intros [Hlen _]. vm_compute in Hlen. discriminate.
  - apply Hsame. reflexivity.
Defined.

(** ** Filter builder *)

Lemma endswith_unfold (suffix s : string) :
  PyStr.endswith suffix s
  = String.eqb s suffix
    || match s with
       | EmptyString => false
       | String _ s' => PyStr.endswith suffix s'
       end.
Proof. by destruct s. Qed.

Lemma endswith_app (a suffix : string) : PyStr.endswith suffix (a +:+ suffix) = true.
Proof.
  induction a as [|c a IH].
  - change ("" +:+ suffix) with suffix.
    by rewrite endswith_unfold, String.eqb_refl.
  - change (String c a +:+ suffix) with (String c (a +:+ suffix)).
    rewrite endswith_unfold. cbv iota. rewrite IH. apply orb_true_r.
Qed.

Lemma endswith_refl (s : string) : PyStr.endswith s s = true.
Proof. apply (endswith_app ""). Qed.

Ltac filter_cases :=
  unfold build_filters, date_conditions_of;
  repeat match goal with
         | |- context [given ?x] => destruct (given x)
         end.

Section FilterFacts.
Variable upper : string → string.
Variables category license_plate brand model : option string.

Local Abbreviation build := (build_filters upper category license_plate brand model).

Lemma build_filters_where_plain date_from date_to :
  dict_get "$where" (build date_from date_to false)
  = date_predicate date_from date_to.
Proof. unfold date_predicate. filter_cases; reflexivity. Qed.

Lemma build_filters_where_recent date_from date_to :
  dict_get "$where" (build date_from date_to true)
  = Some match date_predicate date_from date_to with
         | Some w => w +:+ " AND datum_tenaamstelling IS NOT NULL"
         | None => "datum_tenaamstelling IS NOT NULL"
         end.
Proof. unfold date_predicate. filter_cases; reflexivity. Qed.

Lemma build_filters_order date_from date_to order_by_recent :
  dict_get "$order" (build date_from date_to order_by_recent)
  = if order_by_recent then Some "datum_tenaamstelling DESC" else None.
Proof. destruct order_by_recent; filter_cases; reflexivity. Qed.

Lemma build_filters_other_keys date_from date_to k :
  k ≠ "$where" → k ≠ "$order" →
  dict_get k (build date_from date_to true)
  = dict_get k (build date_from date_to false).
Proof.
  intros Hw Ho. unfold build_filters.
  match goal with
  | |- context [match given date_from with _ => _ end] => idtac
  end.
  set (pre := match given date_from, given date_to with
              | None, None => _
              | _, _ => _
              end).
  rewrite dict_get_set_ne by by apply not_eq_sym.
  destruct (dict_get "$where" pre); by rewrite dict_get_set_ne by by apply not_eq_sym.
Qed.

End FilterFacts.

Lemma replace_go_step (old new : string) (c : ascii) (s : string) :
  PyStr.replace_go old new 0 (String c s)
  = if String.prefix old (String c s)
    then new +:+ PyStr.replace_go old new (String.length old - 1) s
    else String c (PyStr.replace_go old new 0 s).
Proof. reflexivity. Qed.

Lemma prefix_hyphen (c : ascii) (s : string) :
  String.prefix "-" (String c s) = if ascii_dec "-" c then true else false.
Proof.
  change (String.prefix "-" (String c s))
    with (if ascii_dec "-" c then String.prefix "" s else false).
  destruct (ascii_dec "-" c); [by destruct s|done].
Qed.

Lemma replace_hyphen_keep (c : ascii) (s : string) :
  c ≠ "-"%char →
  PyStr.replace_go "-" "" 0 (String c s) = String c (PyStr.replace_go "-" "" 0 s).
Proof.
  intros Hc. rewrite replace_go_step, prefix_hyphen.
  by destruct (ascii_dec "-" c) as [<-|_].
Qed.

Lemma replace_hyphen_drop (s : string) :
  PyStr.replace_go "-" "" 0 (String "-" s) = PyStr.replace_go "-" "" 0 s.
Proof.
  rewrite replace_go_step, prefix_hyphen.
  by destruct (ascii_dec "-" "-").
Qed.

Lemma isdigit_not_hyphen (c : ascii) : PyStr.isdigit_char c = true → c ≠ "-"%char.
Proof. intros H ->. vm_compute in H. discriminate. Qed.

(** Removing the hyphens of [YYYY-MM-DD] gives the compact [YYYYMMDD]. *)
Lemma compact_date (y1 y2 y3 y4 m1 m2 d1 d2 : ascii) :
  Forall (fun c => PyStr.isdigit_char c = true) [y1; y2; y3; y4; m1; m2; d1; d2] →
  PyStr.replace "-" ""
    (String y1 (String y2 (String y3 (String y4 (String "-"
      (String m1 (String m2 (String "-" (String d1 (String d2 ""))))))))))
  = String y1 (String y2 (String y3 (String y4
      (String m1 (String m2 (String d1 (String d2 ""))))))).
Proof.
  intros H. unfold PyStr.replace.
  repeat match goal with
         | H : Forall _ (_ :: _) |- _ =>
             apply Forall_cons in H as [?%isdigit_not_hyphen H]
         end.
  repeat first [rewrite replace_hyphen_drop | rewrite replace_hyphen_keep by done].
  reflexivity.
Qed.

(** C7: with [date_from = "2020-01-01"] and no [date_to], the [$where]
    value contains [datum_tenaamstelling >= '20200101'] and no [<=]; with
    both bounds the two comparisons, each on the date without its hyphens,
    are joined by [" AND "]; with neither bound the date logic leaves no
    [$where] key. *)
Theorem build_filters_date_range
  (upper : string → string) (category license_plate brand model : option string) :
  (∀ date_to order_by_recent, given date_to = None →
     ∃ w, dict_get "$where"
            (build_filters upper category license_plate brand model
                           (Some "2020-01-01") date_to order_by_recent) = Some w
          ∧ PyStr.contains "datum_tenaamstelling >= '20200101'" w = true
          ∧ PyStr.contains "<=" w = false)
  ∧ (∀ date_from date_to f t, given date_from = Some f → given date_to = Some t →
       dict_get "$where"
         (build_filters upper category license_plate brand model
                        date_from date_to false)
       = Some (("datum_tenaamstelling >= '" +:+ PyStr.replace "-" "" f +:+ "'")
               +:+ " AND "
               +:+ ("datum_tenaamstelling <= '" +:+ PyStr.replace "-" "" t +:+ "'")))
  ∧ (∀ date_from date_to, given date_from = None → given date_to = None →
       dict_get "$where"
         (build_filters upper category license_plate brand model
                        date_from date_to false) = None)
  ∧ PyStr.replace "-" "" "2020-01-01" = "20200101".
Proof.
  split_and!.
  - intros date_to [] Hto.
    + rewrite build_filters_where_recent.
      unfold date_predicate, date_conditions_of. rewrite Hto.
      eexists. split; [reflexivity|]. split; reflexivity.
    + rewrite build_filters_where_plain.
      unfold date_predicate, date_conditions_of. rewrite Hto.
      eexists. split; [reflexivity|]. split; reflexivity.
  - intros date_from date_to f t Hf Ht. rewrite build_filters_where_plain.
    unfold date_predicate, date_conditions_of. rewrite Hf, Ht. reflexivity.
  - intros date_from date_to Hf Ht. rewrite build_filters_where_plain.
    unfold date_predicate, date_conditions_of. rewrite Hf, Ht. reflexivity.
  - reflexivity.
Qed.

Lemma build_filters_date_range_witness :
  (∃ w, dict_get "$where"
          (build_filters ascii_upper (Some "Personenauto") None (Some "volvo") None
                         (Some "2020-01-01") None false) = Some w
        ∧ PyStr.contains "datum_tenaamstelling >= '20200101'" w = true
        ∧ PyStr.contains "<=" w = false)
  ∧ dict_get "$where"
      (build_filters ascii_upper (Some "Personenauto") None (Some "volvo") None
                     (Some "2020-01-01") (Some "2021-12-31") false)
    = Some "datum_tenaamstelling >= '20200101' AND datum_tenaamstelling <= '20211231'"
  ∧ dict_get "$where"
      (build_filters ascii_upper (Some "Personenauto") None (Some "volvo") None
                     None (Some "") false) = None.
Proof.
  pose proof (build_filters_date_range ascii_upper (Some "Personenauto") None
                (Some "volvo") None) as (Hfrom & Hboth & Hnone & _).
  split_and!.
  - apply Hfrom. reflexivity.
  - apply (Hboth (Some "2020-01-01") (Some "2021-12-31") "2020-01-01" "2021-12-31");
      reflexivity.
  - apply Hnone; reflexivity.
Defined.

(** C8: whatever the other arguments, asking for recency sets [$order] to
    [datum_tenaamstelling DESC] and makes [$where] end with
    [datum_tenaamstelling IS NOT NULL], appended with [" AND "] to the date
    predicate when there is one and standing alone otherwise; every other
    key is as without recency; without recency there is no [$order]. *)
Theorem build_filters_recency
  (upper : string → string)
  (category license_plate brand model date_from date_to : option string) :
  let recent :=
    build_filters upper category license_plate brand model date_from date_to true in
  let plain :=
    build_filters upper category license_plate brand model date_from date_to false in
  dict_get "$order" recent = Some "datum_tenaamstelling DESC"
  ∧ (∃ w, dict_get "$where" recent = Some w
          ∧ PyStr.endswith "datum_tenaamstelling IS NOT NULL" w = true
          ∧ w = match dict_get "$where" plain with
                | Some w0 => w0 +:+ " AND datum_tenaamstelling IS NOT NULL"
                | None => "datum_tenaamstelling IS NOT NULL"
                end)
  ∧ dict_get "$order" plain = None
  ∧ (∀ k, k ≠ "$where" → k ≠ "$order" → dict_get k recent = dict_get k plain).
Proof.
  intros recent plain. subst recent plain. split_and!.
  - by rewrite build_filters_order.
  - rewrite build_filters_where_recent, build_filters_where_plain.
    eexists. split; [reflexivity|]. split; [|reflexivity].
    destruct (date_predicate date_from date_to) as [w0|].
    + assert (w0 +:+ " AND datum_tenaamstelling IS NOT NULL"
              = (w0 +:+ " AND ") +:+ "datum_tenaamstelling IS NOT NULL") as ->.
      { clear. induction w0 as [|c w0 IH]; [done|].
        change (String c (w0 +:+ " AND datum_tenaamstelling IS NOT NULL")
                = String c ((w0 +:+ " AND ") +:+ "datum_tenaamstelling IS NOT NULL")).
        by rewrite IH. }
      apply endswith_app.
    + apply endswith_refl.
  - by rewrite build_filters_order.
  - intros k Hw Ho. by apply build_filters_other_keys.
Qed.

Lemma build_filters_recency_witness :
  dict_get "kenteken"
    (build_filters ascii_upper None (Some "ab-12 cd") None None
                   (Some "2020-01-01") None true)
  = dict_get "kenteken"
      (build_filters ascii_upper None (Some "ab-12 cd") None None
                     (Some "2020-01-01") None false).
Proof.
  pose proof (build_filters_recency ascii_upper None (Some "ab-12 cd") None None
                (Some "2020-01-01") None) as H.
  cbv zeta in H. destruct H as (_ & _ & _ & Hother).
  apply Hother; discriminate.
Defined.

(** ** Paginated fetcher *)

Lemma list_len_from {A : Type} (xs : list A) (a : Z) :
  fold_left (fun n _ => n + 1) xs a = a + Z.of_nat (length xs).
Proof.
  revert a. induction xs as [|x xs IH]; intros a; simpl; [lia|].
  rewrite IH. lia.
Qed.

Lemma list_len_length {A : Type} (xs : list A) :
  list_len xs = Z.of_nat (length xs).
Proof. unfold list_len. by rewrite list_len_from. Qed.

Lemma list_len_cons {A : Type} (x : A) (xs : list A) :
  list_len (x :: xs) = list_len xs + 1.
Proof. rewrite !list_len_length. simpl. lia. Qed.

Lemma list_len_nonneg {A : Type} (xs : list A) : 0 ≤ list_len xs.
Proof. rewrite list_len_length. lia. Qed.

Lemma yielded_of_app (t1 t2 : list event) :
  yielded_of (t1 ++ t2) = yielded_of t1 ++ yielded_of t2.
Proof. apply omap_app. Qed.

Lemma requests_of_app (t1 t2 : list event) :
  requests_of (t1 ++ t2) = requests_of t1 ++ requests_of t2.
Proof. apply omap_app. Qed.

Lemma yielded_of_yields (rows : list row) : yielded_of (map EvYield rows) = rows.
Proof.
  induction rows as [|r rows IH]; [done|].
  change (r :: yielded_of (map EvYield rows) = r :: rows). by rewrite IH.
Qed.

Lemma requests_of_yields (rows : list row) : requests_of (map EvYield rows) = [].
Proof.
  induction rows as [|r rows IH]; [done|].
  change (requests_of (map EvYield rows) = []). by rewrite IH.
Qed.

(** Without a limit the [for] loop yields the whole page. *)
Lemma yield_rows_unlimited (rows : list row) (fetched : Z) :
  yield_rows None rows fetched = (rows, fetched + list_len rows, false).
Proof.
  revert fetched. induction rows as [|r rows IH]; intros fetched; simpl.
  - f_equal. f_equal. unfold list_len. simpl. lia.
  - rewrite IH, list_len_cons. do 2 f_equal. lia.
Qed.

(** What the [for] loop does in general: it yields a prefix of the page and
    counts it; it leaves through [return] exactly when the limit is reached
    on a row, and then nothing of the page follows that row. *)
Lemma yield_rows_spec (limit : option Z) (rows : list row) (fetched : Z) :
  ∀ ys fetched' returned,
    yield_rows limit rows fetched = (ys, fetched', returned) →
    ys `prefix_of` rows
    ∧ fetched' = fetched + list_len ys
    ∧ (returned = false → ys = rows ∧ (rows ≠ [] → limit_reached limit fetched' = false))
    ∧ (returned = true →
       limit_reached limit fetched' = true ∧ ∃ ys' r, ys = ys' ++ [r]).
Proof.
  revert fetched. induction rows as [|r rows IH]; intros fetched ys f' ret; simpl.
  - intros ?; simplify_eq. split_and!; [done|unfold list_len; simpl; lia|done|done].
  - destruct (limit_reached limit (fetched + 1)) eqn:Hl.
    + intros ?; simplify_eq.
      split_and!; [by apply prefix_cons, prefix_nil|by rewrite list_len_cons|done|].
      intros _. split; [done|]. by exists [], r.
    + destruct (yield_rows limit rows (fetched + 1)) as [[ys0 f0] ret0] eqn:E.
      intros Heq.
      assert (ys = r :: ys0 ∧ f' = f0 ∧ ret = ret0) as (-> & -> & ->)
        by (by inversion Heq).
      clear Heq.
      destruct (IH _ _ _ _ E) as (Hpre & Hf & Hno & Hyes).
      split_and!.
      * by apply prefix_cons.
      * rewrite list_len_cons. lia.
      * intros Hret. destruct (Hno Hret) as [-> Hlim]. split; [done|].
        intros _. destruct rows as [|r' rows']; [|by apply Hlim].
        simpl in E. assert (f0 = fetched + 1) as -> by congruence. done.
      * intros Hret. destruct (Hyes Hret) as (Hlim & ys' & r' & ->).
        split; [done|]. by exists (r :: ys'), r'.
Qed.

Lemma yielded_of_paged_trace (mk : Z → request) (page_size offset : Z)
  (pages : list (list row)) :
  yielded_of (paged_trace mk page_size offset pages) = concat pages.
Proof.
  revert offset. induction pages as [|p pages IH]; intros offset; [done|].
  change (paged_trace mk page_size offset (p :: pages))
    with ([EvRequest (mk offset)] ++ map EvYield p
          ++ paged_trace mk page_size (offset + page_size) pages).
  rewrite !yielded_of_app, yielded_of_yields, IH. done.
Qed.

Lemma requests_of_paged_trace (mk : Z → request) (page_size offset : Z)
  (pages : list (list row)) :
  requests_of (paged_trace mk page_size offset pages)
  = map mk (offsets_from page_size offset (length pages)).
Proof.
  revert offset. induction pages as [|p pages IH]; intros offset; [done|].
  change (paged_trace mk page_size offset (p :: pages))
    with ([EvRequest (mk offset)] ++ map EvYield p
          ++ paged_trace mk page_size (offset + page_size) pages).
  rewrite !requests_of_app, requests_of_yields, IH. done.
Qed.

Lemma offsets_from_length (page_size offset : Z) (n : nat) :
  length (offsets_from page_size offset n) = n.
Proof. revert offset. induction n as [|n IH]; intros offset; simpl; [done|]. by rewrite IH. Qed.

(** With a limit not yet reached, the [for] loop stops exactly on it. *)
Lemma yield_rows_limit (l : Z) (rows : list row) (fetched : Z) :
  fetched < l →
  ∀ ys fetched' returned,
    yield_rows (Some l) rows fetched = (ys, fetched', returned) →
    ys `prefix_of` rows
    ∧ fetched' = fetched + list_len ys
    ∧ (returned = true → fetched' = l ∧ ∃ ys' r, ys = ys' ++ [r])
    ∧ (returned = false → fetched' < l ∧ ys = rows).
Proof.
  revert fetched. induction rows as [|r rows IH]; intros fetched Hlt ys f' ret; simpl.
  - intros Heq.
    assert (ys = [] ∧ f' = fetched ∧ ret = false) as (-> & -> & ->)
      by (by inversion Heq).
    split_and!; [done|unfold list_len; simpl; lia|done|done].
  - destruct (l <=? fetched + 1) eqn:Hl.
    + intros Heq.
      assert (ys = [r] ∧ f' = fetched + 1 ∧ ret = true) as (-> & -> & ->)
        by (by inversion Heq).
      apply Z.leb_le in Hl.
      split_and!; [by apply prefix_cons, prefix_nil|by rewrite list_len_cons| |done].
      intros _. split; [lia|]. by exists [], r.
    + apply Z.leb_gt in Hl.
      destruct (yield_rows (Some l) rows (fetched + 1)) as [[ys0 f0] ret0] eqn:E.
      intros Heq.
      assert (ys = r :: ys0 ∧ f' = f0 ∧ ret = ret0) as (-> & -> & ->)
        by (by inversion Heq).
      destruct (IH (fetched + 1) Hl _ _ _ E) as (Hpre & Hf & Hyes & Hno).
      split_and!.
      * by apply prefix_cons.
      * rewrite list_len_cons. lia.
      * intros Hret. destruct (Hyes Hret) as (Hlim & ys' & r' & ->).
        split; [done|]. by exists (r :: ys'), r'.
      * intros Hret. destruct (Hno Hret) as [? ->]. done.
Qed.

Section FetcherFacts.
Context {S : Type}.
Variable respond : S → request → response * S.
Variable limit : option Z.
Variable page_size : Z.
Variable filters : dict string.
Variable app_token : option string.
Variable timeout : pyvalue.

Local Abbreviation request_at :=
  (fetch_request page_size filters app_token timeout).
Local Abbreviation loop :=
  (fetch_loop respond limit page_size filters app_token timeout).

(** One turn of the loop on a successful, non-empty reply. *)
Lemma fetch_loop_reply fuel st fetched offset status rows st1 :
  respond st (request_at offset) = (Replied status rows, st1) →
  (400 <=? status) && (status <? 600) = false →
  rows ≠ [] →
  loop (Datatypes.S fuel) st fetched offset
  = let '(ys, fetched', returned) := yield_rows limit rows fetched in
    let here := EvRequest (request_at offset) :: map EvYield ys in
    if returned then (here, Finished, st1)
    else if limit_reached limit fetched' then (here, Finished, st1)
    else if list_len rows <? page_size then (here, Finished, st1)
    else
      let '(later, e, st2) := loop fuel st1 fetched' (offset + page_size) in
      (here ++ later, e, st2).
Proof.
  intros Hr Hs Hrows. simpl. rewrite Hr, Hs. by destruct rows.
Qed.

(** A run that has seen its end is not changed by a larger budget. *)
Lemma fetch_loop_fuel_mono fuel fuel' st fetched offset trace e st' :
  loop fuel st fetched offset = (trace, e, st') →
  e ≠ OutOfFuel → (fuel ≤ fuel')%nat →
  loop fuel' st fetched offset = (trace, e, st').
Proof.
  revert fuel' st fetched offset trace e st'.
  induction fuel as [|fuel IH]; intros fuel' st fetched offset trace e st'.
  - simpl. intros Heq. by inversion Heq.
  - intros Heq He Hle. destruct fuel' as [|fuel']; [lia|].
    simpl in Heq |- *.
    destruct (respond st (request_at offset)) as [[|status rows] st1]; [done|].
    destruct ((400 <=? status) && (status <? 600)); [done|].
    destruct rows as [|r rows]; [done|].
    destruct (yield_rows limit (r :: rows) fetched) as [[ys f1] ret].
    destruct ret; [done|].
    destruct (limit_reached limit f1); [done|].
    destruct (list_len (r :: rows) <? page_size); [done|].
    destruct (loop fuel st1 f1 (offset + page_size)) as [[later e1] st2] eqn:E.
    assert (e1 = e) as -> by (by inversion Heq).
    rewrite (IH fuel' _ _ _ _ _ _ E He); [done|lia].
Qed.

End FetcherFacts.

(** ** Runs against a scripted endpoint *)
Section ScriptedRuns.
Variable page_size : Z.
Variable filters : dict string.
Variable app_token : option string.
Variable timeout : pyvalue.

Local Abbreviation request_at :=
  (fetch_request page_size filters app_token timeout).

Lemma scripted_reply (p : list row) (rest : list (list row)) (offset : Z) :
  scripted (p :: rest) (request_at offset) = (Replied 200 p, rest).
Proof. reflexivity. Qed.

Lemma full_page_nonempty (p : list row) :
  0 < page_size → page_size ≤ list_len p → p ≠ [].
Proof. intros Hps Hp ->. unfold list_len in Hp. simpl in Hp. lia. Qed.

(** Without a limit: full pages are yielded whole one after the other,
    the short page ends the run, and what follows it in the script is
    never asked for. *)
Lemma fetch_scripted_unlimited (fulls : list (list row)) (short : list row)
  (rest : list (list row)) :
  Forall (fun p => page_size ≤ list_len p) fulls →
  list_len short < page_size →
  ∀ fuel fetched offset, (length fulls < fuel)%nat →
    fetch_loop scripted None page_size filters app_token timeout fuel
               (fulls ++ short :: rest) fetched offset
    = (paged_trace request_at page_size offset (fulls ++ [short]), Finished, rest).
Proof.
  intros Hfull Hshort.
  assert (0 < page_size) as Hps by (pose proof (list_len_nonneg short); lia).
  induction Hfull as [|p fulls Hp Hfull IH]; intros fuel fetched offset Hfuel;
    (destruct fuel as [|fuel]; [simpl in Hfuel; lia|]).
  - destruct short as [|r short]; [done|].
    change ([] ++ (r :: short) :: rest) with ((r :: short) :: rest).
    rewrite (fetch_loop_reply _ _ _ _ _ _ _ _ _ _ 200 (r :: short) rest);
      [|done..].
    rewrite yield_rows_unlimited. simpl limit_reached. cbv iota.
    apply Z.ltb_lt in Hshort. rewrite Hshort.
    simpl. by rewrite app_nil_r.
  - change ((p :: fulls) ++ short :: rest) with (p :: (fulls ++ short :: rest)).
    rewrite (fetch_loop_reply _ _ _ _ _ _ _ _ _ _ 200 p (fulls ++ short :: rest));
      [|done|done|by apply full_page_nonempty].
    rewrite yield_rows_unlimited. simpl limit_reached. cbv iota.
    rewrite (proj2 (Z.ltb_ge _ _) Hp).
    rewrite IH by (simpl in Hfuel; lia). reflexivity.
Qed.

(** With any limit: the run ends, it yields a prefix of the scripted
    rows, and it never asks for more than the pages up to the short one. *)
Lemma fetch_scripted_bounded (limit : option Z) (fulls : list (list row))
  (short : list row) (rest : list (list row)) :
  Forall (fun p => page_size ≤ list_len p) fulls →
  list_len short < page_size →
  ∀ fuel fetched offset, (length fulls < fuel)%nat →
    let run :=
      fetch_loop scripted limit page_size filters app_token timeout fuel
                 (fulls ++ short :: rest) fetched offset in
    run_ending run = Finished
    ∧ yielded_of (run_trace run) `prefix_of` concat (fulls ++ [short])
    ∧ (length (requests_of (run_trace run)) ≤ length fulls + 1)%nat
    ∧ run_state run
      = drop (length (requests_of (run_trace run))) (fulls ++ short :: rest).
Proof.
  intros Hfull Hshort.
  assert (0 < page_size) as Hps by (pose proof (list_len_nonneg short); lia).
  induction Hfull as [|p fulls Hp Hfull IH]; intros fuel fetched offset Hfuel;
    (destruct fuel as [|fuel]; [simpl in Hfuel; lia|]).
  - destruct short as [|r short].
    { simpl. split_and!; [done|apply prefix_nil|lia|done]. }
    change ([] ++ (r :: short) :: rest) with ((r :: short) :: rest).
    rewrite (fetch_loop_reply _ _ _ _ _ _ _ _ _ _ 200 (r :: short) rest);
      [|done..].
    destruct (yield_rows limit (r :: short) fetched) as [[ys f1] ret] eqn:E.
    destruct (yield_rows_spec _ _ _ _ _ _ E) as (Hpre & _).
    apply Z.ltb_lt in Hshort. rewrite Hshort.
    assert (yielded_of (EvRequest (request_at offset) :: map EvYield ys) = ys)
      as Hys by apply yielded_of_yields.
    assert (requests_of (EvRequest (request_at offset) :: map EvYield ys)
            = [request_at offset]) as Hrq.
    { change (request_at offset :: requests_of (map EvYield ys) = [request_at offset]).
      by rewrite requests_of_yields. }
    assert (ys `prefix_of` concat ([] ++ [r :: short])) as Hpre'.
    { simpl. by rewrite app_nil_r. }
    destruct ret; [|destruct (limit_reached limit f1)];
      unfold run_ending, run_trace, run_state; cbn [fst snd];
      rewrite Hys, Hrq; (split_and!; [done|done|simpl; lia|done]).
  - change ((p :: fulls) ++ short :: rest) with (p :: (fulls ++ short :: rest)).
    rewrite (fetch_loop_reply _ _ _ _ _ _ _ _ _ _ 200 p (fulls ++ short :: rest));
      [|done|done|by apply full_page_nonempty].
    destruct (yield_rows limit p fetched) as [[ys f1] ret] eqn:E.
    destruct (yield_rows_spec _ _ _ _ _ _ E) as (Hpre & _ & Hno & _).
    assert (yielded_of (EvRequest (request_at offset) :: map EvYield ys) = ys)
      as Hys by apply yielded_of_yields.
    assert (requests_of (EvRequest (request_at offset) :: map EvYield ys)
            = [request_at offset]) as Hrq.
    { change (request_at offset :: requests_of (map EvYield ys) = [request_at offset]).
      by rewrite requests_of_yields. }
    assert (ys `prefix_of` concat ((p :: fulls) ++ [short])) as Hpre'.
    { simpl. by apply prefix_app_r. }
    destruct ret; [|destruct (limit_reached limit f1)];
      [unfold run_ending, run_trace, run_state; cbn [fst snd];
       rewrite Hys, Hrq; (split_and!; [done|done|simpl; lia|done])..|].
    destruct (Hno eq_refl) as [-> _].
    rewrite (proj2 (Z.ltb_ge _ _) Hp).
    specialize (IH fuel f1 (offset + page_size) ltac:(simpl in Hfuel; lia)).
    destruct (fetch_loop scripted limit page_size filters app_token timeout fuel
                (fulls ++ short :: rest) f1 (offset + page_size))
      as [[later e] st2].
    unfold run_ending, run_trace, run_state in *. cbn [fst snd] in *.
    destruct IH as (He & Hyl & Hrl & Hst).
    rewrite yielded_of_app, requests_of_app, Hys, Hrq.
    split_and!; [done| |simpl; lia|done].
    simpl. by apply prefix_app.
Qed.

End ScriptedRuns.

(** C1: against pages [fulls ++ short :: rest], where every page of
    [fulls] has at least [page_size] rows and [short] has fewer, the fetcher without
    a limit yields the rows of [fulls] and [short] in the order received,
    sends one request per page of [fulls] and one for [short], at offsets
    0, [page_size], ..., and never asks for [rest]; with any limit it still
    ends without a request beyond the short page.  For [page_size = 2] and
    pages of sizes 2, 2, 1 this is 5 records and 3 requests. *)
Theorem fetch_stops_after_short_page
  (limit : option Z) (page_size : Z) (filters : dict string)
  (app_token : option string) (timeout : pyvalue)
  (fulls : list (list row)) (short : list row) (rest : list (list row))
  (fuel : nat) :
  Forall (fun p => page_size ≤ list_len p) fulls →
  list_len short < page_size →
  (length fulls < fuel)%nat →
  let pages := fulls ++ short :: rest in
  let unlimited :=
    fetch_rdw_data scripted None page_size filters app_token timeout fuel pages in
  let limited :=
    fetch_rdw_data scripted limit page_size filters app_token timeout fuel pages in
  (run_ending unlimited = Finished
   ∧ yielded_of (run_trace unlimited) = concat fulls ++ short
   ∧ requests_of (run_trace unlimited)
     = map (fetch_request page_size filters app_token timeout)
           (offsets_from page_size 0 (length fulls + 1))
   ∧ length (requests_of (run_trace unlimited)) = (length fulls + 1)%nat
   ∧ run_state unlimited = rest)
  ∧ (run_ending limited = Finished
     ∧ yielded_of (run_trace limited) `prefix_of` concat fulls ++ short
     ∧ (length (requests_of (run_trace limited)) ≤ length fulls + 1)%nat)
  ∧ (let run :=
       fetch_rdw_data scripted None 2 filters app_token timeout 4 pages_2_2_1 in
     yielded_of (run_trace run)
     = [plate_row "R1"; plate_row "R2"; plate_row "R3"; plate_row "R4"; plate_row "R5"]
     ∧ length (requests_of (run_trace run)) = 3%nat
     ∧ run_ending run = Finished
     ∧ run_state run = [[plate_row "R6"]]).
Proof.
  intros Hfull Hshort Hfuel pages unlimited limited.
  split_and!.
  - subst unlimited pages. unfold fetch_rdw_data.
    by rewrite (fetch_scripted_unlimited _ _ _ _ _ _ _ Hfull Hshort).
  - subst unlimited pages. unfold fetch_rdw_data.
    rewrite (fetch_scripted_unlimited _ _ _ _ _ _ _ Hfull Hshort) by done.
    unfold run_trace. cbn [fst]. rewrite yielded_of_paged_trace.
    by rewrite concat_app; simpl; rewrite app_nil_r.
  - subst unlimited pages. unfold fetch_rdw_data.
    rewrite (fetch_scripted_unlimited _ _ _ _ _ _ _ Hfull Hshort) by done.
    unfold run_trace. cbn [fst]. rewrite requests_of_paged_trace.
    by rewrite length_app.
  - subst unlimited pages. unfold fetch_rdw_data.
    rewrite (fetch_scripted_unlimited _ _ _ _ _ _ _ Hfull Hshort) by done.
    unfold run_trace. cbn [fst]. rewrite requests_of_paged_trace.
    by rewrite length_map, offsets_from_length, length_app.
  - subst unlimited pages. unfold fetch_rdw_data.
    by rewrite (fetch_scripted_unlimited _ _ _ _ _ _ _ Hfull Hshort).
  - apply (fetch_scripted_bounded page_size filters app_token timeout limit
             fulls short rest Hfull Hshort fuel 0 0 Hfuel).
  - pose proof (fetch_scripted_bounded page_size filters app_token timeout limit
                  fulls short rest Hfull Hshort fuel 0 0 Hfuel) as (_ & H & _).
    revert H. by rewrite concat_app; simpl; rewrite app_nil_r.
  - apply (fetch_scripted_bounded page_size filters app_token timeout limit
             fulls short rest Hfull Hshort fuel 0 0 Hfuel).
  - cbv zeta. split_and!; reflexivity.
Qed.

Lemma fetch_stops_after_short_page_witness :
  let run :=
    fetch_rdw_data scripted None 2 [("merk", "VOLVO")] (Some "token")
                   (PyFloat "30.0") 3 pages_2_2_1 in
  yielded_of (run_trace run)
  = [plate_row "R1"; plate_row "R2"; plate_row "R3"; plate_row "R4"; plate_row "R5"]
  ∧ length (requests_of (run_trace run)) = 3%nat
  ∧ run_state run = [[plate_row "R6"]].
Proof.
  pose proof (fetch_stops_after_short_page None 2 [("merk", "VOLVO")] (Some "token")
                (PyFloat "30.0")
                [[plate_row "R1"; plate_row "R2"]; [plate_row "R3"; plate_row "R4"]]
                [plate_row "R5"] [[plate_row "R6"]] 3) as H.
  cbv zeta in H.
  destruct H as ((_ & Hy & _ & Hn & Hst) & _).
  - repeat (constructor; [vm_compute; discriminate|]). constructor.
  - reflexivity.
  - simpl. lia.
  - cbv zeta. split_and!; [exact Hy|exact Hn|exact Hst].
Defined.

(** ** Runs with a limit *)
Section LimitedRuns.
Context {S : Type}.
Variable respond : S → request → response * S.
Variable l : Z.
Variable page_size : Z.
Variable filters : dict string.
Variable app_token : option string.
Variable timeout : pyvalue.

Local Abbreviation request_at :=
  (fetch_request page_size filters app_token timeout).
Local Abbreviation loop :=
  (fetch_loop respond (Some l) page_size filters app_token timeout).

(** Whatever the endpoint answers, the counter never passes the limit,
    and the record that reaches it is the last thing that happens. *)
Lemma fetch_loop_limit fuel st fetched offset :
  fetched < l →
  let run := loop fuel st fetched offset in
  fetched + list_len (yielded_of (run_trace run)) ≤ l
  ∧ (fetched + list_len (yielded_of (run_trace run)) = l →
     run_ending run = Finished
     ∧ ∃ before r, run_trace run = before ++ [EvYield r]).
Proof.
  revert st fetched offset.
  induction fuel as [|fuel IH]; intros st fetched offset Hlt.
  { simpl. unfold list_len. simpl. lia. }
  destruct (respond st (request_at offset)) as [[|status rows] st1] eqn:Hr.
  { simpl. rewrite Hr. simpl. unfold list_len. simpl. lia. }
  destruct ((400 <=? status) && (status <? 600)) eqn:Hs.
  { simpl. rewrite Hr, Hs. simpl. unfold list_len. simpl. lia. }
  destruct rows as [|r rows].
  { simpl. rewrite Hr, Hs. simpl. unfold list_len. simpl. lia. }
  rewrite (fetch_loop_reply respond (Some l) page_size filters app_token timeout
             fuel st fetched offset status (r :: rows) st1 Hr Hs); [|done].
  destruct (yield_rows (Some l) (r :: rows) fetched) as [[ys f1] ret] eqn:E.
  destruct (yield_rows_limit l _ _ Hlt _ _ _ E) as (Hpre & Hf & Hyes & Hno).
  assert (yielded_of (EvRequest (request_at offset) :: map EvYield ys) = ys)
    as Hys by apply yielded_of_yields.
  destruct ret.
  { destruct (Hyes eq_refl) as (-> & ys' & r' & ->).
    unfold run_ending, run_trace. cbn [fst snd]. rewrite Hys.
    split; [lia|]. intros _. split; [done|].
    exists (EvRequest (request_at offset) :: map EvYield ys'), r'.
    by rewrite map_app. }
  destruct (Hno eq_refl) as (Hlt1 & ->).
  assert (limit_reached (Some l) f1 = false) as -> by (apply Z.leb_gt; lia).
  destruct (list_len (r :: rows) <? page_size).
  { unfold run_ending, run_trace. cbn [fst snd]. rewrite Hys. lia. }
  specialize (IH st1 f1 (offset + page_size) Hlt1).
  destruct (loop fuel st1 f1 (offset + page_size)) as [[later e] st2].
  unfold run_ending, run_trace in *. cbn [fst snd] in *.
  rewrite yielded_of_app, Hys.
  assert (list_len ((r :: rows) ++ yielded_of later)
          = list_len (r :: rows) + list_len (yielded_of later)) as ->.
  { rewrite !list_len_length, length_app. lia. }
  destruct IH as [Hle Hend]. split; [lia|].
  intros Heq. destruct Hend as (He & before & r' & ->); [lia|].
  split; [done|].
  exists ((EvRequest (request_at offset) :: map EvYield (r :: rows)) ++ before), r'.
  by rewrite <- app_assoc.
Qed.

End LimitedRuns.

(** Against full pages and a limit they can satisfy, the run yields the
    first [l] scripted rows and sends as many requests as pages are needed
    to hold them. *)
Lemma fetch_scripted_limit (page_size : Z) (filters : dict string)
  (app_token : option string) (timeout : pyvalue) (l : Z)
  (pages : list (list row)) :
  0 < page_size →
  Forall (fun p => list_len p = page_size) pages →
  ∀ fuel fetched offset,
    fetched < l →
    l - fetched ≤ page_size * Z.of_nat (length pages) →
    (length pages ≤ fuel)%nat →
    let run :=
      fetch_loop scripted (Some l) page_size filters app_token timeout fuel
                 pages fetched offset in
    let n := Z.of_nat (length (requests_of (run_trace run))) in
    run_ending run = Finished
    ∧ yielded_of (run_trace run) = take (Z.to_nat (l - fetched)) (concat pages)
    ∧ (n - 1) * page_size < l - fetched ≤ n * page_size.
Proof.
  intros Hps Hfull.
  induction Hfull as [|p pages Hp Hfull IH]; intros fuel fetched offset Hlt Hroom Hfuel.
  { simpl in Hroom. lia. }
  destruct fuel as [|fuel]; [simpl in Hfuel; lia|].
  rewrite (fetch_loop_reply scripted (Some l) page_size filters app_token timeout
             fuel (p :: pages) fetched offset 200 p pages);
    [|done|done|apply (full_page_nonempty page_size); lia].
  destruct (yield_rows (Some l) p fetched) as [[ys f1] ret] eqn:E.
  destruct (yield_rows_limit l _ _ Hlt _ _ _ E) as (Hpre & Hf & Hyes & Hno).
  assert (yielded_of
            (EvRequest (fetch_request page_size filters app_token timeout offset)
               :: map EvYield ys) = ys) as Hys by apply yielded_of_yields.
  assert (requests_of
            (EvRequest (fetch_request page_size filters app_token timeout offset)
               :: map EvYield ys)
          = [fetch_request page_size filters app_token timeout offset]) as Hrq.
  { change (fetch_request page_size filters app_token timeout offset
              :: requests_of (map EvYield ys)
            = [fetch_request page_size filters app_token timeout offset]).
    by rewrite requests_of_yields. }
  pose proof (prefix_length _ _ Hpre) as Hlen.
  rewrite list_len_length in Hp, Hf.
  destruct ret.
  - destruct (Hyes eq_refl) as (Hl & _).
    unfold run_ending, run_trace. cbn [fst snd]. rewrite Hys, Hrq.
    split_and!; [done| |simpl; lia|simpl; lia].
    destruct Hpre as [k ->]. simpl. rewrite <- app_assoc.
    symmetry. apply take_app_length'. lia.
  - destruct (Hno eq_refl) as (Hlt1 & ->).
    assert (limit_reached (Some l) f1 = false) as -> by (apply Z.leb_gt; lia).
    rewrite list_len_length, Hp, Z.ltb_irrefl.
    assert (l - f1 ≤ page_size * Z.of_nat (length pages)) as Hroom1.
    { simpl length in Hroom. lia. }
    specialize (IH fuel f1 (offset + page_size) Hlt1 Hroom1
                  ltac:(simpl in Hfuel; lia)).
    destruct (fetch_loop scripted (Some l) page_size filters app_token timeout fuel
                pages f1 (offset + page_size)) as [[later e] st2].
    unfold run_ending, run_trace in *. cbn [fst snd] in *.
    cbv zeta in IH. destruct IH as (He & Hyl & Hn).
    rewrite yielded_of_app, requests_of_app, Hys, Hrq, Hyl.
    split_and!; [done| |simpl length; lia|simpl length; lia].
    simpl concat.
    replace (Z.to_nat (l - fetched)) with (length p + Z.to_nat (l - f1))%nat by lia.
    symmetry. by apply take_app_add'.
Qed.

(** C2: with a positive limit the fetcher never yields more than [limit]
    records, whatever the endpoint answers, and the record that reaches the
    limit ends the run on the spot, in the middle of a page or not; against
    full pages it yields exactly the first [limit] rows with as many
    requests as pages hold them.  For [limit = 3] and pages of size 2 this
    is 3 records and 2 requests. *)
Theorem fetch_stops_at_limit {S : Type} (respond : S → request → response * S)
  (l page_size : Z) (filters : dict string) (app_token : option string)
  (timeout : pyvalue) (fuel : nat) (st : S) (pages : list (list row)) :
  0 < l →
  let run :=
    fetch_rdw_data respond (Some l) page_size filters app_token timeout fuel st in
  let scripted_run :=
    fetch_rdw_data scripted (Some l) page_size filters app_token timeout fuel pages in
  (list_len (yielded_of (run_trace run)) ≤ l
   ∧ (list_len (yielded_of (run_trace run)) = l →
      run_ending run = Finished
      ∧ ∃ before r, run_trace run = before ++ [EvYield r]))
  ∧ (0 < page_size → Forall (fun p => list_len p = page_size) pages →
     l ≤ page_size * Z.of_nat (length pages) → (length pages ≤ fuel)%nat →
     run_ending scripted_run = Finished
     ∧ yielded_of (run_trace scripted_run) = take (Z.to_nat l) (concat pages)
     ∧ list_len (yielded_of (run_trace scripted_run)) = l
     ∧ (Z.of_nat (length (requests_of (run_trace scripted_run))) - 1) * page_size < l
     ∧ l ≤ Z.of_nat (length (requests_of (run_trace scripted_run))) * page_size)
  ∧ (let example :=
       fetch_rdw_data scripted (Some 3) 2 filters app_token timeout 3 pages_2_2_2 in
     yielded_of (run_trace example) = [plate_row "R1"; plate_row "R2"; plate_row "R3"]
     ∧ length (requests_of (run_trace example)) = 2%nat
     ∧ run_ending example = Finished
     ∧ run_state example = [[plate_row "R5"; plate_row "R6"]]).
Proof.
  intros Hl run scripted_run. split_and!.
  - pose proof (fetch_loop_limit respond l page_size filters app_token timeout
                  fuel st 0 0 Hl) as [H _].
    subst run. unfold fetch_rdw_data. lia.
  - pose proof (fetch_loop_limit respond l page_size filters app_token timeout
                  fuel st 0 0 Hl) as [_ H].
    subst run. unfold fetch_rdw_data. intros Heq. apply H. lia.
  - intros Hps Hfull Hroom Hfuel.
    pose proof (fetch_scripted_limit page_size filters app_token timeout l pages
                  Hps Hfull fuel 0 0 Hl ltac:(lia) Hfuel) as H.
    cbv zeta in H. subst scripted_run. unfold fetch_rdw_data.
    rewrite Z.sub_0_r in H. destruct H as (He & Hy & Hn1 & Hn2).
    split_and!; [done|done| |done|done].
    rewrite Hy, list_len_length, length_take.
    assert (Z.of_nat (length (concat pages)) = page_size * Z.of_nat (length pages)).
    { clear -Hfull. induction Hfull as [|p pages Hp _ IH]; simpl; [lia|].
      rewrite length_app, list_len_length in *. lia. }
    lia.
  - cbv zeta. split_and!; reflexivity.
Qed.

Lemma fetch_stops_at_limit_witness :
  let run :=
    fetch_rdw_data scripted (Some 3) 2 [] None (PyFloat "30.0") 3 pages_2_2_2 in
  list_len (yielded_of (run_trace run)) ≤ 3
  ∧ (run_ending run = Finished ∧ ∃ before r, run_trace run = before ++ [EvYield r])
  ∧ yielded_of (run_trace run) = take 3 (concat pages_2_2_2)
  ∧ Z.of_nat (length (requests_of (run_trace run))) * 2 < 3 + 2.
Proof.
  pose proof (fetch_stops_at_limit scripted 3 2 [] None (PyFloat "30.0") 3
                pages_2_2_2 pages_2_2_2) as H.
  cbv zeta in H. destruct H as ((Hle & Hend) & Hfull & _); [lia|].
  destruct Hfull as (_ & Hy & Hlen & Hn & _);
    [lia|repeat constructor|simpl; lia|simpl; lia|].
  cbv zeta.
  split_and!; [exact Hle|apply Hend; exact Hlen|apply Hend; exact Hlen|exact Hy|lia].
Defined.

(** C10: given [limit = 0] and a first page that is not empty, the fetcher
    sends exactly one request, yields the first row of that page, finds the
    limit reached at the check that follows and ends there; had the page
    been empty it would have sent the same single request and yielded
    nothing. *)
Theorem fetch_limit_zero {S : Type} (respond : S → request → response * S)
  (page_size : Z) (filters : dict string) (app_token : option string)
  (timeout : pyvalue) (fuel : nat) (st st1 : S) (status : Z)
  (rows : list row) :
  respond st (fetch_request page_size filters app_token timeout 0)
  = (Replied status rows, st1) →
  (400 <=? status) && (status <? 600) = false →
  (0 < fuel)%nat →
  let run :=
    fetch_rdw_data respond (Some 0) page_size filters app_token timeout fuel st in
  requests_of (run_trace run) = [fetch_request page_size filters app_token timeout 0]
  ∧ yielded_of (run_trace run) = take 1 rows
  ∧ (length (yielded_of (run_trace run)) ≤ 1)%nat
  ∧ (rows ≠ [] → length (yielded_of (run_trace run)) = 1%nat)
  ∧ run_ending run = Finished
  ∧ run_state run = st1.
Proof.
  intros Hr Hs Hfuel run. subst run. unfold fetch_rdw_data.
  destruct fuel as [|fuel]; [lia|].
  destruct rows as [|r rows].
  - simpl. rewrite Hr, Hs. simpl. split_and!; [done|done|lia|done|done|done].
  - rewrite (fetch_loop_reply respond (Some 0) page_size filters app_token timeout
               fuel st 0 0 status (r :: rows) st1 Hr Hs); [|done].
    simpl. split_and!; [done|done|lia|done|done|done].
Qed.

Lemma fetch_limit_zero_witness :
  let run :=
    fetch_rdw_data scripted (Some 0) 2 [] None (PyFloat "30.0") 5 pages_2_2_1 in
  requests_of (run_trace run) = [fetch_request 2 [] None (PyFloat "30.0") 0]
  ∧ yielded_of (run_trace run) = [plate_row "R1"]
  ∧ length (yielded_of (run_trace run)) = 1%nat
  ∧ run_ending run = Finished.
Proof.
  pose proof (fetch_limit_zero scripted 2 [] None (PyFloat "30.0") 5 pages_2_2_1
                [[plate_row "R3"; plate_row "R4"]; [plate_row "R5"]; [plate_row "R6"]]
                200 [plate_row "R1"; plate_row "R2"]) as H.
  cbv zeta in H.
  destruct H as (Hrq & Hy & _ & Hone & He & _); [reflexivity|reflexivity|lia|].
  cbv zeta. split_and!; [exact Hrq|exact Hy|apply Hone; discriminate|exact He].
Defined.

(** ** Export sinks *)

Lemma fold_dict_set_get {V : Type} (g : string → V) (fs : list string)
  (acc : dict V) (k : string) :
  dict_get k (fold_left (fun d f => dict_set f (g f) d) fs acc)
  = if decide (k ∈ fs) then Some (g k) else dict_get k acc.
Proof.
  revert acc. induction fs as [|f fs IH]; intros acc; cbn [fold_left].
  - destruct (decide (k ∈ [])) as [H|_]; [by apply elem_of_nil in H|done].
  - rewrite IH.
    destruct (decide (k ∈ fs)) as [Hin|Hnin];
      destruct (decide (k ∈ f :: fs)) as [Hin'|Hnin']; try done.
    + exfalso. apply Hnin'. by apply list_elem_of_further.
    + apply elem_of_cons in Hin' as [->|?]; [|done]. apply dict_get_set_eq.
    + apply dict_get_set_ne. intros ->. apply Hnin'. apply list_elem_of_here.
Qed.

Lemma writerow_rowdict (names : list string) (translated : dict pyvalue)
  (w : DictWriter) :
  fieldnames w = names →
  writerow
    (fold_left
       (fun d field => dict_set field (dict_get_default field (PyStr "") translated) d)
       names [])
    w
  = {| fieldnames := names;
       written := written w ++ [csv_line names translated] |}.
Proof.
  intros Hw. unfold writerow, csv_line. rewrite Hw. do 3 f_equal.
  apply map_ext_in. intros field Hin%list_elem_of_In.
  unfold dict_get_default at 1.
  rewrite (fold_dict_set_get
             (fun field => dict_get_default field (PyStr "") translated)).
  by rewrite decide_True.
Qed.

Lemma writerow_csv_rowdict (translated : dict pyvalue) (w : DictWriter) :
  fieldnames w = CSV_FIELDNAMES →
  writerow (csv_rowdict translated) w
  = {| fieldnames := CSV_FIELDNAMES;
       written := written w ++ [csv_line CSV_FIELDNAMES translated] |}.
Proof. apply writerow_rowdict. Qed.

Lemma main_csv_from (raw_records : list row) (w : DictWriter) :
  fieldnames w = CSV_FIELDNAMES →
  written
    (fold_left
       (fun w record => writerow (csv_rowdict (translate_record record)) w)
       raw_records w)
  = written w
    ++ map (fun r => csv_line CSV_FIELDNAMES (translate_record r)) raw_records.
Proof.
  revert w. induction raw_records as [|r rs IH]; intros w Hw.
  - by rewrite app_nil_r.
  - cbn [fold_left map]. rewrite writerow_csv_rowdict by done.
    rewrite IH by done. cbn [written]. by rewrite <- app_assoc.
Qed.




Lemma synthetic_records_len (r : dict pyvalue) (n : N) :
  list_len (synthetic_records r n) = Z.of_N n.
Proof.
  unfold synthetic_records. induction n as [|n IH] using N.peano_ind; [done|].
  rewrite N.iter_succ, list_len_cons, IH. lia.
Qed.

Lemma lookup_map {A B : Type} (f : A → B) (l : list A) (i : nat) :
  map f l !! i = option_map f (l !! i).
Proof. revert i. induction l as [|x l IH]; intros [|i]; simpl; auto. Qed.




(** C9, as stated, fails where the spreadsheet library is not installed:
    1,048,577 records then raise the install-pandas error, which is tested
    first, and not the capacity error. *)
Lemma export_to_excel_capacity_counterexample :
  list_len (synthetic_records plain_record 1048577) > EXCEL_MAX_ROWS
  ∧ export_to_excel (None : option (pandas (dict DataFrame) Empty_set))
                    (synthetic_records plain_record 1048577) "out.xlsx" []
    = (Some MissingPandas, [])
  ∧ ∀ n, fst (export_to_excel (None : option (pandas (dict DataFrame) Empty_set))
                (synthetic_records plain_record 1048577) "out.xlsx" [])
         ≠ Some (CapacityError n).
Proof.
  split_and!.
  - rewrite synthetic_records_len. reflexivity.
  - reflexivity.
  - intros n. cbn [export_to_excel fst]. discriminate.
Qed.

(** C9, amended: without the spreadsheet library [export_to_excel] raises
    the install-pandas error for every list of records and writes nothing.
    With the library present, more than 1,048,576 records raise the
    capacity error before anything is handed to the writer, so the file
    system is as it was.  In both cases a list above the ceiling gives an
    error and no file.  At or below the ceiling no capacity error is
    raised, and with the library present the frame goes to the writer. *)
Theorem export_to_excel_capacity {FS E : Type} (lib : pandas FS E)
  (pd : option (pandas FS E)) (records : list (dict pyvalue)) (path : string)
  (fs : FS) :
  (list_len records > EXCEL_MAX_ROWS →
     export_to_excel (Some lib) records path fs
     = (Some (CapacityError (list_len records)), fs))
  ∧ export_to_excel None records path fs = (Some (@MissingPandas E), fs)
  ∧ (list_len records > EXCEL_MAX_ROWS →
     fst (export_to_excel pd records path fs) ≠ None
     ∧ snd (export_to_excel pd records path fs) = fs
     ∧ (fst (export_to_excel pd records path fs)
        = Some (CapacityError (list_len records)) ↔ pd ≠ None))
  ∧ (list_len records ≤ EXCEL_MAX_ROWS →
     (∀ n, fst (export_to_excel pd records path fs) ≠ Some (CapacityError n))
     ∧ export_to_excel (Some lib) records path fs
       = (option_map WriterError (fst (to_excel lib (from_records records) path fs)),
          snd (to_excel lib (from_records records) path fs)))
  ∧ list_len records = Z.of_nat (length records)
  ∧ EXCEL_MAX_ROWS = 1048576.
Proof.
  split_and!.
  - intros Hbig. unfold export_to_excel.
    by rewrite (proj2 (Z.gtb_gt _ _) Hbig).
  - reflexivity.
  - intros Hbig. unfold export_to_excel. destruct pd as [lib'|].
    + rewrite (proj2 (Z.gtb_gt _ _) Hbig). cbn [fst snd].
      split_and!; [done|done|]. split; [done|by intros _].
    + cbn [fst snd]. split_and!; [done|done|]. split; [discriminate|done].
  - intros Hsmall.
    assert ((list_len records >? EXCEL_MAX_ROWS) = false) as Hno.
    { rewrite Z.gtb_ltb. apply Z.ltb_ge. lia. }
    unfold export_to_excel. rewrite Hno. split.
    + intros n. destruct pd as [lib'|]; [|done].
      destruct (to_excel lib' (from_records records) path fs) as [[e|] fs'];
        simpl; congruence.
    + by destruct (to_excel lib (from_records records) path fs).
  - apply list_len_length.
  - reflexivity.
Qed.

Lemma export_to_excel_capacity_witness :
  export_to_excel (Some recording_pandas)
                  (synthetic_records plain_record 1048577) "out.xlsx" []
  = (Some (CapacityError (list_len (synthetic_records plain_record 1048577))), [])
  ∧ list_len (synthetic_records plain_record 1048577) = 1048577
  ∧ export_to_excel (Some recording_pandas) [plain_record] "out.xlsx" []
    = (None, [("out.xlsx", from_records [plain_record])]).
Proof.
  assert (list_len (synthetic_records plain_record 1048577) = 1048577) as Hlen
    by apply synthetic_records_len.
  pose proof (export_to_excel_capacity recording_pandas (Some recording_pandas)
                (synthetic_records plain_record 1048577) "out.xlsx" [])
    as (Hbig & _).
  pose proof (export_to_excel_capacity recording_pandas (Some recording_pandas)
                [plain_record] "out.xlsx" []) as (_ & _ & _ & Hsmall & _).
  split_and!.
  - apply Hbig. rewrite Hlen. reflexivity.
  - exact Hlen.
  - apply Hsmall. vm_compute. discriminate.
Defined.

(** * Further properties of the code *)

Lemma dict_get_None_keys_not {V : Type} (k : string) (d : dict V) :
  dict_get k d ≠ None → k ∈ dict_keys d.
Proof.
  intros H. destruct (decide (k ∈ dict_keys d)) as [Hin|Hnin]; [done|].
  by apply dict_get_None_keys in Hnin.
Qed.


(** ** Filter builder: plate normalisation and equality filters *)

Lemma prefix_char (c a : ascii) (s : string) :
  String.prefix (String c "") (String a s) = if ascii_dec c a then true else false.
Proof.
  change (String.prefix (String c "") (String a s))
    with (if ascii_dec c a then String.prefix "" s else false).
  destruct (ascii_dec c a); [by destruct s|done].
Qed.

(** Replacing one character by nothing keeps exactly the other characters. *)
Lemma replace_char_filter (c : ascii) (s : string) :
  PyStr.replace (String c "") "" s
  = string_of_list_ascii
      (List.filter (fun a => negb (Ascii.eqb a c)) (list_ascii_of_string s)).
Proof.
  unfold PyStr.replace. induction s as [|a s IH]; [done|].
  rewrite replace_go_step, prefix_char.
  cbn [list_ascii_of_string List.filter].
  destruct (ascii_dec c a) as [<-|Hne].
  - rewrite Ascii.eqb_refl. cbn [negb]. exact IH.
  - destruct (Ascii.eqb_spec a c) as [->|_]; [done|].
    cbn [negb string_of_list_ascii]. by rewrite IH.
Qed.

Lemma filter_filter_ascii (p q : ascii → bool) (l : list ascii) :
  List.filter q (List.filter p l) = List.filter (fun a => p a && q a) l.
Proof.
  induction l as [|a l IH]; [done|]. cbn [List.filter].
  destruct (p a); cbn [List.filter andb]; [|done].
  destruct (q a); by rewrite IH.
Qed.

(** X1: a given plate is filtered on [kenteken] by its characters other
    than hyphen and blank, in their order, upper-cased; a missing or empty
    plate gives no [kenteken] filter. *)
Theorem build_filters_plate
  (upper : string → string)
  (category license_plate brand model date_from date_to : option string)
  (order_by_recent : bool) :
  dict_get "kenteken"
    (build_filters upper category license_plate brand model date_from date_to
                   order_by_recent)
  = match license_plate with
    | Some plate =>
        if String.eqb plate "" then None
        else
          Some (upper
                  (string_of_list_ascii
                     (List.filter
                        (fun c => negb (Ascii.eqb c "-") && negb (Ascii.eqb c " "))
                        (list_ascii_of_string plate))))
    | None => None
    end.
Proof.
  assert (∀ p, PyStr.replace " " "" (PyStr.replace "-" "" p)
               = string_of_list_ascii
                   (List.filter
                      (fun c => negb (Ascii.eqb c "-") && negb (Ascii.eqb c " "))
                      (list_ascii_of_string p))) as Hnorm.
  { intros p. rewrite !replace_char_filter, list_ascii_of_string_of_list_ascii.
    by rewrite filter_filter_ascii. }
  assert (∀ p, given (Some p) = if String.eqb p "" then None else Some p)
    as Hgiven by done.
  destruct license_plate as [plate|].
  - destruct (String.eqb plate "") eqn:Hp.
    + destruct order_by_recent; unfold build_filters, date_conditions_of;
        rewrite (Hgiven plate), Hp;
        repeat match goal with
               | |- context [given ?x] => destruct (given x)
               end; reflexivity.
    + rewrite <- Hnorm.
      destruct order_by_recent; unfold build_filters, date_conditions_of;
        rewrite (Hgiven plate), Hp;
        repeat match goal with
               | |- context [given ?x] => destruct (given x)
               end; reflexivity.
  - change (given None) with (@None string).
    destruct order_by_recent; unfold build_filters, date_conditions_of;
      change (given None) with (@None string);
      repeat match goal with
             | |- context [given ?x] => destruct (given x)
             end; reflexivity.
Qed.

Lemma build_filters_known_keys
  (upper : string → string)
  (category license_plate brand model date_from date_to : option string)
  (order_by_recent : bool) (k : string) :
  dict_get k (build_filters upper category license_plate brand model date_from
                            date_to order_by_recent) ≠ None →
  k ∈ ["voertuigsoort"; "kenteken"; "merk"; "handelsbenaming"; "$where"; "$order"].
Proof.
  intros Hk. apply dict_get_None_keys_not in Hk. revert Hk.
  destruct order_by_recent; filter_cases; cbn;
    rewrite !elem_of_cons, !elem_of_nil; tauto.
Qed.

Lemma build_filters_wf
  (upper : string → string)
  (category license_plate brand model date_from date_to : option string)
  (order_by_recent : bool) :
  dict_wf (build_filters upper category license_plate brand model date_from
                         date_to order_by_recent).
Proof.
  unfold dict_wf.
  destruct order_by_recent; filter_cases; cbn;
    apply (bool_decide_unpack _); vm_compute; exact I.
Qed.

(** X2: the equality filters mirror the arguments: a category is passed
    as it is, brand and model upper-cased, an empty string counts as
    absent; no key other than the six known ones is ever produced, the
    result has no repeated key, and no argument at all gives the empty
    filter set. *)
Theorem build_filters_keys
  (upper : string → string)
  (category license_plate brand model date_from date_to : option string)
  (order_by_recent : bool) :
  let filters :=
    build_filters upper category license_plate brand model date_from date_to
                  order_by_recent in
  dict_get "voertuigsoort" filters = given category
  ∧ dict_get "merk" filters = option_map upper (given brand)
  ∧ dict_get "handelsbenaming" filters = option_map upper (given model)
  ∧ (∀ k, dict_get k filters ≠ None →
          k ∈ ["voertuigsoort"; "kenteken"; "merk"; "handelsbenaming";
               "$where"; "$order"])
  ∧ dict_wf filters
  ∧ (given category = None → given license_plate = None → given brand = None →
     given model = None → given date_from = None → given date_to = None →
     order_by_recent = false → filters = []).
Proof.
  intros filters. subst filters. split_and!.
  - destruct order_by_recent; filter_cases; reflexivity.
  - destruct order_by_recent; filter_cases; reflexivity.
  - destruct order_by_recent; filter_cases; reflexivity.
  - apply build_filters_known_keys.
  - apply build_filters_wf.
  - intros Hc Hp Hb Hm Hf Ht ->. unfold build_filters.
    by rewrite Hc, Hp, Hb, Hm, Hf, Ht.
Qed.

Lemma build_filters_keys_witness :
  build_filters ascii_upper None (Some "") None None None None false = []
  ∧ "merk" ∈ ["voertuigsoort"; "kenteken"; "merk"; "handelsbenaming";
              "$where"; "$order"].
Proof.
  pose proof (build_filters_keys ascii_upper None (Some "") None None None None false)
    as H.
  pose proof (build_filters_keys ascii_upper None None (Some "volvo") None None None
                false) as H'.
  cbv zeta in H, H'.
  destruct H as (_ & _ & _ & _ & _ & Hempty).
  destruct H' as (_ & _ & _ & Hkeys & _).
  split.
  - apply Hempty; reflexivity.
  - apply Hkeys. vm_compute. discriminate.
Defined.

(** ** Paginated fetcher: what is sent, and how a failure ends the run *)

Lemma dict_get_map_values {A B : Type} (f : A → B) (d : dict A) (k : string) :
  dict_get k (map (fun kv => (fst kv, f (snd kv))) d) = option_map f (dict_get k d).
Proof.
  induction d as [|[k' v] d IH]; [done|]. cbn [map dict_get fst snd].
  by destruct (String.eqb k' k).
Qed.

(** Lookup after [d.update(other)]: the entries of [other] win. *)
Lemma dict_update_get {V : Type} (d other : dict V) (k : string) :
  dict_wf other →
  dict_get k (dict_update d other)
  = match dict_get k other with
    | Some v => Some v
    | None => dict_get k d
    end.
Proof.
  unfold dict_update, dict_wf. revert d.
  induction other as [|[k0 v0] other IH]; intros d Hwf; [done|].
  cbn [dict_keys map fst] in Hwf. apply NoDup_cons in Hwf as [Hk0 Hwf].
  cbn [fold_left fst snd dict_get]. rewrite (IH _ Hwf).
  destruct (String.eqb_spec k0 k) as [->|Hne].
  - apply dict_get_None_keys in Hk0. rewrite Hk0. apply dict_get_set_eq.
  - destruct (dict_get k other); [done|]. by apply dict_get_set_ne.
Qed.

Lemma requests_of_here (r : request) (ys : list row) :
  requests_of (EvRequest r :: map EvYield ys) = [r].
Proof.
  change (r :: requests_of (map EvYield ys) = [r]). by rewrite requests_of_yields.
Qed.

Section AnyEndpoint.
Context {S : Type}.
Variable respond : S → request → response * S.
Variable limit : option Z.
Variable page_size : Z.
Variable filters : dict string.
Variable app_token : option string.
Variable timeout : pyvalue.

Local Abbreviation request_at :=
  (fetch_request page_size filters app_token timeout).
Local Abbreviation loop :=
  (fetch_loop respond limit page_size filters app_token timeout).

(** The cursor: requests go out at [offset], [offset + page_size], ... and
    there is at most one per turn of the loop. *)
Lemma fetch_loop_requests fuel st fetched offset :
  let run := loop fuel st fetched offset in
  requests_of (run_trace run)
  = map request_at
        (offsets_from page_size offset (length (requests_of (run_trace run))))
  ∧ (length (requests_of (run_trace run)) ≤ fuel)%nat
  ∧ (run_ending run = OutOfFuel → length (requests_of (run_trace run)) = fuel).
Proof.
  revert st fetched offset.
  induction fuel as [|fuel IH]; intros st fetched offset; [done|].
  destruct (respond st (request_at offset)) as [[|status rows] st1] eqn:Hr.
  { simpl. rewrite Hr. simpl. split_and!; [done|lia|done]. }
  destruct ((400 <=? status) && (status <? 600)) eqn:Hs.
  { simpl. rewrite Hr, Hs. simpl. split_and!; [done|lia|done]. }
  destruct rows as [|r rows].
  { simpl. rewrite Hr, Hs. simpl. split_and!; [done|lia|done]. }
  rewrite (fetch_loop_reply respond limit page_size filters app_token timeout
             fuel st fetched offset status (r :: rows) st1 Hr Hs); [|done].
  destruct (yield_rows limit (r :: rows) fetched) as [[ys f1] ret].
  destruct ret; [|destruct (limit_reached limit f1);
                  [|destruct (list_len (r :: rows) <? page_size)]];
    try (unfold run_trace, run_ending; cbn [fst snd]; rewrite requests_of_here;
         simpl; split_and!; [done|lia|done]).
  specialize (IH st1 f1 (offset + page_size)).
  destruct (loop fuel st1 f1 (offset + page_size)) as [[later e] st2].
  unfold run_trace, run_ending in *. cbn [fst snd] in *.
  destruct IH as (Hreq & Hle & Hout).
  rewrite requests_of_app, requests_of_here.
  cbn [app length offsets_from map]. rewrite <- Hreq.
  split_and!; [done|lia|]. intros He. by rewrite (Hout He).
Qed.

(** A failure is the last thing that happens: nothing of the failing
    reply is yielded and nothing is asked afterwards. *)
Lemma fetch_loop_raised fuel st fetched offset e :
  run_ending (loop fuel st fetched offset) = Raised e →
  ∃ before r, run_trace (loop fuel st fetched offset) = before ++ [EvRequest r].
Proof.
  revert st fetched offset.
  induction fuel as [|fuel IH]; intros st fetched offset; [done|].
  destruct (respond st (request_at offset)) as [[|status rows] st1] eqn:Hr.
  { simpl. rewrite Hr. simpl. intros _. by exists [], (request_at offset). }
  destruct ((400 <=? status) && (status <? 600)) eqn:Hs.
  { simpl. rewrite Hr, Hs. simpl. intros _. by exists [], (request_at offset). }
  destruct rows as [|r rows].
  { simpl. rewrite Hr, Hs. by simpl. }
  rewrite (fetch_loop_reply respond limit page_size filters app_token timeout
             fuel st fetched offset status (r :: rows) st1 Hr Hs); [|done].
  destruct (yield_rows limit (r :: rows) fetched) as [[ys f1] ret].
  destruct ret; [done|]. destruct (limit_reached limit f1); [done|].
  destruct (list_len (r :: rows) <? page_size); [done|].
  specialize (IH st1 f1 (offset + page_size)).
  destruct (loop fuel st1 f1 (offset + page_size)) as [[later e'] st2].
  unfold run_trace, run_ending in *. cbn [fst snd] in *.
  intros He. destruct (IH He) as (before & r' & ->).
  exists ((EvRequest (request_at offset) :: map EvYield ys) ++ before), r'.
  by rewrite <- app_assoc.
Qed.

End AnyEndpoint.

Lemma offsets_from_lookup (page_size offset : Z) (n i : nat) (x : Z) :
  offsets_from page_size offset n !! i = Some x →
  x = offset + Z.of_nat i * page_size.
Proof.
  revert offset i. induction n as [|n IH]; intros offset [|i]; simpl; try done.
  - intros [= <-]. lia.
  - intros H. rewrite (IH _ _ H). lia.
Qed.

(** X3: whatever the endpoint answers and whatever the limit, the i-th
    request of a run is the page request at offset [i * page_size]; a run
    sends at most one request per turn of its loop; and when it ends by an
    error, the failing request is the last event of the run. *)
Theorem fetch_requests_cursor {S : Type} (respond : S → request → response * S)
  (limit : option Z) (page_size : Z) (filters : dict string)
  (app_token : option string) (timeout : pyvalue) (fuel : nat) (st : S) :
  let run :=
    fetch_rdw_data respond limit page_size filters app_token timeout fuel st in
  (∀ i r, requests_of (run_trace run) !! i = Some r →
          r = fetch_request page_size filters app_token timeout
                            (Z.of_nat i * page_size))
  ∧ (length (requests_of (run_trace run)) ≤ fuel)%nat
  ∧ (∀ e, run_ending run = Raised e →
          ∃ before r, run_trace run = before ++ [EvRequest r]).
Proof.
  intros run. subst run. unfold fetch_rdw_data.
  pose proof (fetch_loop_requests respond limit page_size filters app_token timeout
                fuel st 0 0) as H.
  cbv zeta in H. destruct H as (Hreq & Hle & _).
  split_and!; [|done|].
  - intros i r Hi. rewrite Hreq, lookup_map in Hi.
    destruct (offsets_from page_size 0 _ !! i) as [x|] eqn:Hx; [|done].
    apply offsets_from_lookup in Hx as ->. simpl in Hi. by injection Hi as <-.
  - intros e. apply fetch_loop_raised.
Qed.

Lemma fetch_requests_cursor_witness :
  let run :=
    fetch_rdw_data replaying None 2 [] None (PyFloat "30.0") 5
      [Replied 200 [plate_row "R1"; plate_row "R2"]; Replied 403 []] in
  {| req_url := BASE_URL;
     req_params := [("$limit", PyInt 2); ("$offset", PyInt 2)];
     req_headers := [("Accept", "application/json")];
     req_timeout := PyFloat "30.0" |}
  = fetch_request 2 [] None (PyFloat "30.0") (Z.of_nat 1 * 2)
  ∧ ∃ before r, run_trace run = before ++ [EvRequest r].
Proof.
  pose proof (fetch_requests_cursor replaying None 2 [] None (PyFloat "30.0") 5
                [Replied 200 [plate_row "R1"; plate_row "R2"]; Replied 403 []])
    as H.
  cbv zeta in H. destruct H as (Hcur & _ & Hfail).
  cbv zeta. split.
  - apply (Hcur 1%nat). reflexivity.
  - apply (Hfail (HTTPError 403)). reflexivity.
Defined.

(** X4: every request goes to the fixed URL with the caller's timeout and
    the [Accept] header, carries the token header exactly when a non-empty
    token was given, and has every filter among its parameters; [$limit]
    and [$offset] are the page size and the cursor unless a filter of that
    name overrides them, which filters built by [build_filters] never do. *)
Theorem fetch_request_contents (page_size : Z) (filters : dict string)
  (app_token : option string) (timeout : pyvalue) (offset : Z) :
  dict_wf filters →
  let r := fetch_request page_size filters app_token timeout offset in
  req_url r = BASE_URL
  ∧ req_timeout r = timeout
  ∧ (∀ k v, dict_get k filters = Some v → dict_get k (req_params r) = Some (PyStr v))
  ∧ (dict_get "$limit" filters = None →
     dict_get "$limit" (req_params r) = Some (PyInt page_size))
  ∧ (dict_get "$offset" filters = None →
     dict_get "$offset" (req_params r) = Some (PyInt offset))
  ∧ (∀ k, k ≠ "$limit" → k ≠ "$offset" → dict_get k filters = None →
          dict_get k (req_params r) = None)
  ∧ dict_get "Accept" (req_headers r) = Some "application/json"
  ∧ dict_get "X-App-Token" (req_headers r) = given app_token
  ∧ (∀ upper category license_plate brand model date_from date_to recent,
       let built :=
         build_filters upper category license_plate brand model date_from
                       date_to recent in
       let r' := fetch_request page_size built app_token timeout offset in
       dict_get "$limit" (req_params r') = Some (PyInt page_size)
       ∧ dict_get "$offset" (req_params r') = Some (PyInt offset)).
Proof.
  intros Hwf r.
  assert (∀ fs : dict string, dict_wf fs →
            dict_wf (map (fun kv => (fst kv, PyStr (snd kv))) fs)) as Hwf'.
  { intros fs H. unfold dict_wf, dict_keys in *. rewrite map_map. exact H. }
  assert (∀ fs k, dict_wf fs →
            dict_get k (req_params (fetch_request page_size fs app_token timeout offset))
            = match dict_get k fs with
              | Some v => Some (PyStr v)
              | None => dict_get k [("$limit", PyInt page_size);
                                    ("$offset", PyInt offset)]
              end) as Hparams.
  { intros fs k H. unfold fetch_request. cbn [req_params].
    rewrite dict_update_get by by apply Hwf'.
    rewrite dict_get_map_values. by destruct (dict_get k fs). }
  subst r. split_and!; try reflexivity.
  - intros k v Hk. by rewrite Hparams, Hk.
  - intros Hk. by rewrite Hparams, Hk.
  - intros Hk. by rewrite Hparams, Hk.
  - intros k Hl Ho Hk. rewrite Hparams, Hk by done. cbn [dict_get].
    destruct (String.eqb_spec "$limit" k); [congruence|].
    by destruct (String.eqb_spec "$offset" k); [congruence|].
  - unfold fetch_request, fetch_headers. cbn [req_headers].
    by destruct (given app_token).
  - unfold fetch_request, fetch_headers. cbn [req_headers].
    by destruct (given app_token).
  - intros upper category license_plate brand model date_from date_to recent built r'.
    subst r' built.
    assert (∀ k, k ∉ ["voertuigsoort"; "kenteken"; "merk"; "handelsbenaming";
                      "$where"; "$order"] →
                 dict_get k (build_filters upper category license_plate brand model
                                           date_from date_to recent) = None) as Hnone.
    { intros k Hk.
      destruct (dict_get k (build_filters upper category license_plate brand model
                                          date_from date_to recent)) eqn:E; [|done].
      exfalso. apply Hk. apply (build_filters_known_keys upper category license_plate
                                  brand model date_from date_to recent).
      by rewrite E. }
    rewrite !Hparams by apply build_filters_wf.
    rewrite !Hnone; [done|..];
      rewrite !elem_of_cons, elem_of_nil; intros H;
      repeat (destruct H as [H|H]; [discriminate|]); done.
Qed.

Lemma fetch_request_contents_witness :
  dict_get "merk"
    (req_params (fetch_request 100 [("merk", "VOLVO")] (Some "token")
                               (PyFloat "30.0") 200))
  = Some (PyStr "VOLVO")
  ∧ dict_get "$offset"
      (req_params (fetch_request 100 [("merk", "VOLVO")] (Some "token")
                                 (PyFloat "30.0") 200))
    = Some (PyInt 200)
  ∧ dict_get "$limit"
      (req_params (fetch_request 100 [("$limit", "5")] None (PyFloat "30.0") 0))
    = Some (PyStr "5").
Proof.
  assert (∀ k v : string, dict_wf [(k, v)]) as Hwf.
  { intros k v. unfold dict_wf. simpl. apply NoDup_singleton. }
  pose proof (fetch_request_contents 100 [("merk", "VOLVO")] (Some "token")
                (PyFloat "30.0") 200 (Hwf _ _)) as H.
  pose proof (fetch_request_contents 100 [("$limit", "5")] None
                (PyFloat "30.0") 0 (Hwf _ _)) as H'.
  cbv zeta in H, H'.
  destruct H as (_ & _ & Hfilter & _ & Hoffset & _).
  destruct H' as (_ & _ & Hover & _).
  split_and!.
  - apply Hfilter. reflexivity.
  - apply Hoffset. reflexivity.
  - apply Hover. reflexivity.
Defined.

(** ** Paginated fetcher: failures and complete paging *)

Lemma fetch_request_param (page_size : Z) (filters : dict string)
  (app_token : option string) (timeout : pyvalue) (offset : Z) (k : string) :
  dict_wf filters →
  dict_get k (req_params (fetch_request page_size filters app_token timeout offset))
  = match dict_get k filters with
    | Some v => Some (PyStr v)
    | None => dict_get k [("$limit", PyInt page_size); ("$offset", PyInt offset)]
    end.
Proof.
  intros Hwf. unfold fetch_request. cbn [req_params].
  rewrite dict_update_get.
  - rewrite dict_get_map_values. by destruct (dict_get k filters).
  - unfold dict_wf, dict_keys in *. by rewrite map_map.
Qed.

Section FailingRuns.
Variable page_size : Z.
Variable filters : dict string.
Variable app_token : option string.
Variable timeout : pyvalue.

Local Abbreviation request_at :=
  (fetch_request page_size filters app_token timeout).

Lemma fetch_replaying_failure (fulls : list (list row)) (bad : response)
  (err : fetch_error) (rest : list response) :
  0 < page_size →
  Forall (fun p => page_size ≤ list_len p) fulls →
  failure_of bad = Some err →
  ∀ fuel fetched offset, (length fulls < fuel)%nat →
    fetch_loop replaying None page_size filters app_token timeout fuel
               (map (Replied 200) fulls ++ bad :: rest) fetched offset
    = (paged_trace request_at page_size offset fulls
         ++ [EvRequest (request_at (offset + Z.of_nat (length fulls) * page_size))],
       Raised err, rest).
Proof.
  intros Hps Hfull Hbad.
  induction Hfull as [|p fulls Hp Hfull IH]; intros fuel fetched offset Hfuel;
    (destruct fuel as [|fuel]; [simpl in Hfuel; lia|]).
  - cbn [map app length paged_trace]. rewrite Z.add_0_r.
    destruct bad as [|status rows]; simpl in Hbad.
    + injection Hbad as <-. reflexivity.
    + destruct ((400 <=? status) && (status <? 600)) eqn:Hs; [|done].
      injection Hbad as <-. simpl. by rewrite Hs.
  - cbn [map app].
    rewrite (fetch_loop_reply replaying None page_size filters app_token timeout fuel
               _ fetched offset 200 p (map (Replied 200) fulls ++ bad :: rest));
      [|done|done|by apply (full_page_nonempty page_size)].
    rewrite yield_rows_unlimited. simpl limit_reached. cbv iota.
    rewrite (proj2 (Z.ltb_ge _ _) Hp).
    rewrite IH by (simpl in Hfuel; lia).
    cbn [paged_trace length]. rewrite <- app_assoc.
    replace (offset + page_size + Z.of_nat (length fulls) * page_size)
      with (offset + Z.of_nat (S (length fulls)) * page_size) by lia.
    reflexivity.
Qed.

End FailingRuns.

(** X5: when the endpoint fails after some full pages, by a refused
    connection or by a status from 400 to 599, the fetcher has yielded the
    rows of those pages, all of them and in order, raises the matching
    error on the failing request and asks for nothing more. *)
Theorem fetch_failure_propagates (page_size : Z) (filters : dict string)
  (app_token : option string) (timeout : pyvalue) (fulls : list (list row))
  (bad : response) (err : fetch_error) (rest : list response) (fuel : nat) :
  0 < page_size →
  Forall (fun p => page_size ≤ list_len p) fulls →
  failure_of bad = Some err →
  (length fulls < fuel)%nat →
  let run :=
    fetch_rdw_data replaying None page_size filters app_token timeout fuel
                   (map (Replied 200) fulls ++ bad :: rest) in
  run_ending run = Raised err
  ∧ yielded_of (run_trace run) = concat fulls
  ∧ length (requests_of (run_trace run)) = (length fulls + 1)%nat
  ∧ run_state run = rest.
Proof.
  intros Hps Hfull Hbad Hfuel run. subst run. unfold fetch_rdw_data.
  rewrite (fetch_replaying_failure page_size filters app_token timeout fulls bad err
             rest Hps Hfull Hbad fuel 0 0 Hfuel).
  unfold run_ending, run_trace, run_state. cbn [fst snd].
  rewrite yielded_of_app, requests_of_app, yielded_of_paged_trace,
    requests_of_paged_trace, length_app, length_map, offsets_from_length.
  split_and!; [done|by rewrite app_nil_r|done|done].
Qed.

Lemma fetch_failure_propagates_witness :
  let run :=
    fetch_rdw_data replaying None 2 [] None (PyFloat "30.0") 3
      [Replied 200 [plate_row "R1"; plate_row "R2"]; Replied 403 [];
       Replied 200 [plate_row "R3"]] in
  run_ending run = Raised (HTTPError 403)
  ∧ yielded_of (run_trace run) = [plate_row "R1"; plate_row "R2"]
  ∧ run_state run = [Replied 200 [plate_row "R3"]].
Proof.
  pose proof (fetch_failure_propagates 2 [] None (PyFloat "30.0")
                [[plate_row "R1"; plate_row "R2"]] (Replied 403 [])
                (HTTPError 403) [Replied 200 [plate_row "R3"]] 3) as H.
  cbv zeta in H. destruct H as (He & Hy & _ & Hst).
  - lia.
  - repeat (constructor; [vm_compute; discriminate|]). constructor.
  - reflexivity.
  - simpl. lia.
  - cbv zeta. split_and!; [exact He|exact Hy|exact Hst].
Defined.

Lemma yielded_of_here (r : request) (ys : list row) :
  yielded_of (EvRequest r :: map EvYield ys) = ys.
Proof. apply yielded_of_yields. Qed.

Section DatasetRuns.
Variable data : list row.
Variable page_size : Z.
Variable filters : dict string.
Variable app_token : option string.
Variable timeout : pyvalue.

Hypothesis page_size_pos : 0 < page_size.
Hypothesis filters_wf : dict_wf filters.
Hypothesis no_limit_filter : dict_get "$limit" filters = None.
Hypothesis no_offset_filter : dict_get "$offset" filters = None.

Local Abbreviation request_at :=
  (fetch_request page_size filters app_token timeout).

Lemma dataset_reply (o : nat) :
  dataset_server data tt (request_at (Z.of_nat o))
  = (Replied 200 (take (Z.to_nat page_size) (drop o data)), tt).
Proof.
  unfold dataset_server.
  rewrite !fetch_request_param, no_limit_filter, no_offset_filter by done.
  cbn [dict_get]. rewrite String.eqb_refl.
  destruct (String.eqb "$limit" "$offset") eqn:E; [done|].
  rewrite String.eqb_refl. by rewrite Nat2Z.id.
Qed.

Lemma div_step (n p : nat) : (0 < p)%nat → (p ≤ n)%nat → (n / p = S ((n - p) / p))%nat.
Proof.
  intros Hp Hle. replace n with (1 * p + (n - p))%nat at 1 by lia.
  rewrite Nat.div_add_l by lia. lia.
Qed.

(** Paging through the dataset without a limit. *)
Lemma fetch_dataset_from (fuel o : nat) (fetched : Z) :
  ((length data - o) / Z.to_nat page_size < fuel)%nat →
  let run :=
    fetch_loop (dataset_server data) None page_size filters app_token timeout
               fuel tt fetched (Z.of_nat o) in
  run_ending run = Finished
  ∧ yielded_of (run_trace run) = drop o data
  ∧ length (requests_of (run_trace run))
    = S ((length data - o) / Z.to_nat page_size).
Proof.
  revert o fetched. induction fuel as [|fuel IH]; intros o fetched Hfuel; [lia|].
  pose proof (dataset_reply o) as Hr.
  assert (length (drop o data) = (length data - o)%nat) as Hdrop
    by apply length_drop.
  destruct (take (Z.to_nat page_size) (drop o data)) as [|r rows] eqn:Hrows.
  { simpl. rewrite Hr. simpl.
    assert (drop o data = []) as Hnil.
    { destruct (drop o data) as [|x xs]; [done|].
      destruct (Z.to_nat page_size) eqn:E; [lia|]. done. }
    rewrite Hnil in *. simpl in Hdrop. rewrite <- Hdrop.
    rewrite Nat.Div0.div_0_l. done. }
  rewrite (fetch_loop_reply (dataset_server data) None page_size filters app_token
             timeout fuel tt fetched (Z.of_nat o) 200 (r :: rows) tt Hr);
    [|done|done].
  rewrite yield_rows_unlimited. simpl limit_reached. cbv iota.
  assert (length (r :: rows)
          = Nat.min (Z.to_nat page_size) (length data - o)) as Hlen.
  { rewrite <- Hrows, length_take. lia. }
  rewrite list_len_length.
  destruct (Z.of_nat (length (r :: rows)) <? page_size) eqn:Hshort.
  - apply Z.ltb_lt in Hshort.
    unfold run_ending, run_trace. cbn [fst snd].
    rewrite yielded_of_here, requests_of_here.
    assert (length data - o < Z.to_nat page_size)%nat as Hlt by lia.
    split_and!; [done| |].
    + rewrite <- Hrows. apply take_ge. lia.
    + rewrite Nat.div_small by lia. done.
  - apply Z.ltb_ge in Hshort.
    assert (Z.to_nat page_size ≤ length data - o)%nat as Hge by lia.
    replace (Z.of_nat o + page_size) with (Z.of_nat (o + Z.to_nat page_size)) by lia.
    assert (0 < Z.to_nat page_size)%nat as Hpsn by lia.
    rewrite (div_step _ _ Hpsn Hge) in Hfuel |- *.
    specialize (IH (o + Z.to_nat page_size)%nat
                  (fetched + Z.of_nat (length (r :: rows)))).
    replace (length data - (o + Z.to_nat page_size))%nat
      with (length data - o - Z.to_nat page_size)%nat in IH by lia.
    assert ((length data - o - Z.to_nat page_size) / Z.to_nat page_size < fuel)%nat
      as Hfuel' by lia.
    specialize (IH Hfuel').
    destruct (fetch_loop (dataset_server data) None page_size filters app_token
                timeout fuel tt (fetched + Z.of_nat (length (r :: rows)))
                (Z.of_nat (o + Z.to_nat page_size))) as [[later e] st2].
    unfold run_ending, run_trace in *. cbn [fst snd] in *.
    destruct IH as (He & Hy & Hn).
    rewrite yielded_of_app, requests_of_app, yielded_of_here, requests_of_here.
    rewrite Hy. split_and!; [done| |].
    + rewrite <- Hrows, <- drop_drop. apply take_drop.
    + cbn [app length]. by rewrite Hn.
Qed.

End DatasetRuns.

(** Paging through the dataset with a limit not yet reached. *)
Lemma fetch_dataset_limit_from (data : list row) (page_size : Z)
  (filters : dict string) (app_token : option string) (timeout : pyvalue) (l : Z) :
  0 < page_size →
  dict_wf filters →
  dict_get "$limit" filters = None →
  dict_get "$offset" filters = None →
  ∀ (fuel o : nat) (fetched : Z),
    fetched < l →
    ((length data - o) / Z.to_nat page_size < fuel)%nat →
    let run :=
      fetch_loop (dataset_server data) (Some l) page_size filters app_token timeout
                 fuel tt fetched (Z.of_nat o) in
    run_ending run = Finished
    ∧ yielded_of (run_trace run) = take (Z.to_nat (l - fetched)) (drop o data).
Proof.
  intros Hps Hwf Hnl Hno.
  induction fuel as [|fuel IH]; intros o fetched Hlt Hfuel; [lia|].
  pose proof (dataset_reply data page_size filters app_token timeout Hwf Hnl Hno o)
    as Hr.
  assert (length (drop o data) = (length data - o)%nat) as Hdrop
    by apply length_drop.
  assert (0 < Z.to_nat page_size)%nat as Hpsn by lia.
  destruct (take (Z.to_nat page_size) (drop o data)) as [|r rows] eqn:Hrows.
  { simpl. rewrite Hr. simpl.
    assert (drop o data = []) as ->.
    { destruct (drop o data) as [|x xs]; [done|].
      destruct (Z.to_nat page_size) eqn:E; [lia|]. done. }
    by rewrite take_nil. }
  rewrite (fetch_loop_reply (dataset_server data) (Some l) page_size filters
             app_token timeout fuel tt fetched (Z.of_nat o) 200 (r :: rows) tt Hr);
    [|done|done].
  assert (length (r :: rows)
          = Nat.min (Z.to_nat page_size) (length data - o)) as Hlen.
  { rewrite <- Hrows, length_take. lia. }
  destruct (yield_rows (Some l) (r :: rows) fetched) as [[ys f1] ret] eqn:E.
  destruct (yield_rows_limit l _ _ Hlt _ _ _ E) as (Hpre & Hf & Hyes & Hnot).
  pose proof (prefix_length _ _ Hpre) as Hyslen.
  rewrite list_len_length in Hf.
  destruct ret.
  - destruct (Hyes eq_refl) as (Hl & _).
    unfold run_ending, run_trace. cbn [fst snd]. rewrite yielded_of_here.
    split; [done|].
    replace (Z.to_nat (l - fetched)) with (length ys) by lia.
    destruct Hpre as [k Hk].
    assert (take (length ys) (r :: rows) = ys) as Hys.
    { rewrite Hk. apply take_app_length. }
    transitivity (take (length ys) (r :: rows)); [by rewrite Hys|].
    rewrite <- Hrows, take_take. f_equal. lia.
  - destruct (Hnot eq_refl) as (Hlt1 & ->).
    assert (limit_reached (Some l) f1 = false) as -> by (apply Z.leb_gt; lia).
    rewrite list_len_length.
    destruct (Z.of_nat (length (r :: rows)) <? page_size) eqn:Hshort.
    + apply Z.ltb_lt in Hshort.
      unfold run_ending, run_trace. cbn [fst snd]. rewrite yielded_of_here.
      split; [done|].
      assert (r :: rows = drop o data) as Hall.
      { rewrite <- Hrows. apply take_ge. lia. }
      rewrite <- Hall. symmetry. apply take_ge. lia.
    + apply Z.ltb_ge in Hshort.
      assert (Z.to_nat page_size ≤ length data - o)%nat as Hge by lia.
      replace (Z.of_nat o + page_size)
        with (Z.of_nat (o + Z.to_nat page_size)) by lia.
      rewrite (div_step _ _ Hpsn Hge) in Hfuel.
      assert ((length data - (o + Z.to_nat page_size)) / Z.to_nat page_size
              < fuel)%nat as Hfuel'.
      { replace (length data - (o + Z.to_nat page_size))%nat
          with (length data - o - Z.to_nat page_size)%nat by lia. lia. }
      specialize (IH (o + Z.to_nat page_size)%nat f1 Hlt1 Hfuel').
      destruct (fetch_loop (dataset_server data) (Some l) page_size filters
                  app_token timeout fuel tt f1 (Z.of_nat (o + Z.to_nat page_size)))
        as [[later e] st2].
      unfold run_ending, run_trace in *. cbn [fst snd] in *.
      destruct IH as (He & Hy).
      rewrite yielded_of_app, yielded_of_here, Hy. split; [done|].
      rewrite <- (take_drop (Z.to_nat page_size) (drop o data)) at 1.
      rewrite Hrows, drop_drop.
      replace (Z.to_nat (l - fetched))
        with (length (r :: rows) + Z.to_nat (l - f1))%nat by lia.
      symmetry. by apply take_app_add'.
Qed.

(** X6: against an endpoint that serves a dataset by [$limit] and
    [$offset], with a positive page size and filters that leave those two
    parameters alone, the fetcher without a limit yields every row of the
    dataset exactly once and in order, and sends one request more than the
    number of full pages. *)
Theorem fetch_dataset_complete (data : list row) (page_size : Z)
  (filters : dict string) (app_token : option string) (timeout : pyvalue)
  (fuel : nat) :
  0 < page_size →
  dict_wf filters →
  dict_get "$limit" filters = None →
  dict_get "$offset" filters = None →
  (length data / Z.to_nat page_size < fuel)%nat →
  let run :=
    fetch_rdw_data (dataset_server data) None page_size filters app_token timeout
                   fuel tt in
  run_ending run = Finished
  ∧ yielded_of (run_trace run) = data
  ∧ length (requests_of (run_trace run))
    = S (length data / Z.to_nat page_size).
Proof.
  intros Hps Hwf Hnl Hno Hfuel.
  pose proof (fetch_dataset_from data page_size filters app_token timeout Hps Hwf
                Hnl Hno fuel 0 0) as H.
  rewrite Nat.sub_0_r in H. apply H. exact Hfuel.
Qed.

Lemma fetch_dataset_complete_witness :
  let data := [plate_row "R1"; plate_row "R2"; plate_row "R3"; plate_row "R4"] in
  let run :=
    fetch_rdw_data (dataset_server data) None 2 [("merk", "VOLVO")] None
                   (PyFloat "30.0") 3 tt in
  yielded_of (run_trace run) = data
  ∧ length (requests_of (run_trace run)) = 3%nat.
Proof.
  pose proof (fetch_dataset_complete
                [plate_row "R1"; plate_row "R2"; plate_row "R3"; plate_row "R4"]
                2 [("merk", "VOLVO")] None (PyFloat "30.0") 3) as H.
  cbv zeta in H. destruct H as (_ & Hy & Hn).
  - lia.
  - unfold dict_wf. simpl. apply NoDup_singleton.
  - reflexivity.
  - reflexivity.
  - vm_compute. lia.
  - cbv zeta. split; [exact Hy|exact Hn].
Defined.

(** X7: against the same endpoint, a positive limit makes the fetcher
    yield exactly the first [limit] rows of the dataset, or all of them
    when there are fewer. *)
Theorem fetch_dataset_limited (data : list row) (l page_size : Z)
  (filters : dict string) (app_token : option string) (timeout : pyvalue)
  (fuel : nat) :
  0 < l →
  0 < page_size →
  dict_wf filters →
  dict_get "$limit" filters = None →
  dict_get "$offset" filters = None →
  (length data / Z.to_nat page_size < fuel)%nat →
  let run :=
    fetch_rdw_data (dataset_server data) (Some l) page_size filters app_token
                   timeout fuel tt in
  run_ending run = Finished
  ∧ yielded_of (run_trace run) = take (Z.to_nat l) data.
Proof.
  intros Hl Hps Hwf Hnl Hno Hfuel.
  pose proof (fetch_dataset_limit_from data page_size filters app_token timeout l
                Hps Hwf Hnl Hno fuel 0 0 Hl) as H.
  rewrite Nat.sub_0_r, Z.sub_0_r in H. apply H. exact Hfuel.
Qed.

Lemma fetch_dataset_limited_witness :
  let data := [plate_row "R1"; plate_row "R2"; plate_row "R3"; plate_row "R4"] in
  let run :=
    fetch_rdw_data (dataset_server data) (Some 3) 2 [] None (PyFloat "30.0") 3 tt in
  yielded_of (run_trace run) = [plate_row "R1"; plate_row "R2"; plate_row "R3"].
Proof.
  pose proof (fetch_dataset_limited
                [plate_row "R1"; plate_row "R2"; plate_row "R3"; plate_row "R4"]
                3 2 [] None (PyFloat "30.0") 3) as H.
  cbv zeta in H. destruct H as (_ & Hy).
  - lia.
  - lia.
  - unfold dict_wf. simpl. apply NoDup_nil_2.
  - reflexivity.
  - reflexivity.
  - vm_compute. lia.
  - cbv zeta. exact Hy.
Defined.

(** ** Record translator: entries, order and repeated translation *)

Lemma dict_set_fresh {V : Type} (k : string) (v : V) (d : dict V) :
  k ∉ dict_keys d → dict_set k v d = d ++ [(k, v)].
Proof.
  induction d as [|[k' v'] d IH]; [done|].
  cbn [dict_keys map fst]. intros [Hne Hk]%not_elem_of_cons.
  cbn [dict_set]. destruct (String.eqb_spec k' k) as [->|_]; [done|].
  unfold dict_keys in IH. by rewrite IH.
Qed.

(** Assigning keys that are all new, one after the other, appends them. *)
Lemma fold_dict_set_fresh {V W : Type} (f : string → string) (g : W → V)
  (r : dict W) (acc : dict V) :
  NoDup (dict_keys acc ++ map f (dict_keys r)) →
  fold_left (fun d kv => dict_set (f (fst kv)) (g (snd kv)) d) r acc
  = acc ++ map (fun kv => (f (fst kv), g (snd kv))) r.
Proof.
  revert acc. induction r as [|[k v] r IH]; intros acc Hnd.
  - by rewrite app_nil_r.
  - cbn [fold_left map fst snd dict_keys] in *.
    assert (f k ∉ dict_keys acc) as Hfresh.
    { apply NoDup_app in Hnd as (_ & Hdisj & _). intros Hin.
      apply (Hdisj _ Hin). apply list_elem_of_here. }
    rewrite (dict_set_fresh _ _ _ Hfresh).
    rewrite IH.
    + by rewrite <- app_assoc.
    + unfold dict_keys. rewrite map_app. cbn [map fst].
      by rewrite <- app_assoc.
Qed.

Lemma translate_record_entrywise (r : dict pyvalue) :
  NoDup (map english_key (dict_keys r)) →
  translate_record r
  = map (fun kv => (english_key (fst kv), translate_dutch_value (snd kv))) r.
Proof.
  intros Hnd. unfold translate_record.
  by rewrite (fold_dict_set_fresh english_key translate_dutch_value r []).
Qed.

Lemma dict_get_entrywise {V W : Type} (f : string → string) (g : W → V)
  (r : dict W) (k : string) (v : W) :
  NoDup (map f (dict_keys r)) → (k, v) ∈ r →
  dict_get (f k) (map (fun kv => (f (fst kv), g (snd kv))) r) = Some (g v).
Proof.
  induction r as [|[k0 v0] r IH]; intros Hnd Hin.
  - by apply elem_of_nil in Hin.
  - cbn [dict_keys map fst snd dict_get] in *.
    apply NoDup_cons in Hnd as [Hk0 Hnd].
    apply elem_of_cons in Hin as [Heq|Hin].
    + injection Heq as -> ->. by rewrite String.eqb_refl.
    + destruct (String.eqb_spec (f k0) (f k)) as [Heq|_]; [|by apply IH].
      exfalso. apply Hk0. rewrite Heq.
      apply list_elem_of_In, in_map, in_map_iff.
      exists (k, v). split; [done|]. by apply list_elem_of_In.
Qed.

(** X8: when the renamed keys of a record are pairwise different, its
    translation is the record entry by entry, in the same order: each key
    renamed, each value translated; so the value found under the renamed
    key of an entry is the translation of that entry's value. *)
Theorem translate_record_entries (r : dict pyvalue) :
  NoDup (map english_key (dict_keys r)) →
  translate_record r
  = map (fun kv => (english_key (fst kv), translate_dutch_value (snd kv))) r
  ∧ (∀ k v, (k, v) ∈ r →
       dict_get (english_key k) (translate_record r)
       = Some (translate_dutch_value v)).
Proof.
  intros Hnd. rewrite translate_record_entrywise by done.
  split; [done|]. intros k v Hin. by apply dict_get_entrywise.
Qed.

Lemma translate_record_entries_witness :
  translate_record plain_record
  = [("license_plate", PyStr "AB12CD"); ("make", PyStr "VOLVO");
     ("onbekend_veld", PyInt 1)]
  ∧ dict_get (english_key "merk") (translate_record plain_record)
    = Some (translate_dutch_value (PyStr "VOLVO")).
Proof.
  assert (NoDup (map english_key (dict_keys plain_record))) as Hnd.
  { apply (bool_decide_unpack _). vm_compute. exact I. }
  destruct (translate_record_entries plain_record Hnd) as [Hmap Hget].
  split.
  - rewrite Hmap. reflexivity.
  - apply Hget. apply list_elem_of_In. simpl. tauto.
Defined.

(** Every value of the value table is left alone by the translation. *)
Lemma value_translations_fixed :
  Forall (fun kv => translate_dutch_value (PyStr (snd kv)) = PyStr (snd kv))
         value_translations.
Proof. repeat constructor. Qed.

(** No key of the value table begins with a digit. *)
Lemma value_translations_keys_no_digit :
  Forall (fun kv => match fst kv with
                    | String c _ => PyStr.isdigit_char c = false
                    | EmptyString => True
                    end)
         value_translations.
Proof. repeat constructor. Qed.

Lemma dashed_fixed (table : dict string) (s : string) :
  Forall (fun kv => match fst kv with
                    | String c _ => PyStr.isdigit_char c = false
                    | EmptyString => True
                    end) table →
  String.length s = 8%nat → PyStr.isdigit s = true →
  translate_dutch_value_in table (PyStr (dashed s)) = PyStr (dashed s).
Proof.
  intros Htable Hlen Hd.
  do 8 (destruct s as [|? s]; [done|]). destruct s; [|done].
  unfold PyStr.isdigit in Hd. cbn [PyStr.all_chars] in Hd.
  repeat match goal with
         | H : _ && _ = true |- _ => apply andb_true_iff in H as [? H]
         end.
  unfold dashed. cbn [substring]. 
  change (String ?a (String ?b (String ?c (String ?d "")))
          +:+ "-" +:+ String ?e (String ?f "") +:+ "-" +:+ String ?g (String ?h ""))
    with (String a (String b (String c (String d (String "-"
            (String e (String f (String "-" (String g (String h "")))))))))).
  unfold translate_dutch_value_in. cbn [py_str].
  assert (PyStr.strip
            (String a (String a0 (String a1 (String a2 (String "-"
               (String a3 (String a4 (String "-" (String a5 (String a6 ""))))))))))
          = String a (String a0 (String a1 (String a2 (String "-"
               (String a3 (String a4 (String "-" (String a5 (String a6 ""))))))))))
    as ->.
  { unfold PyStr.strip. cbn [PyStr.lstrip].
    rewrite (isdigit_not_space a) by done.
    apply rstrip_no_space. cbn [PyStr.all_chars].
    rewrite (isdigit_not_space a), (isdigit_not_space a0), (isdigit_not_space a1),
      (isdigit_not_space a2), (isdigit_not_space a3), (isdigit_not_space a4),
      (isdigit_not_space a5), (isdigit_not_space a6) by done.
    reflexivity. }
  change (PyStr.len _ =? 8) with false. cbn [andb].
  destruct (dict_get _ table) as [e|] eqn:E; [|done].
  apply dict_get_Some_elem in E.
  rewrite Forall_forall in Htable. specialize (Htable _ E). cbn [fst] in Htable.
  congruence.
Qed.

Lemma translate_dutch_value_idempotent_value (v : pyvalue) :
  translate_dutch_value (translate_dutch_value v) = translate_dutch_value v.
Proof.
  assert (∀ e, (∃ k, dict_get k value_translations = Some e) →
               translate_dutch_value (PyStr e) = PyStr e) as Hfixed.
  { intros e [k Hk]. apply dict_get_Some_elem in Hk.
    pose proof value_translations_fixed as H.
    rewrite Forall_forall in H. apply (H _ Hk). }
  remember (translate_dutch_value v) as w eqn:Hw.
  destruct v as [|s|z|b|r]; [by subst w|..].
  all: unfold translate_dutch_value, translate_dutch_value_in in Hw.
  all: match type of Hw with
       | context [PyStr.strip ?t] => set (str_value := PyStr.strip t) in Hw
       end.
  all: destruct ((PyStr.len str_value =? 8) && PyStr.isdigit str_value) eqn:E;
    [ apply andb_true_iff in E as [Hlen Hd]; subst w;
      change (translate_dutch_value_in value_translations (PyStr (dashed str_value))
              = PyStr (dashed str_value));
      apply (dashed_fixed value_translations str_value
               value_translations_keys_no_digit); [unfold PyStr.len in Hlen; lia|done]
    | destruct (dict_get str_value value_translations) as [e|] eqn:Hget; subst w;
      [ apply Hfixed; by exists str_value
      | unfold translate_dutch_value, translate_dutch_value_in;
        fold str_value; by rewrite E, Hget ] ].
Qed.

(** X9: translating a value twice gives the same as translating it once:
    the English words, the reformatted dates and the values passed through
    are all left alone by a second translation; a reformatted date in
    particular is never taken for a date or a Dutch word again. *)
Theorem translate_dutch_value_idempotent (v : pyvalue) (s : string) :
  translate_dutch_value (translate_dutch_value v) = translate_dutch_value v
  ∧ (String.length s = 8%nat → PyStr.isdigit s = true →
     translate_dutch_value (PyStr s) = PyStr (dashed s)
     ∧ translate_dutch_value (PyStr (dashed s)) = PyStr (dashed s)).
Proof.
  split; [apply translate_dutch_value_idempotent_value|].
  intros Hlen Hd. split.
  - unfold translate_dutch_value, translate_dutch_value_in. cbn [py_str].
    rewrite (strip_digits s Hd). unfold PyStr.len. rewrite Hlen, Hd. reflexivity.
  - by apply (dashed_fixed value_translations s value_translations_keys_no_digit).
Qed.

Lemma translate_dutch_value_idempotent_witness :
  translate_dutch_value (PyStr "20200101") = PyStr "2020-01-01"
  ∧ translate_dutch_value (PyStr "2020-01-01") = PyStr "2020-01-01".
Proof.
  destruct (translate_dutch_value_idempotent PyNone "20200101") as [_ H].
  apply H; reflexivity.
Defined.

(** Every canonical name is left alone by the key renaming. *)
Lemma english_key_idempotent (k : string) :
  english_key (english_key k) = english_key k.
Proof.
  unfold english_key at 2 3. unfold dict_get_default.
  destruct (dict_get k COLUMN_TRANSLATIONS) as [e|] eqn:E.
  - apply dict_get_Some_elem in E.
    pose proof COLUMN_TRANSLATIONS_values_fixed as H.
    rewrite Forall_forall in H. apply (H _ E).
  - unfold english_key, dict_get_default. by rewrite E.
Qed.

Lemma dict_set_entries {V : Type} (k k' : string) (v v' : V) (d : dict V) :
  (k', v') ∈ dict_set k v d → (k', v') = (k, v) ∨ (k', v') ∈ d.
Proof.
  induction d as [|[k0 v0] d IH]; cbn [dict_set].
  - intros H%list_elem_of_singleton. by left.
  - destruct (String.eqb_spec k0 k) as [->|_].
    + intros [->|H]%elem_of_cons; [by left|]. right. by apply list_elem_of_further.
    + intros [->|H]%elem_of_cons; [right; apply list_elem_of_here|].
      destruct (IH H) as [?|?]; [by left|]. right. by apply list_elem_of_further.
Qed.

(** Every entry of a translation comes from an entry of the record. *)
Lemma translate_record_entry_source (r : dict pyvalue) (k' : string) (v' : pyvalue) :
  (k', v') ∈ translate_record r →
  ∃ k v, (k, v) ∈ r ∧ k' = english_key k ∧ v' = translate_dutch_value v.
Proof.
  unfold translate_record.
  assert (∀ acc : dict pyvalue,
            (k', v') ∈ fold_left
               (fun translated kv =>
                  dict_set (english_key (fst kv)) (translate_dutch_value (snd kv))
                           translated) r acc →
            (k', v') ∈ acc
            ∨ ∃ k v, (k, v) ∈ r ∧ k' = english_key k ∧ v' = translate_dutch_value v)
    as H.
  { induction r as [|[k v] r IH]; intros acc Hin; [by left|].
    cbn [fold_left fst snd] in Hin.
    destruct (IH _ Hin) as [Hacc|(k0 & v0 & Hr & Hk & Hv)].
    - apply dict_set_entries in Hacc as [Heq|Hacc]; [|by left].
      injection Heq as -> ->. right. exists k, v.
      split; [apply list_elem_of_here|done].
    - right. exists k0, v0. split; [by apply list_elem_of_further|done]. }
  intros Hin. destruct (H [] Hin) as [Hnil|?]; [|done].
  by apply elem_of_nil in Hnil.
Qed.

(** X10: translating a translated record changes nothing: its keys are
    canonical names already and its values are translated already. *)
Theorem translate_record_idempotent (r : dict pyvalue) :
  translate_record (translate_record r) = translate_record r.
Proof.
  assert (∀ kv, kv ∈ translate_record r →
            (english_key (fst kv), translate_dutch_value (snd kv)) = kv) as Hfix.
  { intros [k' v'] Hin.
    destruct (translate_record_entry_source _ _ _ Hin) as (k & v & _ & -> & ->).
    cbn [fst snd].
    by rewrite english_key_idempotent, translate_dutch_value_idempotent_value. }
  rewrite translate_record_entrywise.
  - rewrite <- (map_id (translate_record r)) at 2.
    apply map_ext_in. intros kv Hin%list_elem_of_In. by apply Hfix.
  - assert (map english_key (dict_keys (translate_record r))
            = dict_keys (translate_record r)) as ->.
    { unfold dict_keys. rewrite map_map. apply map_ext_in.
      intros kv Hin%list_elem_of_In. by rewrite <- (Hfix kv Hin) at 2. }
    apply translate_record_wf.
Qed.

(** ** Category names *)

Lemma CATEGORY_TRANSLATIONS_agree :
  Forall (fun kv => translate_dutch_value (PyStr (fst kv)) = PyStr (snd kv))
         CATEGORY_TRANSLATIONS.
Proof. repeat constructor. Qed.

Lemma CATEGORY_TRANSLATIONS_values_fixed :
  Forall (fun kv => dict_get_default (snd kv) (snd kv) CATEGORY_TRANSLATIONS = snd kv)
         CATEGORY_TRANSLATIONS.
Proof. repeat constructor. Qed.

Lemma CATEGORY_TRANSLATIONS_back :
  Forall (fun kv => dutch_category_of (snd kv) = Some (fst kv))
         CATEGORY_TRANSLATIONS.
Proof. repeat constructor. Qed.

Lemma first_dutch_None (category : string) (items : dict string) :
  category ∉ dict_values items → first_dutch category items = None.
Proof.
  induction items as [|[d e] items IH]; [done|].
  cbn [dict_values map snd first_dutch]. intros [Hne Hin]%not_elem_of_cons.
  destruct (String.eqb_spec e category) as [->|_]; [done|]. by apply IH.
Qed.

(** X11: [translate_categories] keeps the number and order of the names;
    on every Dutch category of its table it gives the same English name as
    the value translation of records does; and translating the translated
    names again changes nothing. *)
Theorem translate_categories_agree (categories : list string) :
  length (translate_categories categories) = length categories
  ∧ (Forall (fun cat => cat ∈ dict_keys CATEGORY_TRANSLATIONS) categories →
     map PyStr (translate_categories categories)
     = map (fun cat => translate_dutch_value (PyStr cat)) categories)
  ∧ translate_categories (translate_categories categories)
    = translate_categories categories.
Proof.
  unfold translate_categories. split_and!.
  - apply length_map.
  - intros Hall. rewrite map_map. apply map_ext_in.
    intros cat Hin%list_elem_of_In. rewrite Forall_forall in Hall.
    specialize (Hall _ Hin). unfold dict_get_default.
    destruct (dict_get cat CATEGORY_TRANSLATIONS) as [e|] eqn:E.
    + apply dict_get_Some_elem in E.
      pose proof CATEGORY_TRANSLATIONS_agree as H.
      rewrite Forall_forall in H. symmetry. apply (H _ E).
    + by apply dict_get_None_keys in E.
  - rewrite map_map. apply map_ext. intros cat.
    destruct (dict_get cat CATEGORY_TRANSLATIONS) as [e|] eqn:E.
    + assert (dict_get_default cat cat CATEGORY_TRANSLATIONS = e) as ->.
      { unfold dict_get_default. by rewrite E. }
      apply dict_get_Some_elem in E.
      pose proof CATEGORY_TRANSLATIONS_values_fixed as H.
      rewrite Forall_forall in H. apply (H _ E).
    + assert (dict_get_default cat cat CATEGORY_TRANSLATIONS = cat) as Hc.
      { unfold dict_get_default. by rewrite E. }
      by rewrite !Hc.
Qed.

Lemma translate_categories_agree_witness :
  map PyStr (translate_categories ["Personenauto"; "Bus"])
  = map (fun cat => translate_dutch_value (PyStr cat)) ["Personenauto"; "Bus"].
Proof.
  destruct (translate_categories_agree ["Personenauto"; "Bus"]) as (_ & H & _).
  apply H. repeat constructor; apply list_elem_of_In; vm_compute; tauto.
Defined.

(** X12: the category shown in the form leads back to the Dutch category
    it came from: for a non-empty Dutch name that is in the table, or that
    is not the English name of any category, [query_records] filters on
    that very name after [translate_categories] has translated it; an
    empty choice gives no category filter. *)
Theorem category_round_trip (upper : string → string) (dutch : string)
  (license_plate brand model date_from date_to : option string) (recent : bool) :
  dutch ≠ "" →
  dutch ∈ dict_keys CATEGORY_TRANSLATIONS
  ∨ dutch ∉ dict_values CATEGORY_TRANSLATIONS →
  let shown := dict_get_default dutch dutch CATEGORY_TRANSLATIONS in
  translate_categories [dutch] = [shown]
  ∧ dutch_category_of shown = Some dutch
  ∧ dict_get "voertuigsoort"
      (build_filters upper (dutch_category_of shown) license_plate brand model
                     date_from date_to recent) = Some dutch
  ∧ dutch_category_of "" = None.
Proof.
  intros Hne Hcase shown.
  assert (dutch_category_of shown = Some dutch) as Hback.
  { subst shown. unfold dict_get_default.
    destruct (dict_get dutch CATEGORY_TRANSLATIONS) as [e|] eqn:E.
    - apply dict_get_Some_elem in E.
      pose proof CATEGORY_TRANSLATIONS_back as H.
      rewrite Forall_forall in H. apply (H _ E).
    - destruct Hcase as [Hin|Hnin]; [by apply dict_get_None_keys in E|].
      unfold dutch_category_of, get_category_translation_map.
      rewrite (first_dutch_None _ _ Hnin).
      by destruct (String.eqb_spec dutch "") as [->|_]. }
  split_and!; [done|done| |done].
  rewrite Hback.
  assert (given (Some dutch) = Some dutch) as Hg.
  { cbn [given]. by destruct (String.eqb_spec dutch "") as [->|_]. }
  destruct recent; unfold build_filters, date_conditions_of; rewrite Hg;
    repeat match goal with
           | |- context [given ?x] => destruct (given x)
           end; reflexivity.
Qed.

Lemma category_round_trip_witness :
  dutch_category_of "Passenger car" = Some "Personenauto"
  ∧ dutch_category_of "Kampeerwagen" = Some "Kampeerwagen".
Proof.
  pose proof (category_round_trip ascii_upper "Personenauto" None None None None None
                false) as H.
  pose proof (category_round_trip ascii_upper "Kampeerwagen" None None None None None
                false) as H'.
  cbv zeta in H, H'. split.
  - apply H; [discriminate|]. left.
    apply (bool_decide_unpack _). vm_compute. exact I.
  - apply H'; [discriminate|]. right.
    apply (bool_decide_unpack _). vm_compute. exact I.
Defined.

(** ** Web front end *)

(** X13: whatever the form sends and whatever [int] makes of it, the limit
    used by the web pages lies between 1 and 10000: a missing, empty or
    unreadable value gives 50, a readable one is clamped to the range. *)
Theorem parse_limit_bounds (py_int : string → option Z) (raw : option string) :
  1 ≤ parse_limit py_int raw ≤ MAX_WEB_LIMIT
  ∧ MAX_WEB_LIMIT = 10000
  ∧ (given raw = None → parse_limit py_int raw = 50)
  ∧ (∀ text, given raw = Some text → py_int text = None →
       parse_limit py_int raw = 50)
  ∧ (∀ text value, given raw = Some text → py_int text = Some value →
       parse_limit py_int raw
       = if value <? 1 then 1 else if 10000 <? value then 10000 else value).
Proof.
  unfold parse_limit, MAX_WEB_LIMIT. split_and!.
  - destruct (given raw) as [text|]; [destruct (py_int text)|]; lia.
  - destruct (given raw) as [text|]; [destruct (py_int text)|]; lia.
  - done.
  - by intros ->.
  - by intros text -> ->.
  - intros text value -> ->.
    destruct (Z.ltb_spec value 1); [lia|].
    destruct (Z.ltb_spec 10000 value); lia.
Qed.

Lemma parse_limit_bounds_witness :
  parse_limit (fun _ => Some 250000) (Some "250000") = 10000
  ∧ parse_limit (fun _ => None) (Some "abc") = 50
  ∧ parse_limit (fun _ => None) (Some "") = 50.
Proof.
  destruct (parse_limit_bounds (fun _ => Some 250000) (Some "250000"))
    as (_ & _ & _ & _ & Hval).
  destruct (parse_limit_bounds (fun _ => None) (Some "abc")) as (_ & _ & _ & Hbad & _).
  destruct (parse_limit_bounds (fun _ => None) (Some "")) as (_ & _ & Hnone & _).
  split_and!.
  - apply (Hval "250000" 250000); reflexivity.
  - apply (Hbad "abc"); reflexivity.
  - apply Hnone. reflexivity.
Defined.

(** A limit no larger than the page size is served by one request. *)
Lemma fetch_single_page {S : Type} (respond : S → request → response * S)
  (l page_size : Z) (filters : dict string) (app_token : option string)
  (timeout : pyvalue) (fuel : nat) (st st1 : S) (status : Z) (rows : list row) :
  0 < l ≤ page_size → (0 < fuel)%nat →
  respond st (fetch_request page_size filters app_token timeout 0)
  = (Replied status rows, st1) →
  (400 <=? status) && (status <? 600) = false →
  fetch_rdw_data respond (Some l) page_size filters app_token timeout fuel st
  = (EvRequest (fetch_request page_size filters app_token timeout 0)
       :: map EvYield (take (Z.to_nat l) rows),
     Finished, st1).
Proof.
  intros Hl Hfuel Hr Hs. destruct fuel as [|fuel]; [lia|].
  unfold fetch_rdw_data. destruct rows as [|r rows].
  { simpl. rewrite Hr, Hs. by rewrite take_nil. }
  rewrite (fetch_loop_reply respond (Some l) page_size filters app_token timeout
             fuel st 0 0 status (r :: rows) st1 Hr Hs); [|done].
  destruct (yield_rows (Some l) (r :: rows) 0) as [[ys f1] ret] eqn:E.
  destruct (yield_rows_limit l _ _ (proj1 Hl) _ _ _ E) as (Hpre & Hf & Hyes & Hno).
  rewrite list_len_length in Hf.
  destruct ret.
  - destruct (Hyes eq_refl) as (Hf1 & _).
    assert (ys = take (Z.to_nat l) (r :: rows)) as ->; [|done].
    destruct Hpre as [k ->].
    replace (Z.to_nat l) with (length ys) by lia.
    by rewrite take_app_length.
  - destruct (Hno eq_refl) as (Hlt & ->).
    assert (limit_reached (Some l) f1 = false) as -> by (apply Z.leb_gt; lia).
    rewrite list_len_length.
    assert ((Z.of_nat (length (r :: rows)) <? page_size) = true) as ->
      by (apply Z.ltb_lt; lia).
    rewrite take_ge by lia. done.
Qed.

Lemma query_fold (rows : list row) (acc : list (dict pyvalue)) (n : Z) :
  fold_left
    (fun acc record => (fst acc ++ [translate_record record], snd acc + 1))
    rows (acc, n)
  = (acc ++ map translate_record rows, n + Z.of_nat (length rows)).
Proof.
  revert acc n. induction rows as [|r rows IH]; intros acc n.
  - cbn [fold_left map length]. by rewrite app_nil_r, Z.add_0_r.
  - cbn [fold_left fst snd map length]. rewrite IH, <- app_assoc.
    f_equal. lia.
Qed.

(** X14: for a limit between 1 and the web maximum, [query_records] makes
    exactly one call to the endpoint, the page request at offset 0 with
    the filters built from the form.  On a successful reply it returns the
    translations of the first [limit] rows of that page, in order, with
    their number as total; on a refused connection or an error status it
    raises its error message, with the token hint for status 403 only, and
    returns no record. *)
Theorem query_records_single_page {S : Type} (respond : S → request → response * S)
  (upper : string → string) (env_token : option string) (fuel : nat) (st : S)
  (category license_plate : string) (limit : Z) (timeout : pyvalue)
  (brand model date_from date_to : string) (order_by_recent : bool) :
  0 < limit ≤ MAX_WEB_LIMIT → (0 < fuel)%nat →
  let req :=
    fetch_request DEFAULT_PAGE_SIZE
      (build_filters upper (dutch_category_of category) (or_none license_plate)
                     (or_none brand) (or_none model) (or_none date_from)
                     (or_none date_to) order_by_recent)
      env_token timeout 0 in
  let result :=
    query_records respond upper env_token fuel st category license_plate limit
                  timeout brand model date_from date_to order_by_recent in
  snd result = snd (respond st req)
  ∧ fst result
    = match fst (respond st req) with
      | ConnectionFailed => QueryFailed "RDW API request failed."
      | Replied status rows =>
          if (400 <=? status) && (status <? 600) then
            QueryFailed
              (if status =? 403
               then "RDW API access error. Please use a Socrata app token. Set it like this: export RDW_APP_TOKEN='your_token_here'"
               else "RDW API access error.")
          else
            QueryOk (map translate_record (take (Z.to_nat limit) rows))
                    (Z.min limit (Z.of_nat (length rows)))
      end.
Proof.
  intros Hl Hfuel req result. subst result. unfold query_records.
  change (resolve_app_token env_token None) with env_token. fold req.
  rewrite query_fold. cbn [app fst snd].
  unfold run_trace, run_ending, run_state.
  destruct fuel as [|fuel]; [lia|].
  destruct (respond st req) as [[|status rows] st1] eqn:Hr; cbn [fst snd].
  - unfold fetch_rdw_data. simpl fetch_loop. fold req. by rewrite Hr.
  - destruct ((400 <=? status) && (status <? 600)) eqn:Hs.
    + unfold fetch_rdw_data. simpl fetch_loop. fold req. rewrite Hr, Hs.
      cbn [fst snd]. split; [done|]. by destruct (status =? 403).
    + unfold MAX_WEB_LIMIT in Hl.
      rewrite (fetch_single_page respond limit DEFAULT_PAGE_SIZE _ env_token timeout
                 (Datatypes.S fuel) st st1 status rows);
        [|unfold DEFAULT_PAGE_SIZE; lia|done..].
      cbn [fst snd]. rewrite yielded_of_here.
      split; [done|]. f_equal. rewrite length_take. lia.
Qed.

Lemma query_records_single_page_witness :
  fst (query_records replaying ascii_upper None 1 
         [Replied 200 [plate_row "ab12cd"; plate_row "ef34gh"]]
         "" "" 1 (PyFloat "30.0") "" "" "" "" false)
  = QueryOk [[("license_plate", PyStr "ab12cd")]] 1.
Proof.
  pose proof (query_records_single_page replaying ascii_upper None 1
                [Replied 200 [plate_row "ab12cd"; plate_row "ef34gh"]]
                "" "" 1 (PyFloat "30.0") "" "" "" "" false) as H.
  cbv zeta in H. destruct H as [_ H].
  - unfold MAX_WEB_LIMIT. lia.
  - lia.
  - rewrite H. reflexivity.
Defined.

(** X15: the chunks streamed by [download_csv] are the header line and
    then one line per record, and put together they are the very lines the
    command line writes to its CSV file for the same records. *)
Theorem download_csv_same_as_cli (raw_records : list row) :
  download_csv_chunks (map translate_record raw_records)
  = [map PyStr CSV_FIELDNAMES]
      :: map (fun r => [csv_line CSV_FIELDNAMES (translate_record r)]) raw_records
  ∧ concat (download_csv_chunks (map translate_record raw_records))
    = main_csv raw_records.
Proof.
  assert (∀ (records : list (dict pyvalue)) (w : DictWriter)
            (chunks : list (list (list pyvalue))),
            fieldnames w = CSV_FIELDNAMES → written w = [] →
            snd (fold_left
                   (fun acc row =>
                      let writer := writerow (csv_rowdict row) (fst acc) in
                      (truncate writer, snd acc ++ [written writer]))
                   records (w, chunks))
            = chunks ++ map (fun row => [csv_line CSV_FIELDNAMES row]) records)
    as Hfold.
  { induction records as [|row records IH]; intros w chunks Hw Hempty.
    - cbn. by rewrite app_nil_r.
    - cbn [fold_left fst snd map]. rewrite writerow_csv_rowdict by done.
      rewrite IH by done. cbn [written]. rewrite Hempty.
      by rewrite <- app_assoc. }
  assert (download_csv_chunks (map translate_record raw_records)
          = [map PyStr CSV_FIELDNAMES]
              :: map (fun r => [csv_line CSV_FIELDNAMES (translate_record r)])
                     raw_records) as Hchunks.
  { unfold download_csv_chunks. rewrite Hfold by done.
    cbn [app]. by rewrite map_map. }
  split; [done|]. rewrite Hchunks.
  unfold main_csv. rewrite main_csv_from by done.
  assert (∀ rs : list row,
            concat (map (fun r => [csv_line CSV_FIELDNAMES (translate_record r)]) rs)
            = map (fun r => csv_line CSV_FIELDNAMES (translate_record r)) rs)
    as Hconcat.
  { induction rs as [|r rs IH]; [done|]. cbn [map concat app]. by rewrite IH. }
  cbn [concat]. by rewrite Hconcat.
Qed.

(** ** Command line *)

(** The loop of [main], from any state it can be in. *)
Lemma main_loop_from (args : cli_args) (rows : list row) (s0 : main_state) :
  0 ≤ preview_count s0 →
  let s := fold_left (main_step args) rows s0 in
  let shown := take (Z.to_nat (arg_preview args - preview_count s0)) rows in
  total s = total s0 + Z.of_nat (length rows)
  ∧ printed s = printed s0 ++ map translate_record shown
  ∧ preview_count s = preview_count s0 + Z.of_nat (length shown)
  ∧ translated_for_excel s
    = translated_for_excel s0
      ++ match given (arg_excel_path args) with
         | Some _ => map translate_record rows
         | None => []
         end
  ∧ csv_writer s
    = option_map
        (fun w =>
           fold_left
             (fun w record => writerow (csv_rowdict (translate_record record)) w)
             rows w)
        (csv_writer s0).
Proof.
  revert s0. induction rows as [|r rows IH]; intros s0 Hc.
  - cbn [fold_left length map]. rewrite take_nil. cbn [map length].
    rewrite !app_nil_r, !Z.add_0_r. split_and!; try done.
    + by destruct (given (arg_excel_path args)); rewrite app_nil_r.
    + by destruct (csv_writer s0).
  - cbn [fold_left].
    set (s1 := main_step args s0 r).
    assert (0 ≤ preview_count s1) as Hc1.
    { subst s1. cbn [main_step preview_count].
      destruct (negb (arg_preview args =? 0)
                && (preview_count s0 <? arg_preview args)); lia. }
    destruct (IH s1 Hc1) as (Ht & Hp & Hn & Hx & Hw).
    cbv zeta. rewrite Ht, Hp, Hn, Hx, Hw. subst s1.
    cbn [main_step total preview_count printed translated_for_excel csv_writer].
    destruct (negb (arg_preview args =? 0)
              && (preview_count s0 <? arg_preview args)) eqn:Hprev.
    + apply andb_true_iff in Hprev as [_ Hlt]. apply Z.ltb_lt in Hlt.
      replace (Z.to_nat (arg_preview args - preview_count s0))
        with (Datatypes.S (Z.to_nat (arg_preview args - (preview_count s0 + 1))))
        by lia.
      cbn [take map length]. rewrite <- !app_assoc. cbn [app].
      split_and!; try done; try lia.
      * destruct (given (arg_excel_path args)); [|done].
        by rewrite <- app_assoc.
      * by destruct (csv_writer s0).
    + assert (Z.to_nat (arg_preview args - preview_count s0) = 0%nat) as ->.
      { apply andb_false_iff in Hprev as [Hz|Hge].
        - apply negb_false_iff, Z.eqb_eq in Hz. lia.
        - apply Z.ltb_ge in Hge. lia. }
      cbn [take map length]. rewrite !app_nil_r.
      split_and!; try done; try lia.
      * destruct (given (arg_excel_path args)); [|done].
        by rewrite <- app_assoc.
      * by destruct (csv_writer s0).
Qed.

(** The loop of [main], from its initial state. *)
Lemma main_loop (args : cli_args) (rows : list row) (opened : option DictWriter) :
  let s :=
    fold_left (main_step args) rows
      {| total := 0; preview_count := 0; printed := [];
         translated_for_excel := []; csv_writer := opened |} in
  let shown := take (Z.to_nat (arg_preview args)) rows in
  total s = Z.of_nat (length rows)
  ∧ printed s = map translate_record shown
  ∧ preview_count s = Z.of_nat (length shown)
  ∧ translated_for_excel s
    = match given (arg_excel_path args) with
      | Some _ => map translate_record rows
      | None => []
      end
  ∧ csv_writer s
    = option_map
        (fun w =>
           fold_left
             (fun w record => writerow (csv_rowdict (translate_record record)) w)
             rows w)
        opened.
Proof.
  pose proof (main_loop_from args rows
                {| total := 0; preview_count := 0; printed := [];
                   translated_for_excel := []; csv_writer := opened |}) as H.
  cbn [total preview_count printed translated_for_excel csv_writer] in H.
  rewrite Z.sub_0_r in H. apply H. lia.
Qed.

(** Either no output is selected, or some output is. *)
Lemma classic_or_selected (args : cli_args) :
  (given (arg_excel_path args) = None ∧ given (arg_csv_path args) = None
   ∧ arg_preview args = 0)
  ∨ (given (arg_excel_path args) ≠ None ∨ given (arg_csv_path args) ≠ None
     ∨ arg_preview args ≠ 0).
Proof.
  destruct (given (arg_excel_path args)); [right; by left|].
  destruct (given (arg_csv_path args)); [right; right; by left|].
  destruct (Z.eq_dec (arg_preview args) 0); [by left|right; right; by right].
Qed.

(** What [main] leaves behind once it goes on to fetch. *)
Lemma main_running {S FS E : Type} (respond : S → request → response * S)
  (upper : string → string) (env_token : option string)
  (pd : option (pandas FS E)) (fuel : nat) (args : cli_args) (st : S) (fs : FS) :
  arg_show_columns args = false →
  given (arg_excel_path args) ≠ None ∨ given (arg_csv_path args) ≠ None
  ∨ arg_preview args ≠ 0 →
  let run :=
    fetch_rdw_data respond (arg_limit args) (arg_page_size args)
      (build_filters upper (arg_category args) (arg_license_plate args)
                     None None None None false)
      (resolve_app_token env_token (arg_app_token args)) (arg_timeout args)
      fuel st in
  let rows := yielded_of (run_trace run) in
  let out := main respond upper env_token pd fuel args st fs in
  out_requests out = requests_of (run_trace run)
  ∧ out_total out = Z.of_nat (length rows)
  ∧ out_printed out
    = map translate_record (take (Z.to_nat (arg_preview args)) rows)
  ∧ out_preview_count out
    = Z.of_nat (length (take (Z.to_nat (arg_preview args)) rows))
  ∧ out_csv out
    = match given (arg_csv_path args) with
      | Some _ => Some (main_csv rows)
      | None => None
      end
  ∧ (exit_code out, out_fs out)
    = match run_ending run with
      | Raised _ => (Some 1, fs)
      | OutOfFuel => (None, fs)
      | Finished =>
          match given (arg_excel_path args) with
          | Some path =>
              let exported := main_excel pd rows path fs in
              (Some (match fst exported with Some _ => 1 | None => 0 end), snd exported)
          | None => (Some 0, fs)
          end
      end.
Proof.
  intros Hshow Hsel run rows out. subst out. unfold main. rewrite Hshow.
  fold run. fold rows.
  assert (∀ opened : option DictWriter,
            option_map written
              (option_map
                 (fun w =>
                    fold_left
                      (fun w record =>
                         writerow (csv_rowdict (translate_record record)) w)
                      rows w) opened)
            = match opened with
              | Some w =>
                  Some (written
                          (fold_left
                             (fun w record =>
                                writerow (csv_rowdict (translate_record record)) w)
                             rows w))
              | None => None
              end) as Hcsv by (by intros [w|]).
  destruct (given (arg_excel_path args)) as [path|] eqn:Hx;
    destruct (given (arg_csv_path args)) as [csv_path|] eqn:Hc;
    destruct (arg_preview args =? 0) eqn:Hp;
    try (apply Z.eqb_eq in Hp; exfalso; tauto);
    cbv beta iota zeta;
    match goal with
    | |- context [fold_left (main_step args) rows
                    {| total := 0; preview_count := 0; printed := [];
                       translated_for_excel := []; csv_writer := ?opened |}] =>
        destruct (main_loop args rows opened) as (Ht & Hpr & Hn & Hbuf & Hw)
    end;
    rewrite Hx in Hbuf;
    unfold main_excel;
    destruct (run_ending run);
    rewrite ?Hbuf;
    try destruct (map translate_record rows) as [|t ts] eqn:Hrows;
    try destruct (export_to_excel pd (t :: ts) path fs) as [[e|] fs'];
    cbn [exit_code out_requests out_printed out_csv out_fs out_total
         out_preview_count fst snd];
    rewrite ?Ht, ?Hpr, ?Hn, ?Hw, ?Hcsv; done.
Qed.

(** X16: with [--show-columns], or with no output selected (no Excel
    path, no CSV path and a preview of 0), [main] returns at once: it sends
    no request, opens no CSV file and writes no spreadsheet.  The exit
    code is 0 in the first case and 2 in the second, and 2 is returned in
    no other case. *)
Theorem main_returns_early {S FS E : Type} (respond : S → request → response * S)
  (upper : string → string) (env_token : option string)
  (pd : option (pandas FS E)) (fuel : nat) (args : cli_args) (st : S) (fs : FS) :
  let out := main respond upper env_token pd fuel args st fs in
  let unselected :=
    given (arg_excel_path args) = None ∧ given (arg_csv_path args) = None
    ∧ arg_preview args = 0 in
  (arg_show_columns args = true → exit_code out = Some 0)
  ∧ (exit_code out = Some 2 ↔ arg_show_columns args = false ∧ unselected)
  ∧ (arg_show_columns args = true ∨ unselected →
     out_requests out = [] ∧ out_printed out = [] ∧ out_csv out = None
     ∧ out_fs out = fs ∧ out_total out = 0).
Proof.
  intros out unselected.
  destruct (arg_show_columns args) eqn:Hshow.
  { subst out. unfold main. rewrite Hshow.
    cbn [exit_code out_requests out_printed out_csv out_fs out_total].
    split; [done|]. split; [|done]. split; [done|]. by intros [? _]. }
  destruct (classic_or_selected args) as [Hun|Hsel].
  - destruct Hun as (Hx & Hc & Hp).
    subst out. unfold main. rewrite Hshow, Hx, Hc, Hp.
    cbn [Z.eqb exit_code out_requests out_printed out_csv out_fs out_total].
    split; [done|]. split; [|done]. split; [|done].
    intros _. split; [done|]. by subst unselected.
  - destruct (main_running respond upper env_token pd fuel args st fs Hshow Hsel)
      as (_ & _ & _ & _ & _ & Hexit).
    fold out in Hexit.
    assert (exit_code out ≠ Some 2) as Hne.
    { intros Heq. rewrite Heq in Hexit. revert Hexit.
      destruct (run_ending _); [|done|done].
      destruct (given (arg_excel_path args)); [|done].
      cbv zeta. by destruct (fst _). }
    assert (¬ unselected) as Hnot by (subst unselected; tauto).
    split_and!; [done| |].
    + split; [done|]. by intros [_ ?].
    + by intros [?|?].
Qed.

Lemma main_returns_early_witness :
  exit_code (main replaying ascii_upper None (Some recording_pandas) 5
               no_output_args [Replied 200 [plate_row "R1"]] [])
  = Some 2
  ∧ out_requests (main replaying ascii_upper None (Some recording_pandas) 5
                    no_output_args [Replied 200 [plate_row "R1"]] [])
    = [].
Proof.
  pose proof (main_returns_early replaying ascii_upper None (Some recording_pandas)
                5 no_output_args [Replied 200 [plate_row "R1"]] [])
    as H.
  cbv zeta in H. destruct H as (_ & Hexit & Hquiet). split.
  - apply Hexit. repeat split; reflexivity.
  - apply Hquiet. right. repeat split; reflexivity.
Defined.

(** X17: once [main] goes on to fetch, and however the fetch ends, the
    total is the number of records received, the preview shows the
    translations of the first [preview] records (none for a negative
    preview) and its counter is their number, and the CSV file, if one was
    asked for, holds the header line and one line per record received, so
    that after a failed fetch it keeps the records received before the
    failure. *)
Theorem main_streams {S FS E : Type} (respond : S → request → response * S)
  (upper : string → string) (env_token : option string)
  (pd : option (pandas FS E)) (fuel : nat) (args : cli_args) (st : S) (fs : FS) :
  arg_show_columns args = false →
  given (arg_excel_path args) ≠ None ∨ given (arg_csv_path args) ≠ None
  ∨ arg_preview args ≠ 0 →
  let run :=
    fetch_rdw_data respond (arg_limit args) (arg_page_size args)
      (build_filters upper (arg_category args) (arg_license_plate args)
                     None None None None false)
      (resolve_app_token env_token (arg_app_token args)) (arg_timeout args)
      fuel st in
  let rows := yielded_of (run_trace run) in
  let out := main respond upper env_token pd fuel args st fs in
  out_requests out = requests_of (run_trace run)
  ∧ out_total out = Z.of_nat (length rows)
  ∧ out_printed out
    = map translate_record (take (Z.to_nat (arg_preview args)) rows)
  ∧ out_preview_count out = Z.of_nat (length (out_printed out))
  ∧ out_preview_count out = Z.min (Z.max 0 (arg_preview args)) (out_total out)
  ∧ out_csv out
    = match given (arg_csv_path args) with
      | Some _ =>
          Some (map PyStr CSV_FIELDNAMES
                  :: map (fun r => csv_line CSV_FIELDNAMES (translate_record r))
                         rows)
      | None => None
      end.
Proof.
  intros Hshow Hsel run rows out.
  destruct (main_running respond upper env_token pd fuel args st fs Hshow Hsel)
    as (Hreq & Ht & Hpr & Hn & Hcsv & _).
  fold run rows out in Hreq, Ht, Hpr, Hn, Hcsv.
  split_and!; try done.
  - by rewrite Hn, Hpr, length_map.
  - rewrite Hn, Ht, length_take. lia.
  - rewrite Hcsv. destruct (given (arg_csv_path args)); [|done].
    unfold main_csv. by rewrite main_csv_from.
Qed.

Lemma main_streams_witness :
  out_total (main replaying ascii_upper None (Some recording_pandas) 5 sample_args
               [Replied 200 [plate_row "R1"; plate_row "R2"];
                Replied 200 [plate_row "R3"]] [])
  = 3
  ∧ out_printed (main replaying ascii_upper None (Some recording_pandas) 5
                   sample_args
                   [Replied 200 [plate_row "R1"; plate_row "R2"];
                    Replied 200 [plate_row "R3"]] [])
    = [[("license_plate", PyStr "R1")]].
Proof.
  pose proof (main_streams replaying ascii_upper None (Some recording_pandas) 5
                sample_args
                [Replied 200 [plate_row "R1"; plate_row "R2"];
                 Replied 200 [plate_row "R3"]] []) as H.
  cbv zeta in H. destruct H as (_ & Ht & Hpr & _).
  - reflexivity.
  - left. discriminate.
  - split; [rewrite Ht|rewrite Hpr]; reflexivity.
Defined.

(** X18: once [main] goes on to fetch, a failed fetch gives exit code 1
    and leaves the spreadsheet files untouched, whatever was buffered.  A
    completed fetch with an Excel path exports the translations of all
    records received, skipping the export when there are none, and gives
    exit code 1 if the export fails and 0 otherwise; without an Excel path
    it gives 0 and writes no spreadsheet. *)
Theorem main_exit_code {S FS E : Type} (respond : S → request → response * S)
  (upper : string → string) (env_token : option string)
  (pd : option (pandas FS E)) (fuel : nat) (args : cli_args) (st : S) (fs : FS) :
  arg_show_columns args = false →
  given (arg_excel_path args) ≠ None ∨ given (arg_csv_path args) ≠ None
  ∨ arg_preview args ≠ 0 →
  let run :=
    fetch_rdw_data respond (arg_limit args) (arg_page_size args)
      (build_filters upper (arg_category args) (arg_license_plate args)
                     None None None None false)
      (resolve_app_token env_token (arg_app_token args)) (arg_timeout args)
      fuel st in
  let rows := yielded_of (run_trace run) in
  let out := main respond upper env_token pd fuel args st fs in
  (∀ e, run_ending run = Raised e → exit_code out = Some 1 ∧ out_fs out = fs)
  ∧ (run_ending run = Finished → given (arg_excel_path args) = None →
     exit_code out = Some 0 ∧ out_fs out = fs)
  ∧ (∀ path, run_ending run = Finished →
       given (arg_excel_path args) = Some path →
       (rows = [] → exit_code out = Some 0 ∧ out_fs out = fs)
       ∧ (rows ≠ [] →
          out_fs out
          = snd (export_to_excel pd (map translate_record rows) path fs)
          ∧ exit_code out
            = Some (match fst (export_to_excel pd (map translate_record rows)
                                               path fs) with
                    | Some _ => 1
                    | None => 0
                    end))).
Proof.
  intros Hshow Hsel run rows out.
  destruct (main_running respond upper env_token pd fuel args st fs Hshow Hsel)
    as (_ & _ & _ & _ & _ & Hexit).
  fold run rows out in Hexit.
  split_and!.
  - intros e He. rewrite He in Hexit. by inversion Hexit.
  - intros He Hx. rewrite He, Hx in Hexit. by inversion Hexit.
  - intros path He Hx. rewrite He, Hx in Hexit. cbv zeta in Hexit.
    unfold main_excel in Hexit. split.
    + intros Hrows. rewrite Hrows in Hexit. by inversion Hexit.
    + intros Hrows. destruct rows as [|r rows']; [done|].
      cbn [map] in Hexit |- *. by inversion Hexit.
Qed.

Lemma main_exit_code_witness :
  exit_code (main replaying ascii_upper None (Some recording_pandas) 5 sample_args
               [Replied 200 [plate_row "R1"; plate_row "R2"]; Replied 500 []] [])
  = Some 1
  ∧ out_fs (main replaying ascii_upper None (Some recording_pandas) 5 sample_args
              [Replied 200 [plate_row "R1"; plate_row "R2"]; Replied 500 []] [])
    = [].
Proof.
  pose proof (main_exit_code replaying ascii_upper None (Some recording_pandas) 5
                sample_args
                [Replied 200 [plate_row "R1"; plate_row "R2"]; Replied 500 []] [])
    as H.
  cbv zeta in H. destruct H as (Hfail & _).
  - reflexivity.
  - left. discriminate.
  - apply (Hfail (HTTPError 500)). reflexivity.
Defined.

(** ** Brand list *)

Lemma rstrip_idempotent (s : string) : PyStr.rstrip (PyStr.rstrip s) = PyStr.rstrip s.
Proof.
  induction s as [|c s IH]; [done|].
  cbn [PyStr.rstrip]. destruct (PyStr.rstrip s) as [|d r] eqn:E.
  - destruct (PyStr.isspace_char c) eqn:Hc; [done|].
    cbn [PyStr.rstrip]. by rewrite Hc.
  - change (PyStr.rstrip (String c (String d r)))
      with (match PyStr.rstrip (String d r) with
            | EmptyString =>
                if PyStr.isspace_char c then EmptyString else String c EmptyString
            | r' => String c r'
            end).
    by rewrite IH.
Qed.

Lemma rstrip_head (c : ascii) (s : string) :
  PyStr.isspace_char c = false →
  PyStr.rstrip (String c s) = String c (PyStr.rstrip s).
Proof.
  intros Hc. cbn [PyStr.rstrip]. rewrite Hc. by destruct (PyStr.rstrip s).
Qed.

Lemma strip_idempotent (s : string) : PyStr.strip (PyStr.strip s) = PyStr.strip s.
Proof.
  unfold PyStr.strip.
  assert (PyStr.lstrip s = EmptyString
          ∨ ∃ c t, PyStr.lstrip s = String c t ∧ PyStr.isspace_char c = false)
    as [->|(c & t & -> & Hc)].
  { induction s as [|c s IH]; [by left|].
    cbn [PyStr.lstrip]. destruct (PyStr.isspace_char c) eqn:Hc; [done|].
    right. by exists c, s. }
  - done.
  - rewrite (rstrip_head c t Hc). cbn [PyStr.lstrip]. rewrite Hc.
    rewrite (rstrip_head c _ Hc). by rewrite rstrip_idempotent.
Qed.

Lemma collect_brands_spec (data : list row) (acc : list string) :
  match collect_brands data acc with
  | Some brands =>
      ∃ new, brands = acc ++ new
      ∧ (∀ b, b ∈ new ↔
              ∃ item s, item ∈ data ∧ dict_get "merk" item = Some (PyStr s)
                        ∧ PyStr.strip s = b ∧ b ≠ "")
      ∧ ∀ item v, item ∈ data → dict_get "merk" item = Some v →
                  py_truthy v = true → ∃ s, v = PyStr s
  | None =>
      ∃ item v, item ∈ data ∧ dict_get "merk" item = Some v
                ∧ py_truthy v = true ∧ ∀ s, v ≠ PyStr s
  end.
Proof.
  revert acc. induction data as [|item rest IH]; intros acc.
  - cbn [collect_brands]. exists []. rewrite app_nil_r. split_and!; [done| |].
    + intros b. rewrite elem_of_nil. split; [done|].
      intros (item & s & Hin & _). by apply elem_of_nil in Hin.
    + intros item v Hin. by apply elem_of_nil in Hin.
  - assert (∀ acc',
              (∀ s, dict_get "merk" item = Some (PyStr s) →
                    PyStr.strip s = "") →
              (∀ v, dict_get "merk" item = Some v → py_truthy v = true →
                    ∃ s, v = PyStr s) →
              match collect_brands rest acc' with
              | Some brands =>
                  ∃ new, brands = acc' ++ new
                  ∧ (∀ b, b ∈ new ↔
                          ∃ item0 s, item0 ∈ item :: rest
                                     ∧ dict_get "merk" item0 = Some (PyStr s)
                                     ∧ PyStr.strip s = b ∧ b ≠ "")
                  ∧ ∀ item0 v, item0 ∈ item :: rest →
                               dict_get "merk" item0 = Some v →
                               py_truthy v = true → ∃ s, v = PyStr s
              | None =>
                  ∃ item0 v, item0 ∈ item :: rest ∧ dict_get "merk" item0 = Some v
                             ∧ py_truthy v = true ∧ ∀ s, v ≠ PyStr s
              end) as Hskip.
    { intros acc' Hblank Hstr. specialize (IH acc').
      destruct (collect_brands rest acc') as [brands|].
      - destruct IH as (new & -> & Hnew & Hall). exists new.
        split_and!; [done| |].
        + intros b. rewrite Hnew. split.
          * intros (item0 & s & Hin & Hrest). exists item0, s.
            split; [by apply list_elem_of_further|done].
          * intros (item0 & s & Hin & Hget & Hs & Hb).
            apply elem_of_cons in Hin as [->|Hin].
            -- rewrite (Hblank s Hget) in Hs. by subst b.
            -- by exists item0, s.
        + intros item0 v Hin. apply elem_of_cons in Hin as [->|Hin].
          * apply Hstr.
          * by apply Hall.
      - destruct IH as (item0 & v & Hin & Hrest). exists item0, v.
        split; [by apply list_elem_of_further|done]. }
    cbn [collect_brands].
    destruct (dict_get "merk" item) as [v|] eqn:Hget; [|by apply Hskip].
    destruct (py_truthy v) eqn:Htrue.
    + destruct v as [|s|z|b|repr];
        try (exists item; eexists; split; [apply list_elem_of_here|];
             split; [exact Hget|]; split; [done|]; by intros ?).
      destruct (String.eqb_spec (PyStr.strip s) "") as [Hblank|Hfull].
      * apply Hskip.
        -- by intros s' [= <-].
        -- intros v [= <-] _. by exists s.
      * specialize (IH (acc ++ [PyStr.strip s])).
        destruct (collect_brands rest (acc ++ [PyStr.strip s])) as [brands|].
        -- destruct IH as (new & -> & Hnew & Hall). exists (PyStr.strip s :: new).
           split_and!; [by rewrite <- app_assoc| |].
           ++ intros b. rewrite elem_of_cons, Hnew. split.
              ** intros [->|(item0 & s' & Hin & Hrest)].
                 --- exists item, s. split; [apply list_elem_of_here|done].
                 --- exists item0, s'. split; [by apply list_elem_of_further|done].
              ** intros (item0 & s' & Hin & Hget' & Hs & Hb).
                 apply elem_of_cons in Hin as [->|Hin].
                 --- left. rewrite Hget in Hget'. by inversion Hget'.
                 --- right. by exists item0, s'.
           ++ intros item0 v Hin. apply elem_of_cons in Hin as [->|Hin].
              ** rewrite Hget. intros [= <-] _. by exists s.
              ** by apply Hall.
        -- destruct IH as (item0 & v & Hin & Hrest). exists item0, v.
           split; [by apply list_elem_of_further|done].
    + apply Hskip.
      * intros s [= ->]. cbn [py_truthy] in Htrue.
        apply negb_false_iff in Htrue. by apply String.eqb_eq in Htrue as ->.
      * intros v' [= <-]. by rewrite Htrue.
Qed.

(** X19: [get_available_brands] sends exactly one request.  A refused
    connection or an error status gives the empty list instead of an
    error.  A list it returns is sorted, holds no blank and no untrimmed
    name, and holds exactly the trimmed non-blank brand names of the
    reply.  It fails with the uncaught [AttributeError] exactly when a
    successful reply holds a brand that is truthy and not a string. *)
Theorem get_available_brands_result {S : Type}
  (respond : S → request → response * S)
  (app_token : option string) (timeout : pyvalue) (st : S) :
  let reply := respond st (brands_request app_token timeout) in
  let result := get_available_brands respond app_token timeout st in
  snd result = snd reply
  ∧ (failure_of (fst reply) ≠ None → fst result = BrandsOk [])
  ∧ (∀ brands, fst result = BrandsOk brands →
       StronglySorted String.le brands
       ∧ Forall (fun b => b ≠ "" ∧ PyStr.strip b = b) brands
       ∧ ∀ status data, fst reply = Replied status data →
           failure_of (fst reply) = None →
           ∀ b, b ∈ brands ↔
                ∃ item s, item ∈ data ∧ dict_get "merk" item = Some (PyStr s)
                          ∧ PyStr.strip s = b ∧ b ≠ "")
  ∧ (fst result = BrandsAttributeError ↔
     ∃ status data item v,
       fst reply = Replied status data ∧ failure_of (fst reply) = None
       ∧ item ∈ data ∧ dict_get "merk" item = Some v
       ∧ py_truthy v = true ∧ ∀ s, v ≠ PyStr s).
Proof.
  intros reply result. subst result. unfold get_available_brands. fold reply.
  destruct reply as [[|status data] st1]; cbn [fst snd failure_of].
  { split_and!; try done.
    - intros brands [= <-]. split_and!; [constructor|constructor|done].
    - split; [done|]. by intros (? & ? & ? & ? & ? & _). }
  destruct ((400 <=? status) && (status <? 600)) eqn:Hs; cbn [fst snd].
  { split_and!; try done.
    - intros brands [= <-]. split_and!; [constructor|constructor|done].
    - split; [done|]. by intros (? & ? & ? & ? & _ & ? & _). }
  pose proof (collect_brands_spec data []) as Hspec.
  destruct (collect_brands data []) as [found|]; cbn [fst snd].
  - destruct Hspec as (new & Hfound & Hnew & Hall). cbn [app] in Hfound.
    subst new.
    split_and!; try done.
    + intros brands [= <-]. split_and!.
      * apply (StronglySorted_merge_sort String.le).
      * apply Forall_forall. intros b Hb.
        unfold sorted in Hb. rewrite merge_sort_Permutation in Hb.
        apply Hnew in Hb as (item & s & _ & _ & <- & Hb).
        split; [done|]. apply strip_idempotent.
      * intros status' data' [= <- <-] _ b.
        unfold sorted. rewrite merge_sort_Permutation. apply Hnew.
    + split; [done|].
      intros (status' & data' & item & v & [= <- <-] & _ & Hin & Hget & Htrue & Hv).
      destruct (Hall item v Hin Hget Htrue) as [s ->]. by destruct (Hv s).
  - destruct Hspec as (item & v & Hin & Hget & Htrue & Hv).
    split_and!; try done.
    split; [|done]. intros _. by exists status, data, item, v.
Qed.

Lemma get_available_brands_result_witness :
  fst (get_available_brands replaying None (PyFloat "30.0") [ConnectionFailed])
  = BrandsOk []
  ∧ Forall (fun b => b ≠ "" ∧ PyStr.strip b = b) ["AUDI"; "VOLVO"].
Proof.
  pose proof (get_available_brands_result replaying None (PyFloat "30.0")
                [ConnectionFailed]) as Hfailed.
  pose proof (get_available_brands_result replaying None (PyFloat "30.0")
                [Replied 200 [[("merk", PyStr " VOLVO ")]; [("merk", PyStr "AUDI")];
                              [("merk", PyStr "  ")]; [("merk", PyNone)]]])
    as Hok.
  cbv zeta in Hfailed, Hok.
  destruct Hfailed as (_ & Hfail & _). destruct Hok as (_ & _ & Hbrands & _).
  split.
  - apply Hfail. vm_compute. discriminate.
  - apply (Hbrands ["AUDI"; "VOLVO"]). reflexivity.
Defined.
